(** * Knox Finance: Dutch auction and vault accounting

    A shallow embedding of the Knox option-vault contracts
    ([AuctionInternal], [Auction], [VaultInternal], [VaultAdmin]) and the
    properties of their epoch state machine.

    Conventions.
    - [uint256], [uint64] and [int128] values are integers in [Z]; every
      checked Solidity operation that can leave its range is written with
      an explicit range test and reverts.
    - A transaction either returns a value ([Ok]) or reverts with the
      message of the failing [require] ([Revert]).
    - Solidity [mapping]s are [gmap]s read with the total lookup [!!!],
      whose default is the all-zero value of the struct.
    - Storage is threaded explicitly: every entry point takes the layout
      and returns the new one. *)

From Stdlib Require Import ZArith Lia Bool List.
From stdpp Require Import gmap strings list.

Open Scope Z_scope.

(** ** Transactions that may revert *)

Inductive result (A : Type) : Type :=
| Ok (a : A)
| Revert (msg : string).

Arguments Ok {A} a.
Arguments Revert {A} msg.

#[global] Instance result_ret : MRet result := fun A a => Ok a.
#[global] Instance result_bind : MBind result := fun A B f r =>
  match r with
  | Ok a => f a
  | Revert msg => Revert msg
  end.

Definition require (cond : bool) (msg : string) : result unit :=
  if cond then Ok tt else Revert msg.

Definition succeeds {A} (r : result A) : Prop := exists a, r = Ok a.

(** ** Machine integers *)

Definition MAX_UINT256 : Z := 2 ^ 256 - 1.
Definition MIN_64x64 : Z := - 2 ^ 127.
Definition MAX_64x64 : Z := 2 ^ 127 - 1.
Definition ONE_64x64 : Z := 2 ^ 64.

Definition panic_overflow : string := "panic: arithmetic overflow (0x11)".

(** Checked [uint256] arithmetic of Solidity 0.8. *)
Definition uadd (a b : Z) : result Z :=
  if a + b <=? MAX_UINT256 then Ok (a + b) else Revert panic_overflow.

Definition usub (a b : Z) : result Z :=
  if b <=? a then Ok (a - b) else Revert panic_overflow.

Definition umul (a b : Z) : result Z :=
  if a * b <=? MAX_UINT256 then Ok (a * b) else Revert panic_overflow.

(** ** ABDKMath64x64

    The signed 64.64 fixed-point library is an external dependency
    (abdk-libraries-solidity); its functions are written after its
    published code.  A number [x] stands for the rational [x / 2^64].
    Its [require]s carry no message. *)

Module ABDKMath64x64.

(** The empty revert data of a [require] without a message. *)
Definition no_message : string := EmptyString.

Definition fits (r : Z) : bool := (MIN_64x64 <=? r) && (r <=? MAX_64x64).

Definition sub (x y : Z) : result Z :=
  _ ← require (fits (x - y)) no_message; Ok (x - y).

Definition mul (x y : Z) : result Z :=
  let r := Z.shiftr (x * y) 64 in
  _ ← require (fits r) no_message; Ok r.

(** Solidity's signed division truncates towards zero. *)
Definition div (x y : Z) : result Z :=
  _ ← require (negb (y =? 0)) no_message;
  let r := Z.quot (x * 2 ^ 64) y in
  _ ← require (fits r) no_message; Ok r.

Definition mulu (x y : Z) : result Z :=
  if y =? 0 then Ok 0 else
  _ ← require (0 <=? x) no_message;
  let lo := Z.shiftr (x * Z.land y (2 ^ 128 - 1)) 64 in
  let hi := x * Z.shiftr y 128 in
  _ ← require (hi <=? 2 ^ 192 - 1) no_message;
  let hi := Z.shiftl hi 64 in
  _ ← require (hi <=? MAX_UINT256 - lo) no_message;
  Ok (hi + lo).

(** [divuu] returns the quotient of [x * 2^64] by [y] when it fits 128
    bits; [divu] further asks for a non-negative [int128]. *)
Definition divu (x y : Z) : result Z :=
  _ ← require (negb (y =? 0)) no_message;
  let r := (x * 2 ^ 64) / y in
  _ ← require (r <=? 2 ^ 128 - 1) no_message;
  _ ← require (r <=? MAX_64x64) no_message;
  Ok r.

(** The product of a 64.64 number and an integer, rounded down: the value
    of [mulu] when it does not revert. *)
Definition mulu_value (x y : Z) : Z := x * y / 2 ^ 64.

End ABDKMath64x64.

(** ** OptionMath *)

Module OptionMath.

(** Modelled from the spec: libraries/OptionMath.sol is not among the
    sources.  Section 4.1 of the specification: the value is scaled by
    [10^(baseDecimals - underlyingDecimals)]; the scenarios of
    test/libraries/OptionMath.test.ts fix the direction of the rounding. *)
Definition toBaseTokenAmount (underlyingDecimals baseDecimals value : Z) : result Z :=
  if underlyingDecimals <=? baseDecimals
  then umul value (10 ^ (baseDecimals - underlyingDecimals))
  else Ok (value / 10 ^ (underlyingDecimals - baseDecimals)).

(** Modelled from the spec: for a call the collateral is the underlying,
    so the size is returned unchanged; for a put it is [size * strike]
    rescaled to the decimals of the base token. *)
Definition fromContractsToCollateral
    (contracts : Z) (isCall : bool) (underlyingDecimals baseDecimals strike64x64 : Z)
    : result Z :=
  if isCall then Ok contracts else
  value ← ABDKMath64x64.mulu strike64x64 contracts;
  toBaseTokenAmount underlyingDecimals baseDecimals value.

(** Modelled from the spec: the inverse conversion, from an amount of
    collateral to a number of contracts: unchanged for a call, divided by
    the strike for a put (the scenarios of OptionMath.test.ts:
    100000 units of collateral at strike 2000 are 50 contracts). *)
Definition fromCollateralToContracts
    (collateral : Z) (isCall : bool) (baseDecimals strike64x64 : Z) : result Z :=
  if isCall then Ok collateral else
  collateral64x64 ← ABDKMath64x64.divu collateral (10 ^ baseDecimals);
  q ← ABDKMath64x64.div collateral64x64 strike64x64;
  ABDKMath64x64.mulu q (10 ^ baseDecimals).

(** Modelled from the spec: the overload with four arguments
    [(amount, isCall, baseDecimals, strike64x64)] that the sources call
    under the name [fromContractsToCollateral] (in [_getTotalContracts] and
    [_calculateDistributions]).  [TestOptionMath.fromCollateralToContracts]
    forwards to it and the tests fix the direction: it turns collateral
    into contracts. *)
Definition fromContractsToCollateral_4
    (amount : Z) (isCall : bool) (baseDecimals strike64x64 : Z) : result Z :=
  fromCollateralToContracts amount isCall baseDecimals strike64x64.

End OptionMath.

(** ** TimeCalendar ([VaultInternal._getFriday], [_getNextFriday]) *)

Module TimeCalendar.

Definition HOUR : Z := 3600.
Definition DAY : Z := 86400.
Definition WEEK : Z := 7 * DAY.

(** Seconds from the start of a week of the unix calendar (which starts on
    a Thursday 00:00) to Friday 08:00. *)
Definition FRIDAY_8AM : Z := DAY + 8 * HOUR.

Definition isFriday8am (t : Z) : Prop := t mod WEEK = FRIDAY_8AM.

(** [dayOfWeek] is at most 6, so [7 + 5 - dayOfWeek] and its product with
    one day stay in range; the additions to the timestamp are checked. *)
Definition _getFriday (timestamp : Z) : result Z :=
  let dayOfWeek := (timestamp / DAY + 4) mod 7 in
  nextFriday ← uadd timestamp (((7 + 5 - dayOfWeek) mod 7) * DAY);
  midnight ← usub nextFriday (nextFriday mod (24 * HOUR));
  friday8am ← uadd midnight (8 * HOUR);
  if timestamp >=? friday8am then uadd friday8am (7 * DAY) else Ok friday8am.

Definition _getNextFriday (timestamp : Z) : result Z :=
  let dayOfWeek := (timestamp / DAY + 4) mod 7 in
  nextFriday ← uadd timestamp (((7 + 5 - dayOfWeek) mod 7) * DAY);
  midnight ← usub nextFriday (nextFriday mod (24 * HOUR));
  friday8am ← uadd midnight (8 * HOUR);
  if (timestamp >=? friday8am) || (friday8am - timestamp <? 4 * DAY)
  then uadd friday8am (7 * DAY) else Ok friday8am.

(** The value [_getFriday] computes when no addition overflows. *)
Definition friday_value (t : Z) : Z :=
  let k := (7 + 5 - (t / DAY + 4) mod 7) mod 7 in
  let f := t + k * DAY - (t + k * DAY) mod DAY + 8 * HOUR in
  if t >=? f then f + WEEK else f.

End TimeCalendar.

(** ** OrderBook *)

Module OrderBook.

Record Data : Type := mkData {
  id : Z;
  price64x64 : Z;
  size : Z;
  buyer : Z
}.

Definition zeroData : Data := mkData 0 0 0 0.

(** Modelled from the spec: auction/OrderBook.sol is not among the
    sources.  Section 4.3 of the specification: a price-sorted index of
    live orders keyed by ids issued from 1 upwards, 0 being the null id.
    The index is kept as the sequence of its live orders from head to
    tail, together with the last id issued. *)
Record Index : Type := mkIndex {
  orders : list Data;
  lastId : Z
}.

Definition empty : Index := mkIndex [] 0.

#[global] Instance Index_inhabited : Inhabited Index := populate empty.

Definition head_id (l : list Data) : Z :=
  match l with
  | [] => 0
  | d :: _ => id d
  end.

(** Modelled from the spec: the id of the highest-priced live order, 0 for
    an empty book. *)
Definition _head (index : Index) : Z := head_id (orders index).

(** Modelled from the spec: the number of live orders. *)
Definition _length (index : Index) : Z := Z.of_nat (length (orders index)).

Fixpoint find_order (key : Z) (l : list Data) : Data :=
  match l with
  | [] => zeroData
  | d :: rest => if id d =? key then d else find_order key rest
  end.

(** Modelled from the spec: an absent id yields the zero tuple. *)
Definition _getOrderById (index : Index) (key : Z) : Data :=
  find_order key (orders index).

Fixpoint next_of (key : Z) (l : list Data) : Z :=
  match l with
  | [] => 0
  | d :: rest =>
      if id d =? key then head_id rest else next_of key rest
  end.

Fixpoint prev_of (key : Z) (before : Z) (l : list Data) : Z :=
  match l with
  | [] => 0
  | d :: rest => if id d =? key then before else prev_of key (id d) rest
  end.

(** Modelled from the spec: the neighbours of an order, 0 at either end
    and for an absent id. *)
Definition _getNextOrder (index : Index) (key : Z) : Z :=
  next_of key (orders index).

Definition _getPreviousOrder (index : Index) (key : Z) : Z :=
  prev_of key 0 (orders index).

(** The new order goes after the last order whose price is at least its
    own, that is before the first one with a strictly lower price. *)
Fixpoint splice (d : Data) (l : list Data) : list Data :=
  match l with
  | [] => [d]
  | d' :: rest =>
      if price64x64 d' <? price64x64 d then d :: l else d' :: splice d rest
  end.

(** Modelled from the spec: issues a fresh id and splices the order in
    (first in first out among equal prices). *)
Definition _insert (index : Index) (price size buyer : Z) : Z * Index :=
  let newId := lastId index + 1 in
  (newId, mkIndex (splice (mkData newId price size buyer) (orders index)) newId).

Definition drop_order (key : Z) (l : list Data) : list Data :=
  List.filter (fun d => negb (id d =? key)) l.

Definition has_order (key : Z) (l : list Data) : bool :=
  existsb (fun d => id d =? key) l.

(** Modelled from the spec: unlinks the order; false iff the id is not
    present. *)
Definition _remove (index : Index) (key : Z) : bool * Index :=
  if has_order key (orders index)
  then (true, mkIndex (drop_order key (orders index)) (lastId index))
  else (false, index).

(** Ids of a book are issued once: distinct, positive, at most the last
    id issued; sizes are unsigned. *)
Definition wf (index : Index) : Prop :=
  0 <= lastId index /\
  NoDup (id <$> orders index) /\
  Forall (fun d => 0 < id d <= lastId index /\ 0 <= size d) (orders index).

End OrderBook.

(** ** EnumerableSet.UintSet

    External dependency (@solidstate/contracts): a set kept as the array
    of its members; removal moves the last member into the freed slot. *)

Module EnumerableSet.

(** A [UintSet] is the list of its members. *)
Abbreviation UintSet := (list Z).

Definition contains (s : UintSet) (v : Z) : bool := existsb (Z.eqb v) s.

Definition add (s : UintSet) (v : Z) : bool * UintSet :=
  if contains s v then (false, s) else (true, s ++ [v]).

Fixpoint index_of (v : Z) (s : UintSet) : option nat :=
  match s with
  | [] => None
  | x :: rest => if x =? v then Some O else S <$> index_of v rest
  end.

Definition remove (s : UintSet) (v : Z) : bool * UintSet :=
  match index_of v s with
  | None => (false, s)
  | Some i =>
      let lastValue := List.last s 0 in
      (true, removelast (<[i := lastValue]> s))
  end.

Definition length (s : UintSet) : Z := Z.of_nat (List.length s).

Definition at_ (s : UintSet) (i : nat) : Z := nth i s 0.

End EnumerableSet.

(** ** Auction storage ([AuctionStorage.sol]) *)

Module AuctionStorage.

Record InitAuction : Type := mkInitAuction {
  init_epoch : Z;
  init_expiry : Z;
  init_strike64x64 : Z;
  init_longTokenId : Z;
  init_startTime : Z;
  init_endTime : Z
}.

Inductive Status : Type :=
| UNINITIALIZED | INITIALIZED | FINALIZED | PROCESSED | CANCELLED.

Definition status_eqb (a b : Status) : bool :=
  match a, b with
  | UNINITIALIZED, UNINITIALIZED | INITIALIZED, INITIALIZED
  | FINALIZED, FINALIZED | PROCESSED, PROCESSED | CANCELLED, CANCELLED => true
  | _, _ => false
  end.

Record Auction : Type := mkAuction {
  status : Status;
  expiry : Z;
  strike64x64 : Z;
  maxPrice64x64 : Z;
  minPrice64x64 : Z;
  lastPrice64x64 : Z;
  startTime : Z;
  endTime : Z;
  processedTime : Z;
  totalContracts : Z;
  totalContractsSold : Z;
  totalPremiums : Z;
  longTokenId : Z
}.

(** The value of an unwritten storage slot. *)
Definition zeroAuction : Auction :=
  mkAuction UNINITIALIZED 0 0 0 0 0 0 0 0 0 0 0 0.

#[global] Instance Auction_inhabited : Inhabited Auction := populate zeroAuction.

(** Writes to one field of the struct. *)
Definition set_status (v : Status) (a : Auction) : Auction :=
  mkAuction v (expiry a) (strike64x64 a) (maxPrice64x64 a) (minPrice64x64 a)
    (lastPrice64x64 a) (startTime a) (endTime a) (processedTime a)
    (totalContracts a) (totalContractsSold a) (totalPremiums a) (longTokenId a).

Definition set_prices (maxPrice minPrice : Z) (a : Auction) : Auction :=
  mkAuction (status a) (expiry a) (strike64x64 a) maxPrice minPrice
    (lastPrice64x64 a) (startTime a) (endTime a) (processedTime a)
    (totalContracts a) (totalContractsSold a) (totalPremiums a) (longTokenId a).

Definition set_lastPrice64x64 (v : Z) (a : Auction) : Auction :=
  mkAuction (status a) (expiry a) (strike64x64 a) (maxPrice64x64 a) (minPrice64x64 a)
    v (startTime a) (endTime a) (processedTime a)
    (totalContracts a) (totalContractsSold a) (totalPremiums a) (longTokenId a).

Definition set_processedTime (v : Z) (a : Auction) : Auction :=
  mkAuction (status a) (expiry a) (strike64x64 a) (maxPrice64x64 a) (minPrice64x64 a)
    (lastPrice64x64 a) (startTime a) (endTime a) v
    (totalContracts a) (totalContractsSold a) (totalPremiums a) (longTokenId a).

Definition set_totalContracts (v : Z) (a : Auction) : Auction :=
  mkAuction (status a) (expiry a) (strike64x64 a) (maxPrice64x64 a) (minPrice64x64 a)
    (lastPrice64x64 a) (startTime a) (endTime a) (processedTime a)
    v (totalContractsSold a) (totalPremiums a) (longTokenId a).

Definition set_totalContractsSold (v : Z) (a : Auction) : Auction :=
  mkAuction (status a) (expiry a) (strike64x64 a) (maxPrice64x64 a) (minPrice64x64 a)
    (lastPrice64x64 a) (startTime a) (endTime a) (processedTime a)
    (totalContracts a) v (totalPremiums a) (longTokenId a).

Definition set_totalPremiums (v : Z) (a : Auction) : Auction :=
  mkAuction (status a) (expiry a) (strike64x64 a) (maxPrice64x64 a) (minPrice64x64 a)
    (lastPrice64x64 a) (startTime a) (endTime a) (processedTime a)
    (totalContracts a) (totalContractsSold a) v (longTokenId a).

(** The five fields [Auction.initialize] copies from its argument. *)
Definition set_parameters (i : InitAuction) (a : Auction) : Auction :=
  mkAuction INITIALIZED (init_expiry i) (init_strike64x64 i)
    (maxPrice64x64 a) (minPrice64x64 a) (lastPrice64x64 a)
    (init_startTime i) (init_endTime i) (processedTime a)
    (totalContracts a) (totalContractsSold a) (totalPremiums a) (init_longTokenId i).

Record Layout : Type := mkLayout {
  minSize : Z;
  auctions : gmap Z Auction;
  orderbooks : gmap Z OrderBook.Index;
  epochsByBuyer : gmap Z (list Z);
  Exchange : Z
}.

Definition auction_of (l : Layout) (epoch : Z) : Auction := auctions l !!! epoch.
Definition orderbook_of (l : Layout) (epoch : Z) : OrderBook.Index := orderbooks l !!! epoch.
Definition epochs_of (l : Layout) (who : Z) : list Z := epochsByBuyer l !!! who.

Definition set_auction (epoch : Z) (a : Auction) (l : Layout) : Layout :=
  mkLayout (minSize l) (<[epoch := a]> (auctions l)) (orderbooks l) (epochsByBuyer l)
    (Exchange l).

Definition set_orderbook (epoch : Z) (b : OrderBook.Index) (l : Layout) : Layout :=
  mkLayout (minSize l) (auctions l) (<[epoch := b]> (orderbooks l)) (epochsByBuyer l)
    (Exchange l).

Definition set_epochs (who : Z) (s : list Z) (l : Layout) : Layout :=
  mkLayout (minSize l) (auctions l) (orderbooks l) (<[who := s]> (epochsByBuyer l))
    (Exchange l).

Definition set_Exchange (v : Z) (l : Layout) : Layout :=
  mkLayout (minSize l) (auctions l) (orderbooks l) (epochsByBuyer l) v.

Definition _getAuction (l : Layout) (epoch : Z) : Auction := auction_of l epoch.
Definition _getMinSize (l : Layout) : Z := minSize l.
Definition _getOrderById (l : Layout) (epoch key : Z) : OrderBook.Data :=
  OrderBook._getOrderById (orderbook_of l epoch) key.
Definition _getStatus (l : Layout) (epoch : Z) : Status := status (auction_of l epoch).
Definition _getTotalContractsSold (l : Layout) (epoch : Z) : Z :=
  totalContractsSold (auction_of l epoch).
Definition _isCancelled (l : Layout) (epoch : Z) : bool :=
  status_eqb (status (auction_of l epoch)) CANCELLED.
Definition _isFinalized (l : Layout) (epoch : Z) : bool :=
  status_eqb (status (auction_of l epoch)) FINALIZED.

End AuctionStorage.

(** ** The Dutch auction ([AuctionInternal], [Auction]) *)

Module Auction.

Import AuctionStorage.

(** The immutables fixed by the constructor, the address of the contract
    and its owner (kept by the Ownable storage of the proxy). *)
Record Immutables : Type := mkImmutables {
  isCall : bool;
  baseDecimals : Z;
  underlyingDecimals : Z;
  ERC20 : Z;
  Vault : Z;
  WETH : Z;
  this : Z;
  owner : Z
}.

(** What a call sees of the transaction and of the other contracts: the
    block time, the caller, the ether sent, and the answers of the vault,
    of the pool and of the exchange helper to the calls made to them. *)
Record Env : Type := mkEnv {
  block_timestamp : Z;
  msg_sender : Z;
  msg_value : Z;
  Vault_totalCollateral : Z;
  Pool_balanceOf : Z -> Z;
  Pool_getPriceAfter64x64 : Z -> Z;
  Exchange_swapWithToken : Z
}.

(** Token movements asked of the other contracts, in the order of the
    calls.  Events are not recorded. *)
Inductive Effect : Type :=
| ERC20_safeTransfer (to amount : Z)
| ERC20_safeTransferFrom (from to amount : Z)
| Pool_safeTransferFrom (from to tokenId amount : Z)
| ETH_send (to amount : Z)
| WETH_deposit (amount : Z)
| WETH_safeTransfer (to amount : Z)
| TokenIn_safeTransferFrom (token from to amount : Z)
| Exchange_swap (tokenIn tokenOut amountIn : Z).

Record SwapArgs : Type := mkSwapArgs {
  tokenIn : Z;
  amountInMax : Z;
  amountOutMin : Z
}.

Definition HOURS_24 : Z := 24 * 3600.

Section WithImmutables.

Variable k : Immutables.
Variable e : Env.

(** *** Access control *)

Definition onlyVault : result unit :=
  require (msg_sender e =? Vault k) "!vault".

Definition _auctionHasStarted (auction : Auction) : result unit :=
  _ ← require (0 <? startTime auction) "start time is not set";
  require (startTime auction <=? block_timestamp e) "auction not started".

Definition _auctionHasNotEnded (auction : Auction) : result unit :=
  _ ← require (0 <? endTime auction) "end time is not set";
  require (block_timestamp e <=? endTime auction) "auction has ended".

Definition _limitOrdersAllowed (auction : Auction) : result unit :=
  _ ← require (status_eqb INITIALIZED (status auction)) "status != initialized";
  _auctionHasNotEnded auction.

Definition _marketOrdersAllowed (auction : Auction) : result unit :=
  _ ← require (status_eqb INITIALIZED (status auction)) "status != initialized";
  _ ← _auctionHasStarted auction;
  _auctionHasNotEnded auction.

(** *** Pricing *)

Definition _lastPrice64x64 (auction : Auction) : Z := lastPrice64x64 auction.

Definition _priceCurve64x64 (auction : Auction) : result Z :=
  let startTime := startTime auction in
  totalTime ← usub (endTime auction) startTime;
  let maxPrice64x64 := maxPrice64x64 auction in
  let minPrice64x64 := minPrice64x64 auction in
  if block_timestamp e <=? startTime then Ok maxPrice64x64 else
  elapsed ← usub (block_timestamp e) startTime;
  timeRemaining64x64 ← ABDKMath64x64.divu elapsed totalTime;
  x ← ABDKMath64x64.sub maxPrice64x64 minPrice64x64;
  y ← ABDKMath64x64.mul timeRemaining64x64 x;
  ABDKMath64x64.sub maxPrice64x64 y.

Definition _clearingPrice64x64 (auction : Auction) : result Z :=
  if status_eqb (status auction) FINALIZED
     || status_eqb (status auction) PROCESSED
     || status_eqb (status auction) CANCELLED
  then Ok (_lastPrice64x64 auction)
  else _priceCurve64x64 auction.

(** *** Withdraw *)

(** The loop variables of [_previewWithdraw]. *)
Record Walk : Type := mkWalk {
  w_orderbook : OrderBook.Index;
  w_next : Z;
  w_refund : Z;
  w_fill : Z;
  w_totalContractsSold : Z
}.

(** One turn of the loop of [_previewWithdraw]. *)
Definition previewWithdraw_turn (isPreview : bool) (buyer lastPrice64x64 : Z)
    (auction : Auction) (w : Walk) : result Walk :=
  let orderbook := w_orderbook w in
  let totalContractsSold := w_totalContractsSold w in
  let data := OrderBook._getOrderById orderbook (w_next w) in
  let next := OrderBook._getNextOrder orderbook (w_next w) in
  '(orderbook, refund, fill) ←
    (if OrderBook.buyer data =? buyer then
       '(refund, fill) ←
         (if (lastPrice64x64 <? MAX_64x64)
             && (lastPrice64x64 <=? OrderBook.price64x64 data) then
            paid ← ABDKMath64x64.mulu (OrderBook.price64x64 data) (OrderBook.size data);
            cost ← ABDKMath64x64.mulu lastPrice64x64 (OrderBook.size data);
            reached ← uadd totalContractsSold (OrderBook.size data);
            '(cost, fill) ←
              (if totalContracts auction <=? reached then
                 remainder ← usub (totalContracts auction) totalContractsSold;
                 cost ← ABDKMath64x64.mulu lastPrice64x64 remainder;
                 fill ← uadd (w_fill w) remainder;
                 Ok (cost, fill)
               else
                 fill ← uadd (w_fill w) (OrderBook.size data);
                 Ok (cost, fill));
            owed ← usub paid cost;
            refund ← uadd (w_refund w) owed;
            Ok (refund, fill)
          else
            paid ← ABDKMath64x64.mulu (OrderBook.price64x64 data) (OrderBook.size data);
            refund ← uadd (w_refund w) paid;
            Ok (refund, w_fill w));
       let orderbook :=
         if isPreview then orderbook
         else snd (OrderBook._remove orderbook (OrderBook.id data)) in
       Ok (orderbook, refund, fill)
     else Ok (orderbook, w_refund w, w_fill w));
  totalContractsSold ← uadd totalContractsSold (OrderBook.size data);
  Ok (mkWalk orderbook next refund fill totalContractsSold).

(** [for (i = 1; i <= length; i++)]: [n] turns are left. *)
Fixpoint previewWithdraw_loop (n : nat) (isPreview : bool) (buyer lastPrice64x64 : Z)
    (auction : Auction) (w : Walk) : result Walk :=
  match n with
  | O => Ok w
  | S n' =>
      w' ← previewWithdraw_turn isPreview buyer lastPrice64x64 auction w;
      previewWithdraw_loop n' isPreview buyer lastPrice64x64 auction w'
  end.

(** Returns [(refund, fill)] and the storage, whose order book has lost
    the orders of the buyer unless [isPreview]. *)
Definition _previewWithdraw (l : Layout) (isPreview : bool) (epoch buyer : Z)
    : result (Z * Z * Layout) :=
  let auction := auction_of l epoch in
  let orderbook := orderbook_of l epoch in
  lastPrice64x64 ← _clearingPrice64x64 auction;
  let next := OrderBook._head orderbook in
  let length := OrderBook._length orderbook in
  w ← previewWithdraw_loop (Z.to_nat length) isPreview buyer lastPrice64x64 auction
        (mkWalk orderbook next 0 0 0);
  Ok (w_refund w, w_fill w,
      if isPreview then l else set_orderbook epoch (w_orderbook w) l).

Definition _getExerciseAmount (l : Layout) (epoch size : Z) : result (bool * Z) :=
  let auction := auction_of l epoch in
  let expiry := expiry auction in
  let strike64x64 := strike64x64 auction in
  if block_timestamp e <? expiry then Ok (false, 0) else
  let spot64x64 := Pool_getPriceAfter64x64 e expiry in
  amount ←
    (if isCall k && (strike64x64 <? spot64x64) then
       d ← ABDKMath64x64.sub spot64x64 strike64x64;
       q ← ABDKMath64x64.div d spot64x64;
       ABDKMath64x64.mulu q size
     else if negb (isCall k) && (spot64x64 <? strike64x64) then
       d ← ABDKMath64x64.sub strike64x64 spot64x64;
       value ← ABDKMath64x64.mulu d size;
       OptionMath.toBaseTokenAmount (underlyingDecimals k) (baseDecimals k) value
     else Ok 0);
  Ok (true, amount).

Definition _withdraw (l : Layout) (epoch : Z) : result (Layout * list Effect) :=
  '(refund, fill, l) ← _previewWithdraw l false epoch (msg_sender e);
  let l := set_epochs (msg_sender e)
             (snd (EnumerableSet.remove (epochs_of l (msg_sender e)) epoch)) l in
  '(expired, exercisedAmount) ← _getExerciseAmount l epoch fill;
  '(refund, fill) ←
    (if (expired : bool) then
       refund ← (if 0 <? exercisedAmount then uadd refund exercisedAmount else Ok refund);
       Ok (refund, 0)
     else Ok (refund, fill));
  Ok (l,
      (if 0 <? fill
       then [Pool_safeTransferFrom (this k) (msg_sender e)
               (longTokenId (auction_of l epoch)) fill]
       else [])
      ++ (if 0 <? refund then [ERC20_safeTransfer (msg_sender e) refund] else [])).

(** *** Finalize auction *)

Definition _getTotalContracts (auction : Auction) : result Z :=
  if totalContracts auction <=? 0 then
    OptionMath.fromContractsToCollateral_4 (Vault_totalCollateral e)
      (isCall k) (baseDecimals k) (strike64x64 auction)
  else Ok (totalContracts auction).

(** The loop of [_processOrders] with [n] turns left: [inl price] when an
    order brings the utilization to 100% ([return true]), [inr] with the
    two accumulators when the loop ends or breaks. *)
Fixpoint processOrders_loop (n : nat) (auction : Auction) (orderbook : OrderBook.Index)
    (totalContracts next totalContractsSold lastPrice64x64 : Z)
    : result (Z + Z * Z) :=
  match n with
  | O => Ok (inr (totalContractsSold, lastPrice64x64))
  | S n' =>
      let data := OrderBook._getOrderById orderbook next in
      let next := OrderBook._getNextOrder orderbook next in
      clearing ← _clearingPrice64x64 auction;
      if OrderBook.price64x64 data <? clearing
      then Ok (inr (totalContractsSold, lastPrice64x64))
      else
        reached ← uadd totalContractsSold (OrderBook.size data);
        if totalContracts <=? reached
        then Ok (inl (OrderBook.price64x64 data))
        else
          totalContractsSold ← uadd totalContractsSold (OrderBook.size data);
          processOrders_loop n' auction orderbook totalContracts next
            totalContractsSold (OrderBook.price64x64 data)
  end.

Definition _processOrders (l : Layout) (epoch : Z) : result (bool * Layout) :=
  let orderbook := orderbook_of l epoch in
  let auction := auction_of l epoch in
  let next := OrderBook._head orderbook in
  let length := OrderBook._length orderbook in
  totalContracts ← _getTotalContracts auction;
  let auction :=
    if AuctionStorage.totalContracts auction <=? 0
    then set_totalContracts totalContracts auction else auction in
  r ← processOrders_loop (Z.to_nat length) auction orderbook totalContracts next 0 0;
  match r with
  | inl price =>
      Ok (true, set_auction epoch
                  (set_totalContractsSold totalContracts
                     (set_lastPrice64x64 price auction)) l)
  | inr (totalContractsSold, lastPrice64x64) =>
      Ok (false, set_auction epoch
                   (set_totalContractsSold totalContractsSold
                      (set_lastPrice64x64 lastPrice64x64 auction)) l)
  end.

Definition _finalizeAuction (l : Layout) (epoch : Z) : result Layout :=
  '(filled, l) ← _processOrders l epoch;
  let auction := auction_of l epoch in
  if filled || (endTime auction <? block_timestamp e)
  then Ok (set_auction epoch (set_status FINALIZED auction) l)
  else Ok l.

(** *** Purchase helpers *)

Definition _validateLimitOrder (l : Layout) (price64x64 size : Z) : result Z :=
  _ ← require (0 <? price64x64) "price <= 0";
  _ ← require (minSize l <=? size) "size < minimum";
  ABDKMath64x64.mulu price64x64 size.

Definition _validateMarketOrder (l : Layout) (auction : Auction) (size maxCost : Z)
    : result (Z * Z) :=
  _ ← require (minSize l <=? size) "size < minimum";
  price64x64 ← _priceCurve64x64 auction;
  cost ← ABDKMath64x64.mulu price64x64 size;
  _ ← require (cost <=? maxCost) "cost > maxCost";
  Ok (price64x64, cost).

Definition _transferAssets (credited cost buyer : Z) : list Effect :=
  if cost <? credited then [ERC20_safeTransfer buyer (credited - cost)]
  else if credited <? cost then [ERC20_safeTransferFrom buyer (this k) (cost - credited)]
  else [].

Definition _addOrder (l : Layout) (epoch price64x64 size : Z) : result Layout :=
  let auction := auction_of l epoch in
  let l := set_epochs (msg_sender e)
             (snd (EnumerableSet.add (epochs_of l (msg_sender e)) epoch)) l in
  let '(_, orderbook) :=
    OrderBook._insert (orderbook_of l epoch) price64x64 size (msg_sender e) in
  let l := set_orderbook epoch orderbook l in
  if startTime auction <=? block_timestamp e
  then _finalizeAuction l epoch
  else Ok l.

Definition _wrapNativeToken (amount : Z) : result (Z * list Effect) :=
  if 0 <? msg_value e then
    _ ← require (ERC20 k =? WETH k) "collateral != wETH";
    if amount <? msg_value e
    then Ok (amount, [ETH_send (msg_sender e) (msg_value e - amount); WETH_deposit amount])
    else Ok (msg_value e, [WETH_deposit (msg_value e)])
  else Ok (0, []).

Definition _swapForPoolTokens (Exchange : Z) (s : SwapArgs) (tokenOut : Z)
    : result (Z * list Effect) :=
  fx1 ← (if 0 <? msg_value e then
           _ ← require (tokenIn s =? WETH k) "tokenIn != wETH";
           Ok [WETH_deposit (msg_value e); WETH_safeTransfer Exchange (msg_value e)]
         else Ok []);
  let fx2 := if 0 <? amountInMax s
             then [TokenIn_safeTransferFrom (tokenIn s) (msg_sender e) Exchange
                     (amountInMax s)]
             else [] in
  amountIn ← uadd (amountInMax s) (msg_value e);
  let amountCredited := Exchange_swapWithToken e in
  _ ← require (amountOutMin s <=? amountCredited) "not enough output from trade";
  Ok (amountCredited, fx1 ++ fx2 ++ [Exchange_swap (tokenIn s) tokenOut amountIn]).

(** *** Helpers *)

Definition _cancel (auction : Auction) : Auction :=
  set_totalPremiums 0 (set_status CANCELLED (set_lastPrice64x64 MAX_64x64 auction)).

(** *** Admin *)

Definition onlyOwner : result unit :=
  require (msg_sender e =? owner k) "Ownable: sender must be owner".

Definition setExchangeHelper (l : Layout) (newExchangeHelper : Z) : result Layout :=
  _ ← onlyOwner;
  _ ← require (negb (newExchangeHelper =? 0)) "address not provided";
  _ ← require (negb (newExchangeHelper =? Exchange l)) "new address equals old";
  Ok (set_Exchange newExchangeHelper l).

(** *** Initialize auction *)

Definition initialize (l : Layout) (initAuction : InitAuction) : result Layout :=
  _ ← onlyVault;
  let auction := auction_of l (init_epoch initAuction) in
  _ ← require (status_eqb (status auction) UNINITIALIZED) "status != uninitialized";
  if (init_endTime initAuction <=? init_startTime initAuction)
     || (init_startTime initAuction <? block_timestamp e)
     || (init_expiry initAuction <? block_timestamp e)
     || (init_strike64x64 initAuction <=? 0)
     || (init_longTokenId initAuction <=? 0)
  then Ok (set_auction (init_epoch initAuction) (_cancel auction) l)
  else Ok (set_auction (init_epoch initAuction) (set_parameters initAuction auction) l).

Definition setAuctionPrices (l : Layout) (epoch maxPrice64x64 minPrice64x64 : Z)
    : result Layout :=
  _ ← onlyVault;
  let auction := auction_of l epoch in
  _ ← require (status_eqb INITIALIZED (status auction)) "status != initialized";
  let auction := set_prices maxPrice64x64 minPrice64x64 auction in
  if (AuctionStorage.maxPrice64x64 auction <=? 0)
     || (AuctionStorage.minPrice64x64 auction <=? 0)
     || (AuctionStorage.maxPrice64x64 auction <=? AuctionStorage.minPrice64x64 auction)
  then Ok (set_auction epoch (_cancel auction) l)
  else Ok (set_auction epoch auction l).

(** *** Purchase *)

Definition addLimitOrder (l : Layout) (epoch price64x64 size : Z)
    : result (Layout * list Effect) :=
  let auction := auction_of l epoch in
  _ ← _limitOrdersAllowed auction;
  cost ← _validateLimitOrder l price64x64 size;
  '(credited, fx) ← _wrapNativeToken cost;
  due ← usub cost credited;
  l ← _addOrder l epoch price64x64 size;
  Ok (l, fx ++ [ERC20_safeTransferFrom (msg_sender e) (this k) due]).

Definition swapAndAddLimitOrder (l : Layout) (s : SwapArgs) (epoch price64x64 size : Z)
    : result (Layout * list Effect) :=
  let auction := auction_of l epoch in
  _ ← _limitOrdersAllowed auction;
  cost ← _validateLimitOrder l price64x64 size;
  '(credited, fx) ← _swapForPoolTokens (Exchange l) s (ERC20 k);
  l ← _addOrder l epoch price64x64 size;
  Ok (l, fx ++ _transferAssets credited cost (msg_sender e)).

Definition cancelLimitOrder (l : Layout) (epoch key : Z) : result (Layout * list Effect) :=
  let auction := auction_of l epoch in
  _ ← _limitOrdersAllowed auction;
  _ ← require (0 <? key) "invalid order id";
  let orderbook := orderbook_of l epoch in
  let data := OrderBook._getOrderById orderbook key in
  _ ← require (negb (OrderBook.buyer data =? 0)) "order does not exist";
  _ ← require (OrderBook.buyer data =? msg_sender e) "buyer != msg.sender";
  let l := set_orderbook epoch (snd (OrderBook._remove orderbook key)) l in
  let l := set_epochs (OrderBook.buyer data)
             (snd (EnumerableSet.remove (epochs_of l (OrderBook.buyer data)) epoch)) l in
  l ← (if startTime auction <=? block_timestamp e
       then _finalizeAuction l epoch else Ok l);
  cost ← ABDKMath64x64.mulu (OrderBook.price64x64 data) (OrderBook.size data);
  Ok (l, [ERC20_safeTransfer (msg_sender e) cost]).

Definition addMarketOrder (l : Layout) (epoch size maxCost : Z)
    : result (Layout * list Effect) :=
  let auction := auction_of l epoch in
  _ ← _marketOrdersAllowed auction;
  '(price64x64, cost) ← _validateMarketOrder l auction size maxCost;
  '(credited, fx) ← _wrapNativeToken cost;
  due ← usub cost credited;
  l ← _addOrder l epoch price64x64 size;
  Ok (l, fx ++ [ERC20_safeTransferFrom (msg_sender e) (this k) due]).

Definition swapAndAddMarketOrder (l : Layout) (s : SwapArgs) (epoch size maxCost : Z)
    : result (Layout * list Effect) :=
  let auction := auction_of l epoch in
  _ ← _marketOrdersAllowed auction;
  '(price64x64, cost) ← _validateMarketOrder l auction size maxCost;
  '(credited, fx) ← _swapForPoolTokens (Exchange l) s (ERC20 k);
  l ← _addOrder l epoch price64x64 size;
  Ok (l, fx ++ _transferAssets credited cost (msg_sender e)).

(** *** Withdraw *)

Definition withdraw (l : Layout) (epoch : Z) : result (Layout * list Effect) :=
  let auction := auction_of l epoch in
  _ ← require (status_eqb PROCESSED (status auction)
               || status_eqb CANCELLED (status auction))
        "status != processed || cancelled";
  _ ← (if status_eqb PROCESSED (status auction) then
         release ← uadd (processedTime auction) HOURS_24;
         require (release <=? block_timestamp e) "hold period has not ended"
       else Ok tt);
  _withdraw l epoch.

Definition previewWithdraw (l : Layout) (epoch buyer : Z) : result (Z * Z) :=
  '(refund, fill, _) ← _previewWithdraw l true epoch buyer;
  Ok (refund, fill).

(** *** Finalize auction *)

Definition finalizeAuction (l : Layout) (epoch : Z) : result Layout :=
  let auction := auction_of l epoch in
  timeout ← uadd (endTime auction) HOURS_24;
  if (timeout <=? block_timestamp e)
     && (status_eqb (status auction) INITIALIZED
         || status_eqb (status auction) FINALIZED)
  then Ok (set_auction epoch (_cancel auction) l)
  else if (startTime auction <? block_timestamp e)
          && status_eqb (status auction) INITIALIZED
  then _finalizeAuction l epoch
  else Ok l.

Definition transferPremium (l : Layout) (epoch : Z) : result (Z * Layout * list Effect) :=
  _ ← onlyVault;
  let auction := auction_of l epoch in
  _ ← require (status_eqb FINALIZED (status auction)) "status != finalized";
  _ ← require (totalPremiums auction <=? 0) "premiums transferred";
  totalPremiums ← ABDKMath64x64.mulu (_lastPrice64x64 auction) (totalContractsSold auction);
  let auction := set_totalPremiums totalPremiums auction in
  Ok (AuctionStorage.totalPremiums auction, set_auction epoch auction l,
      [ERC20_safeTransfer (Vault k) totalPremiums]).

Definition processAuction (l : Layout) (epoch : Z) : result Layout :=
  _ ← onlyVault;
  let auction := auction_of l epoch in
  _ ← require (status_eqb FINALIZED (status auction)) "status != finalized";
  let totalContractsSold := totalContractsSold auction in
  _ ← (if 0 <? totalContractsSold then
         let longTokenBalance := Pool_balanceOf e (longTokenId auction) in
         _ ← require (0 <? totalPremiums auction) "premiums not transferred";
         require (totalContractsSold <=? longTokenBalance) "long tokens not transferred"
       else Ok tt);
  Ok (set_auction epoch
        (set_status PROCESSED (set_processedTime (block_timestamp e) auction)) l).

(** *** Views *)

Definition getEpochsByBuyer (l : Layout) (buyer : Z) : list Z := epochs_of l buyer.

Definition getTotalContracts (l : Layout) (epoch : Z) : result Z :=
  _getTotalContracts (auction_of l epoch).

Definition getTotalContractsSold (l : Layout) (epoch : Z) : Z :=
  _getTotalContractsSold l epoch.

End WithImmutables.

(** *** Transactions *)

Inductive Call : Type :=
| SetExchangeHelper (newExchangeHelper : Z)
| Initialize (initAuction : InitAuction)
| SetAuctionPrices (epoch maxPrice64x64 minPrice64x64 : Z)
| AddLimitOrder (epoch price64x64 size : Z)
| SwapAndAddLimitOrder (s : SwapArgs) (epoch price64x64 size : Z)
| CancelLimitOrder (epoch key : Z)
| AddMarketOrder (epoch size maxCost : Z)
| SwapAndAddMarketOrder (s : SwapArgs) (epoch size maxCost : Z)
| Withdraw (epoch : Z)
| FinalizeAuction (epoch : Z)
| TransferPremium (epoch : Z)
| ProcessAuction (epoch : Z).

Definition no_effect (r : result Layout) : result (Layout * list Effect) :=
  l ← r; Ok (l, []).

Definition exec (k : Immutables) (e : Env) (c : Call) (l : Layout)
    : result (Layout * list Effect) :=
  match c with
  | SetExchangeHelper a => no_effect (setExchangeHelper k e l a)
  | Initialize i => no_effect (initialize k e l i)
  | SetAuctionPrices epoch maxP minP => no_effect (setAuctionPrices k e l epoch maxP minP)
  | AddLimitOrder epoch price size => addLimitOrder k e l epoch price size
  | SwapAndAddLimitOrder s epoch price size => swapAndAddLimitOrder k e l s epoch price size
  | CancelLimitOrder epoch key => cancelLimitOrder k e l epoch key
  | AddMarketOrder epoch size maxCost => addMarketOrder k e l epoch size maxCost
  | SwapAndAddMarketOrder s epoch size maxCost =>
      swapAndAddMarketOrder k e l s epoch size maxCost
  | Withdraw epoch => withdraw k e l epoch
  | FinalizeAuction epoch => no_effect (finalizeAuction k e l epoch)
  | TransferPremium epoch =>
      '(_, l, fx) ← transferPremium k e l epoch; Ok (l, fx)
  | ProcessAuction epoch => no_effect (processAuction k e l epoch)
  end.

(** The storage left by the constructor of [AuctionProxy]. *)
Definition initial (minSize exchange : Z) : Layout :=
  mkLayout minSize ∅ ∅ ∅ exchange.

(** The unsigned values of the environment are unsigned. *)
Definition typed (e : Env) : Prop :=
  0 <= block_timestamp e /\ 0 <= msg_value e /\ 0 <= Vault_totalCollateral e.

(** The storages a deployed auction can be in: those reached from the
    constructor by successful transactions, whatever the callers, the times
    and the answers of the other contracts. *)
Inductive reachable (k : Immutables) : Layout -> Prop :=
| reachable_initial minSize exchange :
    0 <= minSize -> reachable k (initial minSize exchange)
| reachable_exec l e c l' fx :
    reachable k l -> typed e -> exec k e c l = Ok (l', fx) -> reachable k l'.

(** The storages reached from a given one. *)
Inductive reachable_from (k : Immutables) (l : Layout) : Layout -> Prop :=
| reachable_from_refl : reachable_from k l l
| reachable_from_exec l1 e c l2 fx :
    reachable_from k l l1 -> typed e -> exec k e c l1 = Ok (l2, fx) ->
    reachable_from k l l2.

End Auction.

(** ** The auction in the words of the specification

    The definitions of this module are written after the specification
    (sections 4.4.3, 4.4.4 and 8), over the head-to-tail sequence of the
    orders of a book; the properties compare them with the code. *)

Module AuctionSpec.

Import AuctionStorage.

(** *** Settlement of the orders of a buyer (section 4.4.4) *)

(** What the buyer paid in for an order: [price * size]. *)
Definition paid (d : OrderBook.Data) : Z :=
  ABDKMath64x64.mulu_value (OrderBook.price64x64 d) (OrderBook.size d).

(** An order takes part in the fill when the auction was not cancelled
    and its price is at least the clearing price. *)
Definition accepted (clearingPrice : Z) (d : OrderBook.Data) : bool :=
  (clearingPrice <? MAX_64x64) && (clearingPrice <=? OrderBook.price64x64 d).

(** The filled amount of an accepted order: [min(size, remainder)], the
    remainder being what the orders before it have left of the contracts. *)
Definition filled (clearingPrice totalContracts soldBefore : Z) (d : OrderBook.Data) : Z :=
  if accepted clearingPrice d
  then Z.min (OrderBook.size d) (totalContracts - soldBefore)
  else 0.

(** The cost of an order: the clearing price times the filled amount on a
    filled portion, zero otherwise. *)
Definition cost (clearingPrice totalContracts soldBefore : Z) (d : OrderBook.Data) : Z :=
  if accepted clearingPrice d
  then ABDKMath64x64.mulu_value clearingPrice
         (Z.min (OrderBook.size d) (totalContracts - soldBefore))
  else 0.

(** Sums over the orders of the buyer, the book being walked from its
    head with the sizes met so far in [soldBefore]. *)
Fixpoint total_paid (buyer : Z) (book : list OrderBook.Data) : Z :=
  match book with
  | [] => 0
  | d :: rest =>
      (if OrderBook.buyer d =? buyer then paid d else 0) + total_paid buyer rest
  end.

Fixpoint total_cost (buyer clearingPrice totalContracts soldBefore : Z)
    (book : list OrderBook.Data) : Z :=
  match book with
  | [] => 0
  | d :: rest =>
      (if OrderBook.buyer d =? buyer
       then cost clearingPrice totalContracts soldBefore d else 0)
      + total_cost buyer clearingPrice totalContracts
          (soldBefore + OrderBook.size d) rest
  end.

Fixpoint total_filled (buyer clearingPrice totalContracts soldBefore : Z)
    (book : list OrderBook.Data) : Z :=
  match book with
  | [] => 0
  | d :: rest =>
      (if OrderBook.buyer d =? buyer
       then filled clearingPrice totalContracts soldBefore d else 0)
      + total_filled buyer clearingPrice totalContracts
          (soldBefore + OrderBook.size d) rest
  end.

(** *** The finalize-check (section 4.4.3) *)

Inductive Traversal : Type :=
| AutoFinalize (price : Z)
| Stopped (accumulated lastVisitedPrice : Z).

(** Traverse the book from the head while accumulating the sizes; stop at
    the first order whose price is below the clearing price, or when
    [accumulated + size >= totalContracts]. *)
Fixpoint traverse (clearingPrice : result Z) (totalContracts : Z)
    (book : list OrderBook.Data) (accumulated lastVisitedPrice : Z) : result Traversal :=
  match book with
  | [] => Ok (Stopped accumulated lastVisitedPrice)
  | d :: rest =>
      clearing ← clearingPrice;
      if OrderBook.price64x64 d <? clearing
      then Ok (Stopped accumulated lastVisitedPrice)
      else
        reached ← uadd accumulated (OrderBook.size d);
        if totalContracts <=? reached
        then Ok (AutoFinalize (OrderBook.price64x64 d))
        else traverse clearingPrice totalContracts rest reached (OrderBook.price64x64 d)
  end.

(** The finalize-check: fix [totalContracts] if it is still zero, traverse,
    then either auto-finalize, or record the last visited price and the
    accumulated size and finalize only past the end time. *)
Definition finalize_check (k : Auction.Immutables) (e : Auction.Env)
    (l : Layout) (epoch : Z) : result Layout :=
  let auction := auction_of l epoch in
  totalContracts ← Auction._getTotalContracts k e auction;
  let auction :=
    if AuctionStorage.totalContracts auction <=? 0
    then set_totalContracts totalContracts auction else auction in
  t ← traverse (Auction._clearingPrice64x64 e auction) totalContracts
        (OrderBook.orders (orderbook_of l epoch)) 0 0;
  match t with
  | AutoFinalize price =>
      Ok (set_auction epoch
            (set_status FINALIZED
               (set_totalContractsSold totalContracts
                  (set_lastPrice64x64 price auction))) l)
  | Stopped accumulated lastVisitedPrice =>
      let auction :=
        set_totalContractsSold accumulated
          (set_lastPrice64x64 lastVisitedPrice auction) in
      Ok (set_auction epoch
            (if endTime auction <? Auction.block_timestamp e
             then set_status FINALIZED auction else auction) l)
  end.

(** The sizes the finalize-check accepts at a clearing price: those of the
    orders from the head of the book down to the first one priced below
    the clearing price. *)
Fixpoint accepted_size (clearing : Z) (book : list OrderBook.Data) : Z :=
  match book with
  | [] => 0
  | d :: rest =>
      if OrderBook.price64x64 d <? clearing then 0
      else OrderBook.size d + accepted_size clearing rest
  end.

(** The transactions that add an order to the book of the epoch. *)
Definition adds_order (epoch : Z) (c : Auction.Call) : Prop :=
  match c with
  | Auction.AddLimitOrder ep _ _ | Auction.SwapAndAddLimitOrder _ ep _ _
  | Auction.AddMarketOrder ep _ _ | Auction.SwapAndAddMarketOrder _ ep _ _ => ep = epoch
  | _ => False
  end.

(** The transactions that run the order-processing step of the epoch, and
    so set its contracts sold: an order added or cancelled when the auction
    has started, and [finalizeAuction] on an Initialized auction past its
    start that has not timed out. *)
Definition processes_orders (e : Auction.Env) (l : Layout) (epoch : Z) (c : Auction.Call)
    : Prop :=
  match c with
  | Auction.CancelLimitOrder ep _ =>
      ep = epoch /\ startTime (auction_of l epoch) <= Auction.block_timestamp e
  | Auction.FinalizeAuction ep =>
      ep = epoch /\ status (auction_of l epoch) = INITIALIZED /\
      startTime (auction_of l epoch) < Auction.block_timestamp e
        < endTime (auction_of l epoch) + Auction.HOURS_24
  | _ =>
      adds_order epoch c /\
      startTime (auction_of l epoch) <= Auction.block_timestamp e
  end.

(** The storage once an order of the caller has been spliced into the book
    of the epoch and the epoch added to the epochs of the caller. *)
Definition with_order (e : Auction.Env) (l : Layout) (epoch price64x64 size : Z)
    : Layout :=
  let l := set_epochs (Auction.msg_sender e)
             (snd (EnumerableSet.add (epochs_of l (Auction.msg_sender e)) epoch)) l in
  set_orderbook epoch
    (snd (OrderBook._insert (orderbook_of l epoch) price64x64 size
            (Auction.msg_sender e))) l.

(** The storage once the order [key] has left the book of the epoch and
    the epoch the epochs of [who]. *)
Definition without_order (l : Layout) (epoch key who : Z) : Layout :=
  let l := set_orderbook epoch (snd (OrderBook._remove (orderbook_of l epoch) key)) l in
  set_epochs who (snd (EnumerableSet.remove (epochs_of l who) epoch)) l.

(** *** Steps of the parts of the storage

    What one transaction can do to the record of an auction, to a book and
    to the epochs of a buyer. *)

Inductive auction_step : Auction -> Auction -> Prop :=
| step_initialize a i :
    status a = UNINITIALIZED -> auction_step a (set_parameters i a)
| step_initialize_cancel a :
    status a = UNINITIALIZED -> auction_step a (Auction._cancel a)
| step_prices a maxPrice minPrice :
    status a = INITIALIZED -> 0 < minPrice < maxPrice ->
    auction_step a (set_prices maxPrice minPrice a)
| step_prices_cancel a maxPrice minPrice :
    status a = INITIALIZED ->
    auction_step a (Auction._cancel (set_prices maxPrice minPrice a))
| step_timeout a :
    status a = INITIALIZED \/ status a = FINALIZED ->
    auction_step a (Auction._cancel a)
| step_check a t sold price (finalized : bool) :
    status a = INITIALIZED ->
    0 <= t -> (0 < totalContracts a -> t = totalContracts a) ->
    0 <= sold <= t ->
    auction_step a
      ((if finalized then set_status FINALIZED else fun a => a)
         (set_totalContractsSold sold
            (set_lastPrice64x64 price (set_totalContracts t a))))
| step_premium a p :
    status a = FINALIZED -> totalPremiums a <= 0 ->
    ABDKMath64x64.mulu (lastPrice64x64 a) (totalContractsSold a) = Ok p ->
    auction_step a (set_totalPremiums p a)
| step_processed a t :
    status a = FINALIZED ->
    auction_step a (set_status PROCESSED (set_processedTime t a)).

Inductive book_step (minSize : Z) : OrderBook.Index -> OrderBook.Index -> Prop :=
| book_insert b price size who :
    minSize <= size ->
    book_step minSize b (snd (OrderBook._insert b price size who))
| book_remove b b' :
    OrderBook.lastId b' = OrderBook.lastId b ->
    sublist (OrderBook.orders b') (OrderBook.orders b) ->
    book_step minSize b b'.

Inductive set_step : list Z -> list Z -> Prop :=
| set_same s : set_step s s
| set_add s v : set_step s (snd (EnumerableSet.add s v))
| set_remove s v : set_step s (snd (EnumerableSet.remove s v)).

(** The contracts sold never exceed the contracts offered. *)
Definition sold_bounded (a : Auction) : Prop :=
  0 <= totalContractsSold a <= totalContracts a.

(** Unless the auction is cancelled, its minimal price is at most its
    maximal price (both are zero until the vault sets them). *)
Definition prices_ordered (a : Auction) : Prop :=
  status a = CANCELLED \/ minPrice64x64 a <= maxPrice64x64 a.

(** The premiums are zero until the auction is finalized and then zero or
    the last price times the contracts sold. *)
Definition premiums_settled (a : Auction) : Prop :=
  0 <= totalContractsSold a /\
  0 <= totalPremiums a /\
  (status a = UNINITIALIZED \/ status a = INITIALIZED -> totalPremiums a = 0) /\
  (status a = FINALIZED \/ status a = PROCESSED ->
   totalPremiums a = 0 \/
   ABDKMath64x64.mulu (lastPrice64x64 a) (totalContractsSold a) = Ok (totalPremiums a)).

(** The premiums have been transferred, or never will be. *)
Definition premiums_transferred (a : Auction) : Prop :=
  (status a = FINALIZED /\ 0 < totalPremiums a) \/
  status a = PROCESSED \/ status a = CANCELLED.

(** What one transaction does to the storage: to each record, to each
    book and to the epochs of each buyer, nothing or one step. *)
Definition transaction_step (l l' : Layout) : Prop :=
  minSize l' = minSize l /\
  (forall epoch,
     auction_of l' epoch = auction_of l epoch \/
     auction_step (auction_of l epoch) (auction_of l' epoch)) /\
  (forall epoch,
     orderbook_of l' epoch = orderbook_of l epoch \/
     book_step (minSize l) (orderbook_of l epoch) (orderbook_of l' epoch)) /\
  (forall who, set_step (epochs_of l who) (epochs_of l' who)).

(** The invariant of a storage: books are well formed with orders of at
    least the minimal size, and the epochs of a buyer are a set. *)
Definition layout_wf (l : Layout) : Prop :=
  0 <= minSize l /\
  (forall epoch, OrderBook.wf (orderbook_of l epoch)) /\
  (forall who, NoDup (epochs_of l who)).

End AuctionSpec.

(** ** Vault storage *)

Module VaultStorage.

Record Option : Type := mkOption {
  expiry : Z;
  strike64x64 : Z;
  longTokenId : Z;
  shortTokenId : Z
}.

Definition zeroOption : Option := mkOption 0 0 0 0.

#[global] Instance Option_inhabited : Inhabited Option := populate zeroOption.

(** The argument of the constructor of [VaultDiamond]; the name and the
    symbol of the share token are left out. *)
Record InitProxy : Type := mkInitProxy {
  init_isCall : bool;
  init_delta64x64 : Z;
  init_deltaOffset64x64 : Z;
  init_reserveRate64x64 : Z;
  init_performanceFee64x64 : Z;
  init_withdrawalFee64x64 : Z;
  init_feeRecipient : Z;
  init_keeper : Z;
  init_pool : Z
}.

(** Modelled from the spec: vault/VaultStorage.sol is not among the
    sources.  The fields are those the sources read and write (section 6,
    persisted state layout). *)
Record Layout : Type := mkLayout {
  epoch : Z;
  isCall : bool;
  baseDecimals : Z;
  underlyingDecimals : Z;
  delta64x64 : Z;
  deltaOffset64x64 : Z;
  reserveRate64x64 : Z;
  performanceFee64x64 : Z;
  withdrawalFee64x64 : Z;
  feeRecipient : Z;
  keeper : Z;
  startOffset : Z;
  endOffset : Z;
  startTime : Z;
  auctionProcessed : bool;
  lastTotalAssets : Z;
  totalWithdrawals : Z;
  options : gmap Z Option;
  Auction : Z;
  Queue : Z;
  Pricer : Z
}.

Definition set_epoch (v : Z) (l : Layout) : Layout :=
  mkLayout v (isCall l) (baseDecimals l) (underlyingDecimals l) (delta64x64 l)
    (deltaOffset64x64 l) (reserveRate64x64 l) (performanceFee64x64 l)
    (withdrawalFee64x64 l) (feeRecipient l) (keeper l) (startOffset l)
    (endOffset l) (startTime l) (auctionProcessed l) (lastTotalAssets l)
    (totalWithdrawals l) (options l) (Auction l) (Queue l) (Pricer l).

Definition set_delta64x64 (v : Z) (l : Layout) : Layout :=
  mkLayout (epoch l) (isCall l) (baseDecimals l) (underlyingDecimals l) v
    (deltaOffset64x64 l) (reserveRate64x64 l) (performanceFee64x64 l)
    (withdrawalFee64x64 l) (feeRecipient l) (keeper l) (startOffset l)
    (endOffset l) (startTime l) (auctionProcessed l) (lastTotalAssets l)
    (totalWithdrawals l) (options l) (Auction l) (Queue l) (Pricer l).

Definition set_deltaOffset64x64 (v : Z) (l : Layout) : Layout :=
  mkLayout (epoch l) (isCall l) (baseDecimals l) (underlyingDecimals l)
    (delta64x64 l) v (reserveRate64x64 l) (performanceFee64x64 l)
    (withdrawalFee64x64 l) (feeRecipient l) (keeper l) (startOffset l)
    (endOffset l) (startTime l) (auctionProcessed l) (lastTotalAssets l)
    (totalWithdrawals l) (options l) (Auction l) (Queue l) (Pricer l).

Definition set_performanceFee64x64 (v : Z) (l : Layout) : Layout :=
  mkLayout (epoch l) (isCall l) (baseDecimals l) (underlyingDecimals l)
    (delta64x64 l) (deltaOffset64x64 l) (reserveRate64x64 l) v
    (withdrawalFee64x64 l) (feeRecipient l) (keeper l) (startOffset l)
    (endOffset l) (startTime l) (auctionProcessed l) (lastTotalAssets l)
    (totalWithdrawals l) (options l) (Auction l) (Queue l) (Pricer l).

Definition set_withdrawalFee64x64 (v : Z) (l : Layout) : Layout :=
  mkLayout (epoch l) (isCall l) (baseDecimals l) (underlyingDecimals l)
    (delta64x64 l) (deltaOffset64x64 l) (reserveRate64x64 l)
    (performanceFee64x64 l) v (feeRecipient l) (keeper l) (startOffset l)
    (endOffset l) (startTime l) (auctionProcessed l) (lastTotalAssets l)
    (totalWithdrawals l) (options l) (Auction l) (Queue l) (Pricer l).

Definition set_feeRecipient (v : Z) (l : Layout) : Layout :=
  mkLayout (epoch l) (isCall l) (baseDecimals l) (underlyingDecimals l)
    (delta64x64 l) (deltaOffset64x64 l) (reserveRate64x64 l)
    (performanceFee64x64 l) (withdrawalFee64x64 l) v (keeper l) (startOffset
    l) (endOffset l) (startTime l) (auctionProcessed l) (lastTotalAssets l)
    (totalWithdrawals l) (options l) (Auction l) (Queue l) (Pricer l).

Definition set_keeper (v : Z) (l : Layout) : Layout :=
  mkLayout (epoch l) (isCall l) (baseDecimals l) (underlyingDecimals l)
    (delta64x64 l) (deltaOffset64x64 l) (reserveRate64x64 l)
    (performanceFee64x64 l) (withdrawalFee64x64 l) (feeRecipient l) v
    (startOffset l) (endOffset l) (startTime l) (auctionProcessed l)
    (lastTotalAssets l) (totalWithdrawals l) (options l) (Auction l) (Queue l)
    (Pricer l).

Definition set_startTime (v : Z) (l : Layout) : Layout :=
  mkLayout (epoch l) (isCall l) (baseDecimals l) (underlyingDecimals l)
    (delta64x64 l) (deltaOffset64x64 l) (reserveRate64x64 l)
    (performanceFee64x64 l) (withdrawalFee64x64 l) (feeRecipient l) (keeper l)
    (startOffset l) (endOffset l) v (auctionProcessed l) (lastTotalAssets l)
    (totalWithdrawals l) (options l) (Auction l) (Queue l) (Pricer l).

Definition set_auctionProcessed (v : bool) (l : Layout) : Layout :=
  mkLayout (epoch l) (isCall l) (baseDecimals l) (underlyingDecimals l)
    (delta64x64 l) (deltaOffset64x64 l) (reserveRate64x64 l)
    (performanceFee64x64 l) (withdrawalFee64x64 l) (feeRecipient l) (keeper l)
    (startOffset l) (endOffset l) (startTime l) v (lastTotalAssets l)
    (totalWithdrawals l) (options l) (Auction l) (Queue l) (Pricer l).

Definition set_lastTotalAssets (v : Z) (l : Layout) : Layout :=
  mkLayout (epoch l) (isCall l) (baseDecimals l) (underlyingDecimals l)
    (delta64x64 l) (deltaOffset64x64 l) (reserveRate64x64 l)
    (performanceFee64x64 l) (withdrawalFee64x64 l) (feeRecipient l) (keeper l)
    (startOffset l) (endOffset l) (startTime l) (auctionProcessed l) v
    (totalWithdrawals l) (options l) (Auction l) (Queue l) (Pricer l).

Definition set_totalWithdrawals (v : Z) (l : Layout) : Layout :=
  mkLayout (epoch l) (isCall l) (baseDecimals l) (underlyingDecimals l)
    (delta64x64 l) (deltaOffset64x64 l) (reserveRate64x64 l)
    (performanceFee64x64 l) (withdrawalFee64x64 l) (feeRecipient l) (keeper l)
    (startOffset l) (endOffset l) (startTime l) (auctionProcessed l)
    (lastTotalAssets l) v (options l) (Auction l) (Queue l) (Pricer l).

Definition set_options (v : gmap Z Option) (l : Layout) : Layout :=
  mkLayout (epoch l) (isCall l) (baseDecimals l) (underlyingDecimals l)
    (delta64x64 l) (deltaOffset64x64 l) (reserveRate64x64 l)
    (performanceFee64x64 l) (withdrawalFee64x64 l) (feeRecipient l) (keeper l)
    (startOffset l) (endOffset l) (startTime l) (auctionProcessed l)
    (lastTotalAssets l) (totalWithdrawals l) v (Auction l) (Queue l) (Pricer
    l).

Definition set_Auction (v : Z) (l : Layout) : Layout :=
  mkLayout (epoch l) (isCall l) (baseDecimals l) (underlyingDecimals l)
    (delta64x64 l) (deltaOffset64x64 l) (reserveRate64x64 l)
    (performanceFee64x64 l) (withdrawalFee64x64 l) (feeRecipient l) (keeper l)
    (startOffset l) (endOffset l) (startTime l) (auctionProcessed l)
    (lastTotalAssets l) (totalWithdrawals l) (options l) v (Queue l) (Pricer
    l).

Definition set_Queue (v : Z) (l : Layout) : Layout :=
  mkLayout (epoch l) (isCall l) (baseDecimals l) (underlyingDecimals l)
    (delta64x64 l) (deltaOffset64x64 l) (reserveRate64x64 l)
    (performanceFee64x64 l) (withdrawalFee64x64 l) (feeRecipient l) (keeper l)
    (startOffset l) (endOffset l) (startTime l) (auctionProcessed l)
    (lastTotalAssets l) (totalWithdrawals l) (options l) (Auction l) v (Pricer
    l).

Definition set_Pricer (v : Z) (l : Layout) : Layout :=
  mkLayout (epoch l) (isCall l) (baseDecimals l) (underlyingDecimals l)
    (delta64x64 l) (deltaOffset64x64 l) (reserveRate64x64 l)
    (performanceFee64x64 l) (withdrawalFee64x64 l) (feeRecipient l) (keeper l)
    (startOffset l) (endOffset l) (startTime l) (auctionProcessed l)
    (lastTotalAssets l) (totalWithdrawals l) (options l) (Auction l) (Queue l)
    v.

Definition set_offsets (s e : Z) (l : Layout) : Layout :=
  mkLayout (epoch l) (isCall l) (baseDecimals l) (underlyingDecimals l)
    (delta64x64 l) (deltaOffset64x64 l) (reserveRate64x64 l)
    (performanceFee64x64 l) (withdrawalFee64x64 l) (feeRecipient l) (keeper l)
    s e (startTime l) (auctionProcessed l) (lastTotalAssets l)
    (totalWithdrawals l) (options l) (Auction l) (Queue l) (Pricer l).

Definition option_of (l : Layout) (epoch : Z) : Option := options l !!! epoch.

Definition _getEpoch (l : Layout) : Z := epoch l.
Definition _getOption (l : Layout) (epoch : Z) : Option := option_of l epoch.

End VaultStorage.

(** ** The vault ([VaultDiamond], [VaultInternal], [VaultAdmin]) *)

Module Vault.

Import VaultStorage.

(** The immutables fixed by the constructor, the address of the vault and
    its owner (kept by the Ownable storage of the diamond). *)
Record Immutables : Type := mkImmutables {
  ERC20 : Z;
  Pool : Z;
  this : Z;
  owner : Z
}.

(** What a call sees of the transaction and of the other contracts.
    [ERC20_balanceOf] is the collateral the vault holds and [Pool_balanceOf]
    its pool tokens, per token id, when the call starts;
    [Pool_balanceOf_Auction] are the pool tokens of the auction contract
    when the vault asks it to process the auction.  The share ledger of the
    ERC4626 base and the pricer answer through the remaining fields. *)
Record Env : Type := mkEnv {
  block_timestamp : Z;
  msg_sender : Z;
  ERC20_balanceOf : Z;
  Pool_balanceOf : Z -> Z;
  Pool_balanceOf_Auction : Z -> Z;
  Pricer_getDeltaStrikePrice64x64 : bool -> Z -> Z -> Z;
  Pricer_snapToGrid64x64 : bool -> Z -> Z;
  shares_balanceOf : Z -> Z;
  shares_allowance : Z -> Z -> Z;
  ERC4626_maxWithdraw : Z -> Z;
  ERC4626_maxRedeem : Z -> Z;
  ERC4626_previewWithdraw : Z -> Z;
  ERC4626_previewRedeem : Z -> Z
}.

(** The vault after it has received [amount] of collateral within the
    current call. *)
Definition credited (amount : Z) (e : Env) : Env :=
  mkEnv (block_timestamp e) (msg_sender e) (ERC20_balanceOf e + amount)
    (Pool_balanceOf e) (Pool_balanceOf_Auction e)
    (Pricer_getDeltaStrikePrice64x64 e) (Pricer_snapToGrid64x64 e)
    (shares_balanceOf e) (shares_allowance e)
    (ERC4626_maxWithdraw e) (ERC4626_maxRedeem e)
    (ERC4626_previewWithdraw e) (ERC4626_previewRedeem e).

Inductive Effect : Type :=
| Queue_redeemMax (receiver owner : Z)
| shares_approve (owner spender amount : Z)
| shares_burn (owner amount : Z)
| Pool_withdraw (amount : Z) (isCall : bool)
| ERC20_safeTransfer (to amount : Z)
| ERC20_approve (spender amount : Z)
| Pool_safeTransferFrom (from to tokenId amount : Z)
| Pool_writeFrom (from to expiry strike64x64 size : Z) (isCall : bool)
| Pool_setDivestmentTimestamp (timestamp : Z) (isCall : bool)
| by_Auction (fx : Auction.Effect).

(** Premia's ERC1155 token types. *)
Inductive TokenType : Type :=
| UNDERLYING_FREE_LIQ | BASE_FREE_LIQ | UNDERLYING_RESERVED_LIQ | BASE_RESERVED_LIQ
| LONG_CALL | SHORT_CALL | LONG_PUT | SHORT_PUT.

Definition tokenType_value (t : TokenType) : Z :=
  match t with
  | UNDERLYING_FREE_LIQ => 0 | BASE_FREE_LIQ => 1
  | UNDERLYING_RESERVED_LIQ => 2 | BASE_RESERVED_LIQ => 3
  | LONG_CALL => 4 | SHORT_CALL => 5 | LONG_PUT => 6 | SHORT_PUT => 7
  end.

Definition HOURS_24 : Z := 24 * 3600.

(** The balances of the environment are unsigned. *)
Definition typed (e : Env) : Prop :=
  0 <= ERC20_balanceOf e /\ forall tokenId, 0 <= Pool_balanceOf e tokenId.

(** The message of the withdrawal lock. *)
Definition AuctionNotProcessed : string := "auction has not been processed".

(** The initial storage written by the constructor of [VaultDiamond]; the
    two decimals are those of the tokens of the pool. *)
Definition constructor (initProxy : InitProxy) (baseDecimals underlyingDecimals : Z)
    : Layout :=
  VaultStorage.mkLayout 0 (init_isCall initProxy) baseDecimals underlyingDecimals
    (init_delta64x64 initProxy) (init_deltaOffset64x64 initProxy)
    (init_reserveRate64x64 initProxy) (init_performanceFee64x64 initProxy)
    (init_withdrawalFee64x64 initProxy) (init_feeRecipient initProxy)
    (init_keeper initProxy) (2 * 3600) (4 * 3600) 0 false 0 0 ∅ 0 0 0.

Section Views.

Variable k : Immutables.
Variable e : Env.

(** *** Access control *)

Definition onlyOwner : result unit :=
  require (msg_sender e =? owner k) "Ownable: sender must be owner".

Definition onlyKeeper (l : Layout) : result unit :=
  require (msg_sender e =? keeper l) "!keeper".

Definition onlyQueue (l : Layout) : result unit :=
  require (msg_sender e =? Queue l) "!queue".

(** The modifier that guards the withdrawals. *)
Definition withdrawalsLocked (l : Layout) : result unit :=
  if startTime l <=? block_timestamp e
  then require (auctionProcessed l) AuctionNotProcessed
  else Ok tt.

(** *** Helpers *)

Definition _lastEpoch (l : Layout) : Z :=
  if 0 <? epoch l then epoch l - 1 else 0.

Definition _lastOption (l : Layout) : Option := option_of l (_lastEpoch l).

Definition _formatTokenId (tokenType : TokenType) (maturity strike64x64 : Z) : result Z :=
  a ← uadd (Z.shiftl (tokenType_value tokenType) 248) (Z.shiftl maturity 128);
  uadd a (strike64x64 mod 2 ^ 256).

(** *** Views *)

Definition _totalReserves (l : Layout) : result Z :=
  ABDKMath64x64.mulu (reserveRate64x64 l) (ERC20_balanceOf e).

Definition _totalCollateral (l : Layout) : result Z :=
  reserves ← _totalReserves l;
  usub (ERC20_balanceOf e) reserves.

Definition _totalShortAsContracts (l : Layout) : Z :=
  let shortTokenId := shortTokenId (option_of l (_lastEpoch l)) in
  Pool_balanceOf e shortTokenId.

Definition _totalShortAsCollateral (l : Layout) : result Z :=
  let lastOption := _lastOption l in
  let totalShortContracts := _totalShortAsContracts l in
  OptionMath.fromContractsToCollateral totalShortContracts
    (isCall l) (underlyingDecimals l) (baseDecimals l) (strike64x64 lastOption).

Definition _totalAssets (l : Layout) : result Z :=
  collateral ← _totalCollateral l;
  short ← _totalShortAsCollateral l;
  uadd collateral short.

(** *** Withdraw helpers *)

Definition _calculateDistributionAmount (assetAmount collateralAmount totalAssets : Z)
    : result Z :=
  assetRatio64x64 ←
    (if 0 <? collateralAmount
     then ABDKMath64x64.divu collateralAmount totalAssets
     else Ok 0);
  if 0 <? assetRatio64x64
  then ABDKMath64x64.mulu assetRatio64x64 assetAmount
  else Ok 0.

Definition _calculateDistributions (l : Layout) (assetAmount : Z) : result (Z * Z) :=
  totalAssets ← _totalAssets l;
  totalCollateral ← _totalCollateral l;
  collateralAmount ← _calculateDistributionAmount assetAmount totalCollateral totalAssets;
  let lastOption := _lastOption l in
  totalShortAsCollateral ← _totalShortAsCollateral l;
  shortAsCollateral ←
    _calculateDistributionAmount assetAmount totalShortAsCollateral totalAssets;
  shortContracts ←
    OptionMath.fromContractsToCollateral_4 shortAsCollateral
      (isCall l) (baseDecimals l) (strike64x64 lastOption);
  Ok (collateralAmount, shortContracts).

Definition _transferCollateralAndShortAssets
    (collateralAmount shortContracts shortTokenId receiver : Z) : list Effect :=
  (if 0 <? collateralAmount then [ERC20_safeTransfer receiver collateralAmount] else [])
  ++ (if 0 <? shortContracts
      then [Pool_safeTransferFrom (this k) receiver shortTokenId shortContracts]
      else []).

Definition _collectWithdrawalFee (l : Layout) (collateralAmount shortContracts : Z)
    : result (Z * Z * list Effect) :=
  feeInCollateral ← ABDKMath64x64.mulu (withdrawalFee64x64 l) collateralAmount;
  feesInShortContracts ← ABDKMath64x64.mulu (withdrawalFee64x64 l) shortContracts;
  let lastOption := _lastOption l in
  let fx := _transferCollateralAndShortAssets feeInCollateral feesInShortContracts
              (shortTokenId lastOption) (feeRecipient l) in
  collateralAmountSansFee ← usub collateralAmount feeInCollateral;
  shortContractsSansFee ← usub shortContracts feesInShortContracts;
  Ok (collateralAmountSansFee, shortContractsSansFee, fx).

End Views.

Section EntryPoints.

Variable k : Immutables.
Variable e : Env.

Definition reservedLiquidityTokenId (l : Layout) : Z :=
  if isCall l
  then Z.shiftl (tokenType_value UNDERLYING_RESERVED_LIQ) 248
  else Z.shiftl (tokenType_value BASE_RESERVED_LIQ) 248.

(** Returns the reserved liquidity the pool hands back to the vault. *)
Definition _withdrawReservedLiquidity (l : Layout) : Z * list Effect :=
  let reservedLiquidity := Pool_balanceOf e (reservedLiquidityTokenId l) in
  (reservedLiquidity,
   if 0 <? reservedLiquidity then [Pool_withdraw reservedLiquidity (isCall l)] else []).

(** The private [_withdraw] with five arguments.  The views that follow
    [_withdrawReservedLiquidity] see the collateral the pool has sent. *)
Definition _withdraw5 (l : Layout) (caller receiver owner assetAmount shareAmount : Z)
    : result (Layout * list Effect) :=
  let fx0 := [Queue_redeemMax receiver owner] in
  _ ← require (0 <? epoch l) "cannot withdraw on epoch 0";
  fx1 ←
    (if negb (caller =? owner) then
       let allowance := shares_allowance e owner caller in
       _ ← require (shareAmount <=? allowance) "ERC4626: share amount exceeds allowance";
       Ok [shares_approve owner caller (allowance - shareAmount)]
     else Ok []);
  _ ← require (shareAmount <=? shares_balanceOf e owner)
        "ERC20: burn amount exceeds balance";
  let fx2 := [shares_burn owner shareAmount] in
  totalWithdrawals ← uadd (totalWithdrawals l) assetAmount;
  let l := set_totalWithdrawals totalWithdrawals l in
  let '(reservedLiquidity, fx3) := _withdrawReservedLiquidity l in
  let e' := credited reservedLiquidity e in
  '(collateralAmount, shortContracts) ← _calculateDistributions e' l assetAmount;
  '(collateralAmountSansFee, shortContractsSansFee, fx4) ←
    _collectWithdrawalFee k l collateralAmount shortContracts;
  let fx5 := _transferCollateralAndShortAssets k collateralAmountSansFee
               shortContractsSansFee (shortTokenId (_lastOption l)) receiver in
  Ok (l, fx0 ++ fx1 ++ fx2 ++ fx3 ++ fx4 ++ fx5).

Definition _withdraw (l : Layout) (assetAmount receiver owner : Z)
    : result (Z * Layout * list Effect) :=
  _ ← require (assetAmount <=? ERC4626_maxWithdraw e owner)
        "ERC4626: maximum amount exceeded";
  let shareAmount := ERC4626_previewWithdraw e assetAmount in
  '(l, fx) ← _withdraw5 l (msg_sender e) receiver owner assetAmount shareAmount;
  Ok (shareAmount, l, fx).

Definition _redeem (l : Layout) (shareAmount receiver owner : Z)
    : result (Z * Layout * list Effect) :=
  _ ← require (shareAmount <=? ERC4626_maxRedeem e owner)
        "ERC4626: maximum amount exceeded";
  let assetAmount := ERC4626_previewRedeem e shareAmount in
  '(l, fx) ← _withdraw5 l (msg_sender e) receiver owner assetAmount shareAmount;
  Ok (assetAmount, l, fx).

(** Modelled from the spec: vault/VaultBase.sol is not among the sources.
    Section 4.7.1: [withdraw] and [redeem] run under the withdrawal lock,
    that is the modifier [withdrawalsLocked], and then the internal
    [_withdraw] and [_redeem] of [VaultInternal]. *)
Definition withdraw (l : Layout) (assetAmount receiver owner : Z)
    : result (Z * Layout * list Effect) :=
  _ ← withdrawalsLocked e l;
  _withdraw l assetAmount receiver owner.

(** Modelled from the spec: see [withdraw]. *)
Definition redeem (l : Layout) (shareAmount receiver owner : Z)
    : result (Z * Layout * list Effect) :=
  _ ← withdrawalsLocked e l;
  _redeem l shareAmount receiver owner.

(** *** Admin *)

Definition setAuction (l : Layout) (newAuction : Z) : result Layout :=
  _ ← onlyOwner k e;
  _ ← require (negb (newAuction =? 0)) "address not provided";
  _ ← require (negb (newAuction =? Auction l)) "new address equals old";
  Ok (set_Auction newAuction l).

Definition setAuctionWindowOffsets (l : Layout) (newStartOffset newEndOffset : Z)
    : result Layout :=
  _ ← onlyOwner k e;
  _ ← require (newStartOffset <? newEndOffset) "start offset > end offset";
  Ok (set_offsets newStartOffset newEndOffset l).

Definition setDelta64x64 (l : Layout) (newDelta64x64 : Z) : result Layout :=
  _ ← onlyOwner k e;
  _ ← require (0 <? newDelta64x64) "delta <= 0";
  _ ← require (newDelta64x64 <? ONE_64x64) "delta > 1";
  Ok (set_delta64x64 newDelta64x64 l).

Definition setDeltaOffset64x64 (l : Layout) (newDeltaOffset64x64 : Z) : result Layout :=
  _ ← onlyOwner k e;
  _ ← require (0 <? newDeltaOffset64x64) "delta <= 0";
  _ ← require (newDeltaOffset64x64 <? ONE_64x64) "delta > 1";
  Ok (set_deltaOffset64x64 newDeltaOffset64x64 l).

Definition setFeeRecipient (l : Layout) (newFeeRecipient : Z) : result Layout :=
  _ ← onlyOwner k e;
  _ ← require (negb (newFeeRecipient =? 0)) "address not provided";
  _ ← require (negb (newFeeRecipient =? feeRecipient l)) "new address equals old";
  Ok (set_feeRecipient newFeeRecipient l).

Definition setKeeper (l : Layout) (newKeeper : Z) : result Layout :=
  _ ← onlyOwner k e;
  _ ← require (negb (newKeeper =? 0)) "address not provided";
  _ ← require (negb (newKeeper =? keeper l)) "new address equals old";
  Ok (set_keeper newKeeper l).

Definition setPricer (l : Layout) (newPricer : Z) : result Layout :=
  _ ← onlyOwner k e;
  _ ← require (negb (newPricer =? 0)) "address not provided";
  _ ← require (negb (newPricer =? Pricer l)) "new address equals old";
  Ok (set_Pricer newPricer l).

Definition setQueue (l : Layout) (newQueue : Z) : result Layout :=
  _ ← onlyOwner k e;
  _ ← require (negb (newQueue =? 0)) "address not provided";
  _ ← require (negb (newQueue =? Queue l)) "new address equals old";
  Ok (set_Queue newQueue l).

Definition setPerformanceFee64x64 (l : Layout) (newPerformanceFee64x64 : Z)
    : result Layout :=
  _ ← onlyOwner k e;
  _ ← require (newPerformanceFee64x64 <? ONE_64x64) "fee > 1";
  Ok (set_performanceFee64x64 newPerformanceFee64x64 l).

Definition setWithdrawalFee64x64 (l : Layout) (newWithdrawalFee64x64 : Z)
    : result Layout :=
  _ ← onlyOwner k e;
  _ ← require (newWithdrawalFee64x64 <? ONE_64x64) "fee > 1";
  Ok (set_withdrawalFee64x64 newWithdrawalFee64x64 l).

(** *** Initialize auction *)

Definition _setOptionParameters (l : Layout) : result (Option * Layout) :=
  nextFriday ← TimeCalendar._getNextFriday (block_timestamp e);
  let expiry := nextFriday mod 2 ^ 64 in
  let strike64x64 :=
    Pricer_getDeltaStrikePrice64x64 e (isCall l) expiry (delta64x64 l) in
  let strike64x64 := Pricer_snapToGrid64x64 e (isCall l) strike64x64 in
  let longTokenType := if isCall l then LONG_CALL else LONG_PUT in
  longTokenId ← _formatTokenId longTokenType expiry strike64x64;
  let shortTokenType := if isCall l then SHORT_CALL else SHORT_PUT in
  shortTokenId ← _formatTokenId shortTokenType expiry strike64x64;
  let option := mkOption expiry strike64x64 longTokenId shortTokenId in
  Ok (option, set_options (<[epoch l := option]> (options l)) l).

(** The environment of a call the vault makes to the auction within the
    same block.  The entry points it calls never ask the vault for its
    collateral, the pool for a price or the exchange helper for a swap. *)
Definition auctionEnv : Auction.Env :=
  Auction.mkEnv (block_timestamp e) (this k) 0 0 (Pool_balanceOf_Auction e)
    (fun _ => 0) 0.

Definition initializeAuction (ka : Auction.Immutables)
    (l : Layout) (la : AuctionStorage.Layout)
    : result (Layout * AuctionStorage.Layout) :=
  _ ← onlyKeeper e l;
  '(option, l) ← _setOptionParameters l;
  startTimestamp ← TimeCalendar._getFriday (block_timestamp e);
  startTime ← uadd startTimestamp (startOffset l);
  endTime ← uadd startTimestamp (endOffset l);
  let l := set_startTime startTime l in
  let l := set_auctionProcessed false l in
  la ← Auction.initialize ka auctionEnv la
         (AuctionStorage.mkInitAuction (epoch l) (expiry option) (strike64x64 option)
            (longTokenId option) startTime endTime);
  Ok (l, la).

(** *** Process auction *)

Definition processAuction (ka : Auction.Immutables)
    (l : Layout) (la : AuctionStorage.Layout)
    : result (Layout * AuctionStorage.Layout * list Effect) :=
  _ ← onlyKeeper e l;
  lastTotalAssets ← _totalAssets e l;
  let l := set_lastTotalAssets lastTotalAssets l in
  let lastEpoch := _lastEpoch l in
  let lastOption := _lastOption l in
  let cancelled := AuctionStorage._isCancelled la lastEpoch in
  let finalized := AuctionStorage._isFinalized la lastEpoch in
  _ ← require ((negb finalized && cancelled) || (finalized && negb cancelled))
        "auction is not finalized nor cancelled";
  '(la, fx) ←
    (if finalized && negb cancelled then
       '(totalPremiums, la, fxa) ← Auction.transferPremium ka auctionEnv la lastEpoch;
       let totalContractsSold := Auction.getTotalContractsSold la lastEpoch in
       fxp ←
         (if 0 <? totalContractsSold then
            totalCollateralUsed ←
              OptionMath.fromContractsToCollateral totalContractsSold
                (isCall l) (underlyingDecimals l) (baseDecimals l)
                (strike64x64 lastOption);
            reserves ← _totalReserves (credited totalPremiums e) l;
            allowance ← uadd totalCollateralUsed reserves;
            divestment ← uadd (block_timestamp e) HOURS_24;
            Ok [ERC20_approve (Pool k) allowance;
                Pool_writeFrom (this k) (Auction l) (expiry lastOption)
                  (strike64x64 lastOption) totalContractsSold (isCall l);
                Pool_setDivestmentTimestamp (divestment mod 2 ^ 64) (isCall l)]
          else Ok []);
       la ← Auction.processAuction ka auctionEnv la lastEpoch;
       Ok (la, map by_Auction fxa ++ fxp)
     else Ok (la, []));
  let l := set_auctionProcessed true l in
  Ok (l, la, fx).

End EntryPoints.

End Vault.

(** ** The pricer ([PricerInternal]) *)

Module Pricer.

Definition DAYS_365 : Z := 365 * 86400.

(** [expiry - block.timestamp] is a checked subtraction. *)
Definition _getTimeToMaturity64x64 (block_timestamp expiry : Z) : result Z :=
  remaining ← usub expiry block_timestamp;
  ABDKMath64x64.divu remaining DAYS_365.

End Pricer.

(** ** The start of an epoch ([VaultAdmin.initializeEpoch]) *)

Module VaultEpoch.

Import VaultStorage Vault.

(** The answers of the pricer to the further calls of [_setAuctionPrices]:
    the spot price, the time to maturity of an expiry, and the
    Black-Scholes price for a spot price, a strike, a time to maturity and
    a kind of option. *)
Record Quotes : Type := mkQuotes {
  Pricer_latestAnswer64x64 : Z;
  Pricer_getTimeToMaturity64x64 : Z -> Z;
  Pricer_getBlackScholesPrice64x64 : Z -> Z -> Z -> bool -> Z
}.

(** The calls of [initializeEpoch] that move tokens or shares: those the
    vault makes while it collects the performance fee, and the call that
    has the queue deposit what it holds.  The calls that follow them, to
    the pricer and to [Auction.setAuctionPrices], are not among these
    effects: the pricer answers through [Quotes], and the storage of the
    auction is passed along. *)
Inductive Effect : Type :=
| by_Vault (fx : Vault.Effect)
| Queue_processDeposits.

Section WithImmutables.

Variable k : Immutables.
Variable e : Env.

(** The views that follow [_withdrawReservedLiquidity] see the collateral
    the pool has sent. *)
Definition _collectPerformanceFee (l : Layout) : result (Layout * list Vault.Effect) :=
  let '(reservedLiquidity, fx1) := _withdrawReservedLiquidity e l in
  let e' := credited reservedLiquidity e in
  totalAssets ← _totalAssets e' l;
  adjustedTotalAssets ← uadd totalAssets (totalWithdrawals l);
  fx2 ←
    (if lastTotalAssets l <? adjustedTotalAssets then
       netIncome ← usub adjustedTotalAssets (lastTotalAssets l);
       feeInCollateral ← ABDKMath64x64.mulu (performanceFee64x64 l) netIncome;
       Ok [ERC20_safeTransfer (feeRecipient l) feeInCollateral]
     else Ok []);
  Ok (set_totalWithdrawals 0 l, fx1 ++ fx2).

Definition _setAuctionPrices (q : Quotes) (ka : Auction.Immutables)
    (l : Layout) (la : AuctionStorage.Layout) : result AuctionStorage.Layout :=
  let lastOption := _lastOption l in
  _ ← require (0 <? strike64x64 lastOption) "delta strike unset";
  offsetDelta64x64 ← ABDKMath64x64.sub (delta64x64 l) (deltaOffset64x64 l);
  let offsetStrike64x64 :=
    Pricer_getDeltaStrikePrice64x64 e (isCall l) (expiry lastOption) offsetDelta64x64 in
  let spot64x64 := Pricer_latestAnswer64x64 q in
  let timeToMaturity64x64 := Pricer_getTimeToMaturity64x64 q (expiry lastOption) in
  let maxPrice64x64 :=
    Pricer_getBlackScholesPrice64x64 q spot64x64 (strike64x64 lastOption)
      timeToMaturity64x64 (isCall l) in
  let minPrice64x64 :=
    Pricer_getBlackScholesPrice64x64 q spot64x64 offsetStrike64x64
      timeToMaturity64x64 (isCall l) in
  '(maxPrice64x64, minPrice64x64) ←
    (if isCall l then
       maxPrice64x64 ← ABDKMath64x64.div maxPrice64x64 spot64x64;
       minPrice64x64 ← ABDKMath64x64.div minPrice64x64 spot64x64;
       Ok (maxPrice64x64, minPrice64x64)
     else Ok (maxPrice64x64, minPrice64x64));
  Auction.setAuctionPrices ka (auctionEnv k e) la (_lastEpoch l)
    maxPrice64x64 minPrice64x64.

(** The epoch is a [uint64]; its increment is checked.  The deposits of
    the queue mint shares of the vault and leave the fields of its storage
    as they are; the prices of the auction are set after them. *)
Definition initializeEpoch (q : Quotes) (ka : Auction.Immutables)
    (l : Layout) (la : AuctionStorage.Layout)
    : result (Layout * AuctionStorage.Layout * list Effect) :=
  _ ← onlyKeeper e l;
  '(l, fx) ← (if 0 <? epoch l then _collectPerformanceFee l else Ok (l, []));
  epoch' ← (if epoch l + 1 <? 2 ^ 64 then Ok (epoch l + 1) else Revert panic_overflow);
  let l := set_epoch epoch' l in
  la ← _setAuctionPrices q ka l la;
  Ok (l, la, map by_Vault fx ++ [Queue_processDeposits]).

End WithImmutables.

End VaultEpoch.

(** * Scenarios

    Concrete deployments and calls, used to run the contracts. *)

Module Scenario.

(** A call vault owned by account 1, kept by account 2, with no fees. *)
Definition vaultK : Vault.Immutables := Vault.mkImmutables 500 600 900 1.

Definition vaultInit : VaultStorage.InitProxy :=
  VaultStorage.mkInitProxy true (2 ^ 62) (2 ^ 60) 0 0 0 7 2 600.

Definition vault0 : VaultStorage.Layout := Vault.constructor vaultInit 18 18.

(** A call at time [t] from [who] to a vault that holds [balance]
    collateral and [short] short contracts of every id. *)
Definition vaultEnv (t who balance short : Z) : Vault.Env :=
  Vault.mkEnv t who balance (fun _ => short) (fun _ => 0)
    (fun _ _ _ => 2000 * 2 ^ 64) (fun _ x => x)
    (fun _ => 10 ^ 30) (fun _ _ => 0) (fun _ => 10 ^ 30) (fun _ => 10 ^ 30)
    (fun a => a) (fun s => s).

(** A call auction of a vault (account 900) that holds 1000 units of
    collateral, hence offers 1000 contracts; the auction contract is account
    800 and holds the long tokens once they are written. *)
Definition auctionK : Auction.Immutables :=
  Auction.mkImmutables true 18 18 500 900 500 800 1.

Definition auctionEnv (t who : Z) : Auction.Env :=
  Auction.mkEnv t who 0 1000 (fun _ => 1000) (fun _ => 0) 0.

Definition fixed (n : Z) : Z := n * 2 ^ 64.

(** Runs transactions one after the other. *)
Fixpoint run (calls : list (Auction.Env * Auction.Call)) (l : AuctionStorage.Layout)
    : result AuctionStorage.Layout :=
  match calls with
  | [] => Ok l
  | (e, c) :: rest => '(l, _) ← Auction.exec auctionK e c l; run rest l
  end.

Definition state_of (r : result AuctionStorage.Layout) : AuctionStorage.Layout :=
  match r with
  | Ok l => l
  | Revert _ => Auction.initial 0 0
  end.

(** Epoch 0: the auction runs from 1000 to 2000 and the option expires at
    5000; prices go from 100 down to 10. *)
Definition initializing : list (Auction.Env * Auction.Call) :=
  [ (auctionEnv 10 900,
     Auction.Initialize
       (AuctionStorage.mkInitAuction 0 5000 (fixed 2000) 77 1000 2000)) ].

Definition pricing : list (Auction.Env * Auction.Call) :=
  [ (auctionEnv 20 900, Auction.SetAuctionPrices 0 (fixed 100) (fixed 10)) ].

Definition initialized : AuctionStorage.Layout :=
  state_of (run initializing (Auction.initial 1 0)).

Definition opened : AuctionStorage.Layout := state_of (run pricing initialized).

(** Buyer 1 bids for 5 contracts at the start of the auction. *)
Definition bidding_once : list (Auction.Env * Auction.Call) :=
  [ (auctionEnv 1000 1, Auction.AddLimitOrder 0 (fixed 100) 5) ].

Definition one_bid : AuctionStorage.Layout := state_of (run bidding_once opened).

(** Buyer 1 places two limit orders before the auction starts. *)
Definition bidding_twice : list (Auction.Env * Auction.Call) :=
  [ (auctionEnv 30 1, Auction.AddLimitOrder 0 (fixed 100) 5);
    (auctionEnv 40 1, Auction.AddLimitOrder 0 (fixed 90) 7) ].

Definition two_bids : AuctionStorage.Layout := state_of (run bidding_twice opened).

(** Three buyers: a limit order at the highest price for 900 contracts, a
    limit order at the lowest price for 1000, and a market order for 200 at
    the start of the auction, which fills it. *)
Definition filling : list (Auction.Env * Auction.Call) :=
  [ (auctionEnv 30 1, Auction.AddLimitOrder 0 (fixed 100) 900);
    (auctionEnv 40 2, Auction.AddLimitOrder 0 (fixed 10) 1000);
    (auctionEnv 1000 3, Auction.AddMarketOrder 0 200 (10 ^ 30)) ].

Definition filled : AuctionStorage.Layout := state_of (run filling opened).

(** The vault takes the premiums and has the auction processed. *)
Definition processing : list (Auction.Env * Auction.Call) :=
  [ (auctionEnv 3000 900, Auction.TransferPremium 0);
    (auctionEnv 3000 900, Auction.ProcessAuction 0) ].

Definition processed : AuctionStorage.Layout := state_of (run processing filled).

(** The keeper has the vault initialize the auction of epoch 0 at time
    100: the auction is to run on Friday 2 January 1970, from 10:00
    (122400) to 12:00 (129600). *)
Definition vault_initializing : result (VaultStorage.Layout * AuctionStorage.Layout) :=
  Vault.initializeAuction vaultK (vaultEnv 100 2 1000 0) auctionK
    vault0 (Auction.initial 1 0).

Definition vault_initialized : VaultStorage.Layout :=
  match vault_initializing with Ok (l, _) => l | Revert _ => vault0 end.

Definition auction_of_vault : AuctionStorage.Layout :=
  match vault_initializing with Ok (_, la) => la | Revert _ => Auction.initial 1 0 end.

(** No prices are set; more than a day after the end somebody has the
    auction finalized, which cancels it, and the keeper has the vault
    process it. *)
Definition timing_out : list (Auction.Env * Auction.Call) :=
  [ (auctionEnv 300000 5, Auction.FinalizeAuction 0) ].

Definition timed_out : AuctionStorage.Layout := state_of (run timing_out auction_of_vault).

Definition vault_processing
    : result (VaultStorage.Layout * AuctionStorage.Layout * list Vault.Effect) :=
  Vault.processAuction vaultK (vaultEnv 300001 2 1000 0) auctionK
    vault_initialized timed_out.

Definition vault_processed : VaultStorage.Layout :=
  match vault_processing with Ok (l, _, _) => l | Revert _ => vault0 end.

(** A day and more after the auction has been processed, buyer 1
    withdraws. *)
Definition withdrawing : list (Auction.Env * Auction.Call) :=
  [ (auctionEnv 100000 1, Auction.Withdraw 0) ].

Definition withdrawn : AuctionStorage.Layout := state_of (run withdrawing processed).

(** Buyer 3, whose market order for 200 contracts was filled by half,
    withdraws as well. *)
Definition refunding : list (Auction.Env * Auction.Call) :=
  [ (auctionEnv 100000 3, Auction.Withdraw 0) ].

Definition refunded : AuctionStorage.Layout := state_of (run refunding processed).

(** The auction with the two bids of buyer 1 is left alone until a day
    after its end, when somebody has it finalized: it is cancelled. *)
Definition abandoning : list (Auction.Env * Auction.Call) :=
  [ (auctionEnv 90000 5, Auction.FinalizeAuction 0) ].

Definition abandoned : AuctionStorage.Layout := state_of (run abandoning two_bids).

(** Three buyers bid at the highest price for 900, 200 and 300 contracts,
    1400 in all for the 1000 on offer; just after the start somebody has the
    auction finalized, and the vault takes the premiums and has the auction
    processed. *)
Definition overbidding : list (Auction.Env * Auction.Call) :=
  [ (auctionEnv 30 1, Auction.AddLimitOrder 0 (fixed 100) 900);
    (auctionEnv 40 2, Auction.AddLimitOrder 0 (fixed 100) 200);
    (auctionEnv 50 3, Auction.AddLimitOrder 0 (fixed 100) 300);
    (auctionEnv 1001 4, Auction.FinalizeAuction 0);
    (auctionEnv 3000 900, Auction.TransferPremium 0);
    (auctionEnv 3000 900, Auction.ProcessAuction 0) ].

Definition overbid : AuctionStorage.Layout := state_of (run overbidding opened).

(** Buyers 1 and 2 withdraw from the overbid auction. *)
Definition others_withdrawing : list (Auction.Env * Auction.Call) :=
  [ (auctionEnv 100000 1, Auction.Withdraw 0);
    (auctionEnv 100001 2, Auction.Withdraw 0) ].

Definition others_withdrawn : AuctionStorage.Layout :=
  state_of (run others_withdrawing overbid).

(** Nobody bids; after the end somebody has the auction finalized. *)
Definition closing_unsold : list (Auction.Env * Auction.Call) :=
  [ (auctionEnv 2500 4, Auction.FinalizeAuction 0) ].

Definition unsold : AuctionStorage.Layout := state_of (run closing_unsold opened).

(** The vault has not set the prices when the auction starts: buyer 1
    bids for 5 contracts at 50, then the vault sets the prices to 100 and
    10. *)
Definition bidding_unpriced : list (Auction.Env * Auction.Call) :=
  [ (auctionEnv 1000 1, Auction.AddLimitOrder 0 (fixed 50) 5) ].

Definition unpriced_bid : AuctionStorage.Layout := state_of (run bidding_unpriced initialized).

Definition pricing_late : list (Auction.Env * Auction.Call) :=
  [ (auctionEnv 1001 900, Auction.SetAuctionPrices 0 (fixed 100) (fixed 10)) ].

Definition priced_late : AuctionStorage.Layout := state_of (run pricing_late unpriced_bid).

(** On the Friday of the auction the keeper starts epoch 1.  The spot
    price is 2000 and the strike further out of the money 2200; the
    Black-Scholes prices of the two options make 100 and 10 once they are
    divided by the spot price. *)
Definition epochEnv (t who balance short : Z) : Vault.Env :=
  Vault.mkEnv t who balance (fun _ => short) (fun _ => 0)
    (fun _ _ _ => 2200 * 2 ^ 64) (fun _ x => x)
    (fun _ => 10 ^ 30) (fun _ _ => 0) (fun _ => 10 ^ 30) (fun _ => 10 ^ 30)
    (fun a => a) (fun s => s).

Definition quotes : VaultEpoch.Quotes :=
  VaultEpoch.mkQuotes (2000 * 2 ^ 64) (fun _ => 2 ^ 64 / 52)
    (fun _ strike _ _ =>
       if strike =? 2000 * 2 ^ 64 then 200000 * 2 ^ 64 else 20000 * 2 ^ 64).

Definition epoch_starting
    : result (VaultStorage.Layout * AuctionStorage.Layout * list VaultEpoch.Effect) :=
  VaultEpoch.initializeEpoch vaultK (epochEnv 115200 2 1000 0) quotes auctionK
    vault_initialized auction_of_vault.

Definition vault_in_epoch_1 : VaultStorage.Layout :=
  match epoch_starting with Ok (l, _, _) => l | Revert _ => vault0 end.

Definition auction_priced : AuctionStorage.Layout :=
  match epoch_starting with Ok (_, la, _) => la | Revert _ => Auction.initial 1 0 end.

End Scenario.

(** * Properties *)

(** ** The result monad and checked arithmetic *)

Lemma bind_Ok {A B} (r : result A) (f : A -> result B) (b : B) :
  r ≫= f = Ok b -> exists a, r = Ok a /\ f a = Ok b.
Proof. destruct r as [a|msg]; simpl; [eauto | discriminate]. Qed.

Lemma Ok_bind {A B} (a : A) (f : A -> result B) : Ok a ≫= f = f a.
Proof. reflexivity. Qed.

Lemma Revert_bind {A B} msg (f : A -> result B) : Revert msg ≫= f = Revert msg.
Proof. reflexivity. Qed.

Lemma require_Ok cond msg u : require cond msg = Ok u -> cond = true.
Proof. destruct cond; [reflexivity | discriminate]. Qed.

Lemma require_true msg : require true msg = Ok tt.
Proof. reflexivity. Qed.

Lemma require_false msg : require false msg = Revert msg.
Proof. reflexivity. Qed.

(** Takes a successful monadic computation apart, one bind at a time. *)
Ltac inv_ok H :=
  repeat match type of H with
  | Ok _ = Ok _ => injection H as H
  | Revert _ = Ok _ => discriminate H
  | (_ ≫= _) = Ok _ =>
      let a := fresh "v" in
      let Ha := fresh "Hv" in
      apply bind_Ok in H; destruct H as (a & Ha & H)
  end.

Lemma Ok_inj {A} (a b : A) : Ok a = Ok b -> a = b.
Proof. congruence. Qed.

(** Takes apart every successful computation among the hypotheses. *)
Ltac inv_all :=
  repeat match goal with
  | H : (_ ≫= _) = Ok _ |- _ =>
      let a := fresh "v" in
      let Ha := fresh "Hv" in
      apply bind_Ok in H; destruct H as (a & Ha & H)
  | H : Revert _ = Ok _ |- _ => discriminate H
  | H : require _ _ = Ok _ |- _ => apply require_Ok in H
  | H : Ok _ = Ok _ |- _ => apply Ok_inj in H
  | H : context [match ?v with pair _ _ => _ end] |- _ => is_var v; destruct v
  | H : (_, _) = (_, _) |- _ => injection H as ? ?
  end.

(** Turns the boolean tests among the hypotheses into propositions. *)
Ltac tests :=
  repeat match goal with
  | H : negb _ = true |- _ => apply negb_true_iff in H
  | H : (_ && _) = true |- _ => apply andb_true_iff in H; destruct H
  | H : (_ <=? _) = true |- _ => apply Z.leb_le in H
  | H : (_ <? _) = true |- _ => apply Z.ltb_lt in H
  | H : (_ =? _) = true |- _ => apply Z.eqb_eq in H
  | H : (_ =? _) = false |- _ => apply Z.eqb_neq in H
  | H : (_ <=? _) = false |- _ => apply Z.leb_gt in H
  | H : (_ <? _) = false |- _ => apply Z.ltb_ge in H
  end.

Lemma uadd_Ok a b c : uadd a b = Ok c -> c = a + b /\ a + b <= MAX_UINT256.
Proof.
  unfold uadd. destruct (Z.leb_spec (a + b) MAX_UINT256); [|discriminate].
  intros E. injection E as <-. split; [reflexivity | assumption].
Qed.

Lemma usub_Ok a b c : usub a b = Ok c -> c = a - b /\ b <= a.
Proof.
  unfold usub. destruct (Z.leb_spec b a); [|discriminate].
  intros E. injection E as <-. split; [reflexivity | assumption].
Qed.

Lemma uadd_fits a b : a + b <= MAX_UINT256 -> uadd a b = Ok (a + b).
Proof. intros H. unfold uadd. destruct (Z.leb_spec (a + b) MAX_UINT256); [reflexivity | lia]. Qed.

Lemma usub_fits a b : b <= a -> usub a b = Ok (a - b).
Proof. intros H. unfold usub. destruct (Z.leb_spec b a); [reflexivity | lia]. Qed.

(** ** TimeCalendar *)

Module TimeCalendarFacts.

Import TimeCalendar.

Lemma _getFriday_value t :
  0 <= t -> t + 2 * WEEK <= MAX_UINT256 -> _getFriday t = Ok (friday_value t).
Proof.
  intros H0 Hmax. unfold _getFriday, friday_value.
  change (24 * HOUR) with DAY. change (7 * DAY) with WEEK.
  set (k := (7 + 5 - (t / DAY + 4) mod 7) mod 7).
  assert (Hk : 0 <= k < 7) by (apply Z.mod_pos_bound; lia).
  clearbody k.
  assert (Hr : 0 <= (t + k * DAY) mod DAY < DAY)
    by (apply Z.mod_pos_bound; unfold DAY; lia).
  assert (Hle : (t + k * DAY) mod DAY <= t + k * DAY)
    by (apply Z.mod_le; unfold DAY; lia).
  unfold WEEK, DAY, HOUR in *.
  rewrite uadd_fits, Ok_bind by lia.
  rewrite usub_fits, Ok_bind by lia.
  rewrite uadd_fits, Ok_bind by lia.
  destruct (t >=? _); [apply uadd_fits; lia | reflexivity].
Qed.

Lemma friday_value_spec t :
  0 <= t ->
  isFriday8am (friday_value t) /\ t < friday_value t <= t + WEEK.
Proof.
  intros H0. unfold isFriday8am, friday_value, FRIDAY_8AM, WEEK, DAY, HOUR.
  cbv zeta. rewrite Z.geb_leb.
  match goal with |- context [?a <=? ?b] => destruct (Z.leb_spec a b) as [E|E] end;
    Z.to_euclidean_division_equations; lia.
Qed.

(** At a Friday 08:00 the function moves on by a week. *)
Lemma friday_value_step f :
  0 <= f -> isFriday8am f -> friday_value f = f + WEEK.
Proof.
  intros H0. unfold isFriday8am, friday_value, FRIDAY_8AM, WEEK, DAY, HOUR.
  cbv zeta. rewrite Z.geb_leb. intros Hf.
  match goal with |- context [?a <=? ?b] => destruct (Z.leb_spec a b) as [E|E] end;
    Z.to_euclidean_division_equations; lia.
Qed.

(** Two Friday 08:00 marks differ by whole weeks. *)
Lemma isFriday8am_gap f g :
  isFriday8am f -> isFriday8am g -> g < f -> g + WEEK <= f.
Proof.
  unfold isFriday8am, FRIDAY_8AM, WEEK, DAY, HOUR. intros Hf Hg Hlt.
  Z.to_euclidean_division_equations; lia.
Qed.

(** C8 (as amended): [friday(t)] is the first Friday 08:00 UTC strictly
    after [t]; hence applying it twice moves one week further:
    [friday(friday(t)) = friday(t) + 7 days], and [friday] is not idempotent. *)
Theorem C8_friday_first_strictly_after (t : Z) :
  0 <= t -> t + 3 * WEEK <= MAX_UINT256 ->
  exists f,
    _getFriday t = Ok f /\
    isFriday8am f /\ t < f /\
    (forall g, isFriday8am g -> t < g -> f <= g) /\
    _getFriday f = Ok (f + WEEK).
Proof.
  intros H0 Hmax. exists (friday_value t).
  destruct (friday_value_spec t H0) as (Hfri & Hlt & Hle).
  split; [apply _getFriday_value; unfold WEEK, DAY in *; lia|].
  split; [exact Hfri|]. split; [exact Hlt|]. split.
  - intros g Hg Htg. destruct (Z.le_gt_cases (friday_value t) g) as [|Hgt]; [assumption|].
    pose proof (isFriday8am_gap _ _ Hfri Hg Hgt). lia.
  - rewrite _getFriday_value by (unfold WEEK, DAY in *; lia).
    f_equal. apply friday_value_step; [lia | exact Hfri].
Qed.

Lemma C8_friday_first_strictly_after_witness :
  exists f,
    _getFriday 1660000000 = Ok f /\
    isFriday8am f /\ 1660000000 < f /\
    (forall g, isFriday8am g -> 1660000000 < g -> f <= g) /\
    _getFriday f = Ok (f + WEEK).
Proof.
  apply (C8_friday_first_strictly_after 1660000000); vm_compute; discriminate.
Defined.

(** C8 (as stated) fails at the unix second 115200, Friday 2 January 1970
    08:00 UTC: it is itself a Friday 08:00, yet [friday] answers the
    following one, so [friday(friday(0))] differs from [friday(0)]. *)
Lemma C8_friday_not_idempotent :
  _getFriday 0 = Ok 115200 /\
  isFriday8am 115200 /\
  _getFriday 115200 = Ok 720000 /\
  (_getFriday 0 ≫= _getFriday) <> _getFriday 0.
Proof. repeat split; vm_compute; discriminate. Qed.

End TimeCalendarFacts.

(** ** ABDKMath64x64 *)

Module ABDKFacts.

Import ABDKMath64x64.

Lemma mulu_split x y :
  0 <= y ->
  Z.shiftl (x * Z.shiftr y 128) 64 + Z.shiftr (x * Z.land y (2 ^ 128 - 1)) 64
  = mulu_value x y.
Proof.
  intros Hy. unfold mulu_value.
  rewrite Z.shiftl_mul_pow2, !Z.shiftr_div_pow2 by lia.
  change (2 ^ 128 - 1) with (Z.ones 128). rewrite Z.land_ones by lia.
  rewrite (Z.div_mod y (2 ^ 128)) at 3 by lia.
  replace (x * (2 ^ 128 * (y / 2 ^ 128) + y mod 2 ^ 128))
    with (x * (y mod 2 ^ 128) + x * (y / 2 ^ 128) * 2 ^ 64 * 2 ^ 64) by ring.
  rewrite Z.div_add by lia. ring.
Qed.

(** [mulu] succeeds exactly when the rounded product is a [uint256]. *)
Lemma mulu_Ok x y r :
  0 <= y -> mulu x y = Ok r ->
  r = mulu_value x y /\ 0 <= r <= MAX_UINT256 /\ (y <> 0 -> 0 <= x).
Proof.
  intros Hy. unfold mulu.
  destruct (Z.eqb_spec y 0) as [->|Hne].
  - intros E. injection E as <-. unfold mulu_value. rewrite Z.mul_0_r.
    split; [reflexivity|]. split; [vm_compute; split; discriminate | congruence].
  - intros E. inv_ok E.
    apply require_Ok, Z.leb_le in Hv, Hv0, Hv1.
    rewrite mulu_split in E by assumption. subst r.
    split; [reflexivity|]. split; [|intros _; assumption].
    split.
    + unfold mulu_value. apply Z.div_pos; [apply Z.mul_nonneg_nonneg|]; lia.
    + pose proof (mulu_split x y Hy) as Hs.
      assert (0 <= Z.shiftr (x * Z.land y (2 ^ 128 - 1)) 64).
      { apply Z.shiftr_nonneg, Z.mul_nonneg_nonneg; [assumption|].
        change (2 ^ 128 - 1) with (Z.ones 128). rewrite Z.land_ones by lia.
        apply Z.mod_pos_bound. lia. }
      lia.
Qed.

Lemma mulu_fits x y :
  0 <= x -> 0 <= y -> mulu_value x y <= MAX_UINT256 -> mulu x y = Ok (mulu_value x y).
Proof.
  intros Hx Hy Hmax. unfold mulu.
  destruct (Z.eqb_spec y 0) as [->|Hne].
  { unfold mulu_value. rewrite Z.mul_0_r. reflexivity. }
  pose proof (mulu_split x y Hy) as Hs.
  assert (Hlo : 0 <= Z.shiftr (x * Z.land y (2 ^ 128 - 1)) 64).
  { apply Z.shiftr_nonneg, Z.mul_nonneg_nonneg; [assumption|].
    change (2 ^ 128 - 1) with (Z.ones 128). rewrite Z.land_ones by lia.
    apply Z.mod_pos_bound. lia. }
  assert (Hhi : x * Z.shiftr y 128 <= 2 ^ 192 - 1).
  { rewrite Z.shiftl_mul_pow2 in Hs by lia.
    assert (x * Z.shiftr y 128 * 2 ^ 64 <= MAX_UINT256) by lia.
    unfold MAX_UINT256 in *. lia. }
  replace (0 <=? x) with true by (symmetry; apply Z.leb_le; assumption).
  rewrite require_true, Ok_bind.
  replace (x * Z.shiftr y 128 <=? 2 ^ 192 - 1) with true
    by (symmetry; apply Z.leb_le; assumption).
  rewrite require_true, Ok_bind.
  replace (Z.shiftl (x * Z.shiftr y 128) 64 <=?
           MAX_UINT256 - Z.shiftr (x * Z.land y (2 ^ 128 - 1)) 64) with true
    by (symmetry; apply Z.leb_le; lia).
  rewrite require_true, Ok_bind. f_equal. exact Hs.
Qed.

Lemma mulu_value_mono x x' y y' :
  0 <= x <= x' -> 0 <= y <= y' -> mulu_value x y <= mulu_value x' y'.
Proof.
  intros Hx Hy. unfold mulu_value. apply Z.div_le_mono; [lia|]. nia.
Qed.

Lemma divu_Ok x y r :
  divu x y = Ok r -> y <> 0 /\ r = x * 2 ^ 64 / y /\ r <= MAX_64x64.
Proof.
  unfold divu. intros E. inv_ok E.
  apply require_Ok in Hv, Hv0, Hv1.
  apply negb_true_iff, Z.eqb_neq in Hv. apply Z.leb_le in Hv1.
  subst r. auto.
Qed.

(** A ratio of a part to the whole is at most one and always fits. *)
Lemma divu_fits x y :
  0 <= x <= y -> 0 < y -> divu x y = Ok (x * 2 ^ 64 / y).
Proof.
  intros Hx Hy. unfold divu.
  assert (Hq : x * 2 ^ 64 / y <= 2 ^ 64).
  { apply Z.div_le_upper_bound; [assumption | nia]. }
  replace (y =? 0) with false by (symmetry; apply Z.eqb_neq; lia).
  simpl negb. rewrite require_true, Ok_bind.
  replace (x * 2 ^ 64 / y <=? 2 ^ 128 - 1) with true
    by (symmetry; apply Z.leb_le; lia).
  rewrite require_true, Ok_bind.
  replace (x * 2 ^ 64 / y <=? MAX_64x64) with true
    by (symmetry; apply Z.leb_le; unfold MAX_64x64; lia).
  reflexivity.
Qed.

End ABDKFacts.

(** ** The fee setters of the vault *)

Module FeeFacts.

Import VaultStorage Vault.

Lemma onlyOwner_Ok k e : msg_sender e = owner k -> onlyOwner k e = Ok tt.
Proof. intros H. unfold onlyOwner. rewrite H, Z.eqb_refl. reflexivity. Qed.

(** C9 (as amended): called by the owner, [setPerformanceFee64x64] and
    [setWithdrawalFee64x64] store every new value in [[0,1)] and revert with
    "fee > 1" on every value of at least one; a value they store is below
    one, and each leaves the other fee alone. *)
Theorem C9_fee_setters_upper_bound (k : Immutables) (e : Env) (l : Layout) (fee : Z) :
  msg_sender e = owner k ->
  (0 <= fee < ONE_64x64 ->
     setPerformanceFee64x64 k e l fee = Ok (set_performanceFee64x64 fee l) /\
     setWithdrawalFee64x64 k e l fee = Ok (set_withdrawalFee64x64 fee l)) /\
  (ONE_64x64 <= fee ->
     setPerformanceFee64x64 k e l fee = Revert "fee > 1" /\
     setWithdrawalFee64x64 k e l fee = Revert "fee > 1") /\
  (forall l', setPerformanceFee64x64 k e l fee = Ok l' ->
     performanceFee64x64 l' = fee /\ fee < ONE_64x64 /\
     withdrawalFee64x64 l' = withdrawalFee64x64 l) /\
  (forall l', setWithdrawalFee64x64 k e l fee = Ok l' ->
     withdrawalFee64x64 l' = fee /\ fee < ONE_64x64 /\
     performanceFee64x64 l' = performanceFee64x64 l).
Proof.
  intros Hown. unfold setPerformanceFee64x64, setWithdrawalFee64x64.
  rewrite (onlyOwner_Ok k e Hown), !Ok_bind.
  destruct (Z.ltb_spec fee ONE_64x64) as [Hlt|Hge].
  - rewrite require_true, !Ok_bind.
    split; [intros _; split; reflexivity|].
    split; [intros Hge; lia|].
    split; intros l' E; injection E as <-; repeat split; assumption.
  - rewrite require_false, !Revert_bind.
    split; [intros [_ Hlt]; lia|].
    split; [intros _; split; reflexivity|].
    split; intros l' E; discriminate E.
Qed.

Lemma C9_fee_setters_upper_bound_witness :
  setPerformanceFee64x64 Scenario.vaultK (Scenario.vaultEnv 10 1 0 0)
    Scenario.vault0 (2 ^ 60)
  = Ok (set_performanceFee64x64 (2 ^ 60) Scenario.vault0) /\
  setWithdrawalFee64x64 Scenario.vaultK (Scenario.vaultEnv 10 1 0 0)
    Scenario.vault0 (2 ^ 60)
  = Ok (set_withdrawalFee64x64 (2 ^ 60) Scenario.vault0).
Proof.
  apply (C9_fee_setters_upper_bound Scenario.vaultK (Scenario.vaultEnv 10 1 0 0)
           Scenario.vault0 (2 ^ 60)).
  - reflexivity.
  - vm_compute. split; [discriminate | reflexivity].
Defined.

(** C9 (as stated) fails on a negative fee: the owner's call
    [setPerformanceFee64x64(-1)] (and likewise [setWithdrawalFee64x64(-1)])
    is accepted and the vault then holds a fee outside [[0,1)]. *)
Lemma C9_negative_fee_accepted :
  exists l1 l2,
    setPerformanceFee64x64 Scenario.vaultK (Scenario.vaultEnv 10 1 0 0)
      Scenario.vault0 (-1) = Ok l1 /\
    performanceFee64x64 l1 = -1 /\
    setWithdrawalFee64x64 Scenario.vaultK (Scenario.vaultEnv 10 1 0 0)
      Scenario.vault0 (-1) = Ok l2 /\
    withdrawalFee64x64 l2 = -1 /\
    ~ (0 <= -1 < ONE_64x64).
Proof.
  eexists _, _. split; [vm_compute; reflexivity|]. split; [reflexivity|].
  split; [vm_compute; reflexivity|]. split; [reflexivity|]. lia.
Qed.

End FeeFacts.

(** ** Storage of the auction *)

Module StorageFacts.

Import AuctionStorage.

Lemma auction_of_set_auction ep a l :
  auction_of (set_auction ep a l) ep = a.
Proof. unfold auction_of, set_auction. simpl. apply lookup_total_insert_eq. Qed.

Lemma auction_of_set_auction_ne ep ep' a l :
  ep <> ep' -> auction_of (set_auction ep a l) ep' = auction_of l ep'.
Proof. intros H. unfold auction_of, set_auction. simpl.
  by apply lookup_total_insert_ne. Qed.

Lemma auction_of_set_orderbook ep b l ep' :
  auction_of (set_orderbook ep b l) ep' = auction_of l ep'.
Proof. reflexivity. Qed.

Lemma auction_of_set_epochs who s l ep' :
  auction_of (set_epochs who s l) ep' = auction_of l ep'.
Proof. reflexivity. Qed.

Lemma orderbook_of_set_orderbook ep b l :
  orderbook_of (set_orderbook ep b l) ep = b.
Proof. unfold orderbook_of, set_orderbook. simpl. apply lookup_total_insert_eq. Qed.

Lemma orderbook_of_set_orderbook_ne ep ep' b l :
  ep <> ep' -> orderbook_of (set_orderbook ep b l) ep' = orderbook_of l ep'.
Proof. intros H. unfold orderbook_of, set_orderbook. simpl.
  by apply lookup_total_insert_ne. Qed.

Lemma epochs_of_set_epochs who s l :
  epochs_of (set_epochs who s l) who = s.
Proof. unfold epochs_of, set_epochs. simpl. apply lookup_total_insert_eq. Qed.

Lemma epochs_of_set_epochs_ne who who' s l :
  who <> who' -> epochs_of (set_epochs who s l) who' = epochs_of l who'.
Proof. intros H. unfold epochs_of, set_epochs. simpl.
  by apply lookup_total_insert_ne. Qed.

Lemma status_eqb_eq a b : status_eqb a b = true <-> a = b.
Proof. destruct a, b; simpl; split; congruence. Qed.

Lemma status_eqb_refl a : status_eqb a a = true.
Proof. destruct a; reflexivity. Qed.

End StorageFacts.

(** ** Setting the prices of an auction *)

Module PriceFacts.

Import AuctionStorage Auction StorageFacts.

Lemma onlyVault_Ok k e : msg_sender e = Vault k -> onlyVault k e = Ok tt.
Proof. intros H. unfold onlyVault. rewrite H, Z.eqb_refl. reflexivity. Qed.

(** C5: called by the vault on an Initialized auction, [setAuctionPrices]
    stores the two prices; when [maxPrice <= 0], [minPrice <= 0] or
    [maxPrice <= minPrice] the auction ends Cancelled with [lastPrice] the
    largest [int128] and [totalPremiums] zero, and otherwise it stays
    Initialized, nothing but the two prices being written. *)
Theorem C5_setAuctionPrices (k : Immutables) (e : Env) (l : Layout)
    (epoch maxPrice minPrice : Z) :
  msg_sender e = Vault k ->
  status (auction_of l epoch) = INITIALIZED ->
  exists l',
    setAuctionPrices k e l epoch maxPrice minPrice = Ok l' /\
    maxPrice64x64 (auction_of l' epoch) = maxPrice /\
    minPrice64x64 (auction_of l' epoch) = minPrice /\
    (maxPrice <= 0 \/ minPrice <= 0 \/ maxPrice <= minPrice ->
       status (auction_of l' epoch) = CANCELLED /\
       lastPrice64x64 (auction_of l' epoch) = MAX_64x64 /\
       totalPremiums (auction_of l' epoch) = 0) /\
    (0 < maxPrice /\ 0 < minPrice /\ minPrice < maxPrice ->
       auction_of l' epoch = set_prices maxPrice minPrice (auction_of l epoch) /\
       status (auction_of l' epoch) = INITIALIZED).
Proof.
  intros Hv Hst. unfold setAuctionPrices.
  rewrite (onlyVault_Ok k e Hv), Ok_bind, Hst. simpl status_eqb.
  rewrite require_true, Ok_bind. simpl.
  destruct (Z.leb_spec maxPrice 0) as [H1|H1]; simpl.
  { eexists. split; [reflexivity|]. rewrite auction_of_set_auction. simpl.
    repeat split; try reflexivity; lia. }
  destruct (Z.leb_spec minPrice 0) as [H2|H2]; simpl.
  { eexists. split; [reflexivity|]. rewrite auction_of_set_auction. simpl.
    repeat split; try reflexivity; lia. }
  destruct (Z.leb_spec maxPrice minPrice) as [H3|H3]; simpl.
  { eexists. split; [reflexivity|]. rewrite auction_of_set_auction. simpl.
    repeat split; try reflexivity; lia. }
  eexists. split; [reflexivity|]. rewrite auction_of_set_auction. simpl.
  repeat split; try reflexivity; try lia. exact Hst.
Qed.

(** The vault offers the prices 5 and 10, the wrong way round, to the
    auction of epoch 0: the auction is cancelled. *)
Lemma C5_setAuctionPrices_witness :
  exists l',
    setAuctionPrices Scenario.auctionK (Scenario.auctionEnv 20 900) Scenario.initialized
      0 (Scenario.fixed 5) (Scenario.fixed 10) = Ok l'
    /\ status (auction_of l' 0) = CANCELLED
    /\ lastPrice64x64 (auction_of l' 0) = MAX_64x64.
Proof.
  assert (Hst : status (auction_of Scenario.initialized 0) = INITIALIZED)
    by (vm_compute; reflexivity).
  destruct (C5_setAuctionPrices Scenario.auctionK (Scenario.auctionEnv 20 900)
              Scenario.initialized 0 (Scenario.fixed 5) (Scenario.fixed 10)
              eq_refl Hst)
    as (l' & Hrun & _ & _ & Hbad & _).
  exists l'. split; [exact Hrun|].
  destruct Hbad as (Hs & Hp & _).
  { right. right. vm_compute. discriminate. }
  split; assumption.
Defined.

End PriceFacts.

(** ** The order book *)

Module OrderBookFacts.

Import OrderBook.

Lemma find_order_here key pre d post :
  (forall x, x ∈ pre -> id x <> key) -> id d = key ->
  find_order key (pre ++ d :: post) = d.
Proof.
  intros Hpre Hd. induction pre as [|x pre IH]; simpl.
  - rewrite Hd, Z.eqb_refl. reflexivity.
  - destruct (Z.eqb_spec (id x) key) as [E|_].
    + exfalso. apply (Hpre x); [left | exact E].
    + apply IH. intros y Hy. apply Hpre. right. exact Hy.
Qed.

Lemma next_of_here key pre d post :
  (forall x, x ∈ pre -> id x <> key) -> id d = key ->
  next_of key (pre ++ d :: post) = head_id post.
Proof.
  intros Hpre Hd. induction pre as [|x pre IH]; simpl.
  - rewrite Hd, Z.eqb_refl. reflexivity.
  - destruct (Z.eqb_spec (id x) key) as [E|_].
    + exfalso. apply (Hpre x); [left | exact E].
    + apply IH. intros y Hy. apply Hpre. right. exact Hy.
Qed.

Lemma drop_order_absent key l :
  (forall x, x ∈ l -> id x <> key) -> drop_order key l = l.
Proof.
  intros H. induction l as [|x l IH]; [reflexivity|]. unfold drop_order in *. simpl.
  destruct (Z.eqb_spec (id x) key) as [E|_]; simpl.
  - exfalso. apply (H x); [left | exact E].
  - f_equal. apply IH. intros y Hy. apply H. right. exact Hy.
Qed.

Lemma drop_order_here key pre d post :
  (forall x, x ∈ pre -> id x <> key) -> (forall x, x ∈ post -> id x <> key) ->
  id d = key -> drop_order key (pre ++ d :: post) = pre ++ post.
Proof.
  intros Hpre Hpost Hd. unfold drop_order. rewrite List.filter_app. simpl.
  rewrite Hd, Z.eqb_refl. simpl.
  fold (drop_order key pre). fold (drop_order key post).
  rewrite !drop_order_absent by assumption. reflexivity.
Qed.

Lemma has_order_here key pre d post :
  id d = key -> has_order key (pre ++ d :: post) = true.
Proof.
  intros Hd. unfold has_order. rewrite existsb_app. simpl.
  rewrite Hd, Z.eqb_refl. apply orb_true_iff. right. reflexivity.
Qed.

Lemma NoDup_ids_split pre d post :
  NoDup (id <$> (pre ++ d :: post)) ->
  (forall x, x ∈ pre -> id x <> id d) /\ (forall x, x ∈ post -> id x <> id d).
Proof.
  rewrite fmap_app, fmap_cons. intros H.
  apply NoDup_app in H as (_ & Hpre & Hpost).
  apply NoDup_cons in Hpost as (Hpost & _). split.
  - intros x Hx E. apply (Hpre (id x)).
    + apply list_elem_of_fmap. eauto.
    + rewrite E. left.
  - intros x Hx E. apply Hpost. rewrite <- E.
    apply list_elem_of_fmap. eauto.
Qed.

Lemma drop_order_sublist key l : sublist (drop_order key l) l.
Proof.
  unfold drop_order. induction l as [|x l IH]; simpl; [constructor|].
  destruct (negb (id x =? key)); [apply sublist_skip | apply sublist_cons]; exact IH.
Qed.

Lemma find_order_Forall (P : Data -> Prop) key l :
  P zeroData -> Forall P l -> P (find_order key l).
Proof.
  intros H0 Hl. induction Hl as [|x l Hx Hl IH]; simpl; [exact H0|].
  destruct (id x =? key); assumption.
Qed.

Lemma wf_empty : wf empty.
Proof. split; [reflexivity|]. split; constructor. Qed.

Lemma splice_elem d l x : x ∈ splice d l <-> x = d \/ x ∈ l.
Proof.
  induction l as [|y l IH]; simpl.
  - rewrite list_elem_of_singleton. rewrite elem_of_nil. tauto.
  - destruct (price64x64 y <? price64x64 d).
    + rewrite elem_of_cons. tauto.
    + rewrite !elem_of_cons, IH. tauto.
Qed.

Lemma splice_NoDup d l :
  id d ∉ id <$> l -> NoDup (id <$> l) -> NoDup (id <$> splice d l).
Proof.
  induction l as [|y l IH]; simpl; intros Hd Hl.
  - apply NoDup_singleton.
  - destruct (price64x64 y <? price64x64 d).
    + rewrite fmap_cons. apply NoDup_cons. split; assumption.
    + rewrite fmap_cons in *. apply NoDup_cons in Hl as (Hy & Hl).
      apply not_elem_of_cons in Hd as (Hne & Hd).
      apply NoDup_cons. split; [|apply IH; assumption].
      intros Hin. apply list_elem_of_fmap in Hin as (x & Ex & Hx).
      apply splice_elem in Hx as [->|Hx]; [congruence|].
      apply Hy. apply list_elem_of_fmap. eauto.
Qed.

Lemma wf_insert b price sz who :
  wf b -> 0 <= sz -> wf (snd (_insert b price sz who)).
Proof.
  intros (Hlast & Hnd & Hall) Hsz. unfold _insert. simpl.
  rewrite Forall_forall in Hall.
  split; [simpl; lia|]. split; simpl.
  - apply splice_NoDup; [|exact Hnd]. simpl.
    intros Hin. apply list_elem_of_fmap in Hin as (x & Ex & Hx).
    specialize (Hall x Hx). lia.
  - apply Forall_forall. intros x Hx. apply splice_elem in Hx as [->|Hx]; simpl.
    + lia.
    + specialize (Hall x Hx). lia.
Qed.

Lemma wf_sublist b b' :
  wf b -> lastId b' = lastId b -> sublist (orders b') (orders b) -> wf b'.
Proof.
  intros (Hlast & Hnd & Hall) El Hsub. split; [lia|]. split.
  - eapply sublist_NoDup; [exact Hnd|]. apply fmap_sublist. exact Hsub.
  - rewrite Forall_forall in *. intros x Hx. rewrite El. apply Hall.
    eapply sublist_subseteq; eassumption.
Qed.

Lemma remove_sublist b key :
  lastId (snd (_remove b key)) = lastId b /\
  sublist (orders (snd (_remove b key))) (orders b).
Proof.
  unfold _remove. destruct (has_order key (orders b)); simpl.
  - split; [reflexivity | apply drop_order_sublist].
  - split; reflexivity.
Qed.

End OrderBookFacts.

(** ** EnumerableSet *)

Module EnumerableSetFacts.

Import EnumerableSet.

Lemma contains_elem s v : contains s v = true <-> v ∈ s.
Proof.
  unfold contains. rewrite existsb_exists. split.
  - intros (x & Hx & E). apply Z.eqb_eq in E. subst x.
    apply list_elem_of_In. exact Hx.
  - intros H. exists v. split; [apply list_elem_of_In; exact H | apply Z.eqb_refl].
Qed.

Lemma add_NoDup s v : NoDup s -> NoDup (snd (add s v)).
Proof.
  intros H. unfold add. destruct (contains s v) eqn:E; simpl; [exact H|].
  apply NoDup_app. split; [exact H|]. split; [|apply NoDup_singleton].
  intros x Hx Hin. apply list_elem_of_singleton in Hin. subst x.
  apply contains_elem in Hx. congruence.
Qed.

Lemma add_elem s v : v ∈ snd (add s v).
Proof.
  unfold add. destruct (contains s v) eqn:E; simpl.
  - apply contains_elem. exact E.
  - apply elem_of_app. right. left.
Qed.

Lemma index_of_None v s : index_of v s = None -> v ∉ s.
Proof.
  induction s as [|x s IH]; simpl; [intros _; apply not_elem_of_nil|].
  destruct (Z.eqb_spec x v) as [E|Hne]; [discriminate|].
  destruct (index_of v s); [discriminate|]. intros _.
  apply not_elem_of_cons. split; [congruence | apply IH; reflexivity].
Qed.

Lemma index_of_Some v s i :
  index_of v s = Some i ->
  exists pre post, s = pre ++ v :: post /\ List.length pre = i.
Proof.
  revert i. induction s as [|x s IH]; simpl; intros i; [discriminate|].
  destruct (Z.eqb_spec x v) as [E|Hne].
  - intros [= <-]. exists [], s. subst x. split; reflexivity.
  - destruct (index_of v s) as [j|]; [|discriminate]. intros [= <-].
    destruct (IH j eq_refl) as (pre & post & -> & Hlen).
    exists (x :: pre), post. split; [reflexivity | simpl; congruence].
Qed.

(** Removal moves the last member into the freed slot: what is left is
    the set without the member. *)
Lemma remove_Permutation s v i :
  index_of v s = Some i -> s ≡ₚ v :: snd (remove s v).
Proof.
  intros Hi. unfold remove. rewrite Hi. simpl.
  apply index_of_Some in Hi as (pre & post & -> & <-).
  destruct (list_eq_nil_dec post) as [->|Hne].
  - rewrite last_last.
    rewrite insert_app_r_alt, Nat.sub_diag by reflexivity. simpl.
    rewrite removelast_last. symmetry. apply Permutation_cons_append.
  - destruct (exists_last Hne) as (post' & z & ->).
    replace (pre ++ v :: post' ++ [z]) with ((pre ++ v :: post') ++ [z])
      by (rewrite <- app_assoc; reflexivity).
    rewrite last_last.
    rewrite <- app_assoc. simpl.
    rewrite insert_app_r_alt, Nat.sub_diag by reflexivity. simpl.
    replace (pre ++ z :: post' ++ [z]) with ((pre ++ z :: post') ++ [z])
      by (rewrite <- app_assoc; reflexivity).
    rewrite removelast_last.
    rewrite <- !Permutation_middle. rewrite app_nil_r. reflexivity.
Qed.

Lemma remove_NoDup s v : NoDup s -> NoDup (snd (remove s v)).
Proof.
  intros H. destruct (index_of v s) as [i|] eqn:E.
  - rewrite (remove_Permutation s v i E) in H.
    apply NoDup_cons in H. tauto.
  - unfold remove. rewrite E. exact H.
Qed.

Lemma remove_not_elem s v : NoDup s -> v ∉ snd (remove s v).
Proof.
  intros H. destruct (index_of v s) as [i|] eqn:E.
  - rewrite (remove_Permutation s v i E) in H.
    apply NoDup_cons in H. tauto.
  - unfold remove. rewrite E. simpl. apply index_of_None. exact E.
Qed.

End EnumerableSetFacts.

(** ** The finalize-check of the auction *)

Module FinalizeFacts.

Import AuctionStorage Auction AuctionSpec StorageFacts.

Lemma cons_app_assoc {A} (pre : list A) d post :
  pre ++ d :: post = (pre ++ [d]) ++ post.
Proof. rewrite <- app_assoc. reflexivity. Qed.

(** The loop of [_processOrders], which follows the ids of the book, walks
    the orders in their order. *)
Lemma processOrders_loop_traverse e a c t post :
  forall pre sold price,
  NoDup (OrderBook.id <$> (pre ++ post)) ->
  processOrders_loop e (List.length post) a (OrderBook.mkIndex (pre ++ post) c) t
    (OrderBook.head_id post) sold price
  = (r ← traverse (_clearingPrice64x64 e a) t post sold price;
     Ok (match r with
         | AutoFinalize p => inl p
         | Stopped s p => inr (s, p)
         end)).
Proof.
  induction post as [|d post IH]; intros pre sold price Hnd; [reflexivity|].
  destruct (OrderBookFacts.NoDup_ids_split _ _ _ Hnd) as (Hpre & _).
  cbn [List.length processOrders_loop traverse OrderBook.head_id].
  unfold OrderBook._getOrderById, OrderBook._getNextOrder. cbn [OrderBook.orders].
  rewrite OrderBookFacts.find_order_here, OrderBookFacts.next_of_here
    by (assumption || reflexivity).
  destruct (_clearingPrice64x64 e a) as [clearing|msg]; [|reflexivity].
  rewrite !Ok_bind.
  destruct (OrderBook.price64x64 d <? clearing); [reflexivity|].
  destruct (uadd sold (OrderBook.size d)) as [reached|msg]; [|reflexivity].
  rewrite !Ok_bind.
  destruct (t <=? reached); [reflexivity|].
  rewrite cons_app_assoc. apply IH. rewrite <- cons_app_assoc. exact Hnd.
Qed.

(** On a book whose ids are distinct the code of [_finalizeAuction] is the
    finalize-check of the specification. *)
Lemma _finalizeAuction_finalize_check k e l epoch :
  NoDup (OrderBook.id <$> OrderBook.orders (orderbook_of l epoch)) ->
  _finalizeAuction k e l epoch = finalize_check k e l epoch.
Proof.
  intros Hnd. unfold _finalizeAuction, finalize_check, _processOrders.
  destruct (_getTotalContracts k e (auction_of l epoch)) as [t|msg]; [|reflexivity].
  rewrite !Ok_bind.
  set (a := if totalContracts (auction_of l epoch) <=? 0
            then set_totalContracts t (auction_of l epoch)
            else auction_of l epoch).
  unfold OrderBook._length, OrderBook._head. rewrite Nat2Z.id.
  destruct (orderbook_of l epoch) as [book c]. cbn [OrderBook.orders] in *.
  pose proof (processOrders_loop_traverse e a c t book [] 0 0 Hnd) as Hloop.
  cbn [app] in Hloop. rewrite Hloop. clear Hloop.
  destruct (traverse (_clearingPrice64x64 e a) t book 0 0) as [[p|s p]|msg];
    [| |reflexivity]; rewrite !Ok_bind.
  - cbn [mbind result_bind]. rewrite auction_of_set_auction. cbn [orb].
    unfold set_auction. cbn [auctions minSize orderbooks epochsByBuyer Exchange].
    rewrite insert_insert_eq. reflexivity.
  - cbn [mbind result_bind]. rewrite auction_of_set_auction. cbn [orb].
    destruct (endTime _ <? block_timestamp e); [|reflexivity].
    unfold set_auction. cbn [auctions minSize orderbooks epochsByBuyer Exchange].
    rewrite insert_insert_eq. reflexivity.
Qed.

End FinalizeFacts.

(** ** One transaction of the auction, part by part *)

Module StepFacts.

Import AuctionStorage Auction AuctionSpec StorageFacts.

Lemma auction_of_set_auction_dec ep a l x :
  auction_of (set_auction ep a l) x = if decide (x = ep) then a else auction_of l x.
Proof.
  destruct (decide (x = ep)) as [->|Hne].
  - apply auction_of_set_auction.
  - apply auction_of_set_auction_ne. congruence.
Qed.

Lemma orderbook_of_set_orderbook_dec ep b l x :
  orderbook_of (set_orderbook ep b l) x
  = if decide (x = ep) then b else orderbook_of l x.
Proof.
  destruct (decide (x = ep)) as [->|Hne].
  - apply orderbook_of_set_orderbook.
  - apply orderbook_of_set_orderbook_ne. congruence.
Qed.

Lemma epochs_of_set_epochs_dec who s l x :
  epochs_of (set_epochs who s l) x = if decide (x = who) then s else epochs_of l x.
Proof.
  destruct (decide (x = who)) as [->|Hne].
  - apply epochs_of_set_epochs.
  - apply epochs_of_set_epochs_ne. congruence.
Qed.

Lemma orderbook_of_set_auction ep a l x :
  orderbook_of (set_auction ep a l) x = orderbook_of l x.
Proof. reflexivity. Qed.

Lemma orderbook_of_set_epochs who s l x :
  orderbook_of (set_epochs who s l) x = orderbook_of l x.
Proof. reflexivity. Qed.

Lemma epochs_of_set_auction ep a l x :
  epochs_of (set_auction ep a l) x = epochs_of l x.
Proof. reflexivity. Qed.

Lemma epochs_of_set_orderbook ep b l x :
  epochs_of (set_orderbook ep b l) x = epochs_of l x.
Proof. reflexivity. Qed.

(** Rewrites the reads of a storage built by writes. *)
Ltac reads :=
  repeat first
    [ rewrite auction_of_set_auction_dec
    | rewrite auction_of_set_orderbook
    | rewrite auction_of_set_epochs
    | rewrite orderbook_of_set_orderbook_dec
    | rewrite orderbook_of_set_auction
    | rewrite orderbook_of_set_epochs
    | rewrite epochs_of_set_epochs_dec
    | rewrite epochs_of_set_auction
    | rewrite epochs_of_set_orderbook ].

Ltac same_reads :=
  let x := fresh "x" in
  intros x; reads; repeat case_decide; subst; try reflexivity; congruence.

(** A transaction that writes at most one record, one book and the epochs
    of one buyer, each by a step. *)
Lemma transaction_step_intro l l' ep who a' b' s' :
  minSize l' = minSize l ->
  (forall x, auction_of l' x = if decide (x = ep) then a' else auction_of l x) ->
  (forall x, orderbook_of l' x = if decide (x = ep) then b' else orderbook_of l x) ->
  (forall x, epochs_of l' x = if decide (x = who) then s' else epochs_of l x) ->
  (a' = auction_of l ep \/ auction_step (auction_of l ep) a') ->
  (b' = orderbook_of l ep \/ book_step (minSize l) (orderbook_of l ep) b') ->
  set_step (epochs_of l who) s' ->
  transaction_step l l'.
Proof.
  intros Hm Ha Hb Hs Ha' Hb' Hs'. split; [exact Hm|]. split; [|split].
  - intros x. rewrite Ha. case_decide; subst; [|left; reflexivity].
    destruct Ha' as [->|Ha']; [left; reflexivity | right; exact Ha'].
  - intros x. rewrite Hb. case_decide; subst; [|left; reflexivity].
    destruct Hb' as [->|Hb']; [left; reflexivity | right; exact Hb'].
  - intros x. rewrite Hs. case_decide; subst; [exact Hs' | apply set_same].
Qed.

Lemma transaction_step_refl l : transaction_step l l.
Proof.
  split; [reflexivity|]. split; [|split]; intros x;
    [left; reflexivity | left; reflexivity | apply set_same].
Qed.

(** *** The total number of contracts *)

Lemma fromCollateralToContracts_nonneg collateral isCall baseDecimals strike t :
  0 <= collateral ->
  OptionMath.fromCollateralToContracts collateral isCall baseDecimals strike = Ok t ->
  0 <= t.
Proof.
  intros Hc. unfold OptionMath.fromCollateralToContracts.
  destruct isCall; [intros [= <-]; exact Hc|].
  intros E. inv_ok E.
  apply ABDKFacts.mulu_Ok in E; [lia|]. apply Z.pow_nonneg. lia.
Qed.

Lemma _getTotalContracts_Ok k e a t :
  typed e -> _getTotalContracts k e a = Ok t ->
  0 <= t /\ (0 < totalContracts a -> t = totalContracts a).
Proof.
  intros (_ & _ & Hc). unfold _getTotalContracts.
  destruct (Z.leb_spec (totalContracts a) 0) as [Hle|Hgt].
  - intros E. apply fromCollateralToContracts_nonneg in E; [|exact Hc].
    split; [exact E | lia].
  - intros [= <-]. split; [lia | reflexivity].
Qed.

Lemma set_totalContracts_same a : set_totalContracts (totalContracts a) a = a.
Proof. destruct a; reflexivity. Qed.

(** *** The traversal *)

Lemma traverse_bounds clearing t book :
  Forall (fun d => 0 <= OrderBook.size d) book ->
  forall sold price r,
  0 <= sold <= t ->
  traverse clearing t book sold price = Ok r ->
  match r with
  | AutoFinalize _ => True
  | Stopped s _ => 0 <= s <= t
  end.
Proof.
  induction 1 as [|d book Hd Hbook IH]; intros sold price r Hs; simpl.
  - intros [= <-]. exact Hs.
  - intros E. inv_ok E.
    destruct (OrderBook.price64x64 d <? v); [injection E as <-; exact Hs|].
    inv_ok E. apply uadd_Ok in Hv0 as (-> & _).
    destruct (Z.leb_spec t (sold + OrderBook.size d)); [injection E as <-; exact I|].
    eapply IH; [|exact E]. lia.
Qed.

(** The finalize-check makes one step of the record of its auction. *)
Lemma finalize_check_step k e l epoch l' :
  OrderBook.wf (orderbook_of l epoch) -> typed e ->
  status (auction_of l epoch) = INITIALIZED ->
  finalize_check k e l epoch = Ok l' ->
  exists a', l' = set_auction epoch a' l /\ auction_step (auction_of l epoch) a'.
Proof.
  intros (_ & _ & Hsizes) Hty Hst. unfold finalize_check. intros E. inv_ok E.
  rename v into t. rename v0 into r.
  destruct (_getTotalContracts_Ok k e _ t Hty Hv) as (Ht0 & Htsame).
  assert (Hfrozen :
    (if totalContracts (auction_of l epoch) <=? 0
     then set_totalContracts t (auction_of l epoch) else auction_of l epoch)
    = set_totalContracts t (auction_of l epoch)).
  { destruct (Z.leb_spec (totalContracts (auction_of l epoch)) 0); [reflexivity|].
    rewrite (Htsame ltac:(assumption)). symmetry. apply set_totalContracts_same. }
  rewrite Hfrozen in *.
  assert (Hb : match r with AutoFinalize _ => True | Stopped s _ => 0 <= s <= t end).
  { eapply traverse_bounds; [|split; [reflexivity | exact Ht0] | exact Hv0].
    eapply Forall_impl; [exact Hsizes|]. intros d Hd. simpl in Hd. tauto. }
  destruct r as [p|s p]; injection E as <-.
  - eexists. split; [reflexivity|].
    apply (step_check _ t t p true); auto; lia.
  - eexists. split; [reflexivity|]. simpl endTime.
    destruct (endTime (auction_of l epoch) <? block_timestamp e).
    + apply (step_check _ t s p true); auto.
    + apply (step_check _ t s p false); auto.
Qed.

End StepFacts.

(** ** Every transaction is a step of each part of the storage *)

Module TransactionFacts.

Import AuctionStorage Auction AuctionSpec StorageFacts StepFacts.

(** [inv_ok], which also opens the pairs bound by a pattern. *)
Ltac inv_ok' H :=
  repeat first
    [ progress inv_ok H
    | match type of H with
      | context [match ?v with pair _ _ => _ end] => is_var v; destruct v
      end
    | progress cbn beta iota in H ].

Ltac statuses :=
  repeat match goal with
  | H : status_eqb _ _ = true |- _ => apply status_eqb_eq in H
  end.

Lemma limitOrdersAllowed_Ok e a u :
  _limitOrdersAllowed e a = Ok u ->
  status a = INITIALIZED /\ block_timestamp e <= endTime a.
Proof.
  unfold _limitOrdersAllowed, _auctionHasNotEnded. intros E. inv_all. tests. statuses.
  split; [congruence | assumption].
Qed.

Lemma marketOrdersAllowed_Ok e a u :
  _marketOrdersAllowed e a = Ok u ->
  status a = INITIALIZED /\ startTime a <= block_timestamp e <= endTime a.
Proof.
  unfold _marketOrdersAllowed, _auctionHasStarted, _auctionHasNotEnded.
  intros E. inv_all. tests. statuses. split; [congruence | lia].
Qed.

Lemma _finalizeAuction_step k e l epoch l' :
  OrderBook.wf (orderbook_of l epoch) -> typed e ->
  status (auction_of l epoch) = INITIALIZED ->
  _finalizeAuction k e l epoch = Ok l' ->
  exists a', l' = set_auction epoch a' l /\ auction_step (auction_of l epoch) a'.
Proof.
  intros Hwf Hty Hst E.
  rewrite FinalizeFacts._finalizeAuction_finalize_check in E by apply Hwf.
  eapply finalize_check_step; eassumption.
Qed.

Lemma _addOrder_with_order k e l epoch price size :
  _addOrder k e l epoch price size
  = if startTime (auction_of l epoch) <=? block_timestamp e
    then _finalizeAuction k e (with_order e l epoch price size) epoch
    else Ok (with_order e l epoch price size).
Proof. reflexivity. Qed.

Lemma with_order_book_wf e l epoch price size :
  OrderBook.wf (orderbook_of l epoch) -> 0 <= size ->
  OrderBook.wf (orderbook_of (with_order e l epoch price size) epoch).
Proof.
  intros Hwf Hsz. unfold with_order. reads. rewrite decide_True by reflexivity.
  apply OrderBookFacts.wf_insert; assumption.
Qed.

Lemma _addOrder_step k e l epoch price size l' :
  layout_wf l -> typed e ->
  status (auction_of l epoch) = INITIALIZED -> minSize l <= size ->
  _addOrder k e l epoch price size = Ok l' ->
  transaction_step l l'.
Proof.
  intros (Hmin & Hbooks & _) Hty Hst Hsz. rewrite _addOrder_with_order.
  destruct (startTime (auction_of l epoch) <=? block_timestamp e).
  - intros E. apply _finalizeAuction_step in E as (a' & -> & Hstep);
      [| apply with_order_book_wf; [apply Hbooks | lia] | exact Hty | exact Hst].
    unfold with_order in *.
    eapply (transaction_step_intro _ _ epoch (msg_sender e));
      [reflexivity | same_reads | same_reads | same_reads
      | right; exact Hstep
      | right; apply book_insert; exact Hsz
      | apply set_add].
  - intros [= <-]. unfold with_order.
    eapply (transaction_step_intro _ _ epoch (msg_sender e));
      [reflexivity | same_reads | same_reads | same_reads
      | left; reflexivity
      | right; apply book_insert; exact Hsz
      | apply set_add].
Qed.

Lemma _validateLimitOrder_Ok l price size cost :
  _validateLimitOrder l price size = Ok cost -> minSize l <= size.
Proof.
  unfold _validateLimitOrder. intros E. inv_all. tests. assumption.
Qed.

Lemma _validateMarketOrder_Ok e l a size maxCost r :
  _validateMarketOrder e l a size maxCost = Ok r -> minSize l <= size.
Proof.
  unfold _validateMarketOrder. intros E. inv_all. tests. assumption.
Qed.

(** The book a withdrawal leaves is the old one less some orders. *)
Lemma previewWithdraw_turn_book isPreview buyer lp a w w' :
  previewWithdraw_turn isPreview buyer lp a w = Ok w' ->
  OrderBook.lastId (w_orderbook w') = OrderBook.lastId (w_orderbook w) /\
  sublist (OrderBook.orders (w_orderbook w')) (OrderBook.orders (w_orderbook w)).
Proof.
  unfold previewWithdraw_turn. intros E.
  destruct (OrderBook.buyer _ =? buyer); inv_all; subst; cbn [w_orderbook].
  - destruct isPreview; [split; reflexivity|].
    apply OrderBookFacts.remove_sublist.
  - split; reflexivity.
Qed.

Lemma previewWithdraw_loop_book n isPreview buyer lp a :
  forall w w',
  previewWithdraw_loop n isPreview buyer lp a w = Ok w' ->
  OrderBook.lastId (w_orderbook w') = OrderBook.lastId (w_orderbook w) /\
  sublist (OrderBook.orders (w_orderbook w')) (OrderBook.orders (w_orderbook w)).
Proof.
  induction n as [|n IH]; intros w w'; simpl.
  - intros [= <-]. split; reflexivity.
  - intros E. apply bind_Ok in E as (w1 & E1 & E).
    apply previewWithdraw_turn_book in E1 as (Hl1 & Hs1).
    apply IH in E as (Hl2 & Hs2). split; [congruence | etrans; eassumption].
Qed.

Lemma _previewWithdraw_step e l isPreview epoch buyer refund fill l' :
  _previewWithdraw e l isPreview epoch buyer = Ok (refund, fill, l') ->
  l' = l \/
  exists b', l' = set_orderbook epoch b' l /\
             book_step (minSize l) (orderbook_of l epoch) b'.
Proof.
  unfold _previewWithdraw. intros E.
  apply bind_Ok in E as (lp & _ & E). apply bind_Ok in E as (w & Hw & E).
  apply previewWithdraw_loop_book in Hw as (Hl & Hs). cbn [w_orderbook] in *.
  injection E as _ _ <-.
  destruct isPreview; [left; reflexivity|]. right.
  eexists. split; [reflexivity|]. apply book_remove; assumption.
Qed.

Lemma _withdraw_step k e l epoch l' fx :
  _withdraw k e l epoch = Ok (l', fx) -> transaction_step l l'.
Proof.
  unfold _withdraw. intros E.
  apply bind_Ok in E as ([[refund fill] l1] & Hp & E). inv_all. subst l'.
  apply _previewWithdraw_step in Hp as [->|(b' & -> & Hb)].
  - eapply (transaction_step_intro _ _ epoch (msg_sender e));
      [reflexivity | same_reads | same_reads | same_reads
      | left; reflexivity | left; reflexivity | apply set_remove].
  - eapply (transaction_step_intro _ _ epoch (msg_sender e));
      [reflexivity | same_reads | same_reads | same_reads
      | left; reflexivity | right; exact Hb | apply set_remove].
Qed.

Lemma cancelLimitOrder_step k e l epoch key l' fx :
  layout_wf l -> typed e ->
  cancelLimitOrder k e l epoch key = Ok (l', fx) -> transaction_step l l'.
Proof.
  intros (Hmin & Hbooks & _) Hty. unfold cancelLimitOrder. intros E.
  apply bind_Ok in E as (u & Hallowed & E).
  apply limitOrdersAllowed_Ok in Hallowed as (Hst & _).
  apply bind_Ok in E as (u1 & _ & E). apply bind_Ok in E as (u2 & _ & E).
  apply bind_Ok in E as (u3 & _ & E). apply bind_Ok in E as (l2 & Hfin & E).
  apply bind_Ok in E as (cost & _ & E). injection E as <- _.
  set (who := OrderBook.buyer (OrderBook._getOrderById (orderbook_of l epoch) key)) in *.
  assert (Hbook : book_step (minSize l) (orderbook_of l epoch)
                    (snd (OrderBook._remove (orderbook_of l epoch) key))).
  { apply book_remove; apply OrderBookFacts.remove_sublist. }
  destruct (startTime (auction_of l epoch) <=? block_timestamp e).
  - apply _finalizeAuction_step in Hfin as (a' & -> & Hstep);
      [| | exact Hty | exact Hst].
    + eapply (transaction_step_intro _ _ epoch who);
        [reflexivity | same_reads | same_reads | same_reads
        | right; exact Hstep | right; exact Hbook | ].
      reads. apply set_remove.
    + reads. rewrite decide_True by reflexivity.
      destruct (OrderBookFacts.remove_sublist (orderbook_of l epoch) key).
      eapply OrderBookFacts.wf_sublist; [apply Hbooks | eassumption..].
  - injection Hfin as <-.
    eapply (transaction_step_intro _ _ epoch who);
      [reflexivity | same_reads | same_reads | same_reads
      | left; reflexivity | right; exact Hbook | ].
    reads. apply set_remove.
Qed.

Lemma auction_write_step l epoch a' :
  auction_step (auction_of l epoch) a' -> transaction_step l (set_auction epoch a' l).
Proof.
  intros Hstep. eapply (transaction_step_intro _ _ epoch 0);
    [reflexivity | same_reads | same_reads | same_reads
    | right; exact Hstep | left; reflexivity | apply set_same].
Qed.

Lemma initialize_step k e l i l' :
  initialize k e l i = Ok l' -> transaction_step l l'.
Proof.
  unfold initialize. intros E.
  apply bind_Ok in E as (u & _ & E). apply bind_Ok in E as (u1 & Hst & E).
  apply require_Ok, status_eqb_eq in Hst.
  match type of E with (if ?c then _ else _) = _ => destruct c end;
    injection E as <-; apply auction_write_step.
  - apply step_initialize_cancel. exact Hst.
  - apply step_initialize. exact Hst.
Qed.

Lemma setAuctionPrices_step k e l epoch maxPrice minPrice l' :
  setAuctionPrices k e l epoch maxPrice minPrice = Ok l' -> transaction_step l l'.
Proof.
  unfold setAuctionPrices. intros E.
  apply bind_Ok in E as (u & _ & E). apply bind_Ok in E as (u1 & Hst & E).
  apply require_Ok, status_eqb_eq in Hst. symmetry in Hst.
  match type of E with (if ?c then _ else _) = _ => destruct c eqn:Hc end;
    injection E as <-; apply auction_write_step.
  - apply step_prices_cancel. exact Hst.
  - apply step_prices; [exact Hst|]. cbn [maxPrice64x64 minPrice64x64 set_prices] in Hc.
    apply orb_false_iff in Hc as (Hc & Hlt). apply orb_false_iff in Hc as (_ & Hmin).
    tests. lia.
Qed.

Lemma finalizeAuction_step k e l epoch l' :
  layout_wf l -> typed e ->
  finalizeAuction k e l epoch = Ok l' -> transaction_step l l'.
Proof.
  intros (_ & Hbooks & _) Hty. unfold finalizeAuction. intros E.
  apply bind_Ok in E as (timeout & _ & E). revert E.
  destruct ((timeout <=? block_timestamp e) && _) eqn:Hc.
  - intros [= <-]. apply auction_write_step, step_timeout.
    apply andb_true_iff in Hc as (_ & Hc). apply orb_true_iff in Hc.
    rewrite !status_eqb_eq in Hc. exact Hc.
  - destruct ((startTime _ <? block_timestamp e) && _) eqn:Hc'; intros E.
    + apply andb_true_iff in Hc' as (_ & Hst). apply status_eqb_eq in Hst.
      apply _finalizeAuction_step in E as (a' & -> & Hstep);
        [| apply Hbooks | exact Hty | exact Hst].
      apply auction_write_step. exact Hstep.
    + injection E as <-. apply transaction_step_refl.
Qed.

Lemma transferPremium_Ok k e l epoch p l' fx :
  transferPremium k e l epoch = Ok (p, l', fx) ->
  msg_sender e = Vault k /\
  status (auction_of l epoch) = FINALIZED /\
  totalPremiums (auction_of l epoch) <= 0 /\
  ABDKMath64x64.mulu (lastPrice64x64 (auction_of l epoch))
    (totalContractsSold (auction_of l epoch)) = Ok p /\
  l' = set_auction epoch (set_totalPremiums p (auction_of l epoch)) l /\
  fx = [ERC20_safeTransfer (Vault k) p].
Proof.
  unfold transferPremium, onlyVault. intros E.
  apply bind_Ok in E as (u & Hv & E). apply bind_Ok in E as (u1 & Hst & E).
  apply bind_Ok in E as (u2 & Hp & E). apply bind_Ok in E as (p' & Hm & E).
  apply require_Ok, Z.eqb_eq in Hv. apply require_Ok, status_eqb_eq in Hst.
  apply require_Ok, Z.leb_le in Hp. cbn [totalPremiums set_totalPremiums] in E.
  injection E as <- <- <-. repeat split; try assumption. congruence.
Qed.

Lemma transferPremium_step k e l epoch p l' fx :
  transferPremium k e l epoch = Ok (p, l', fx) -> transaction_step l l'.
Proof.
  intros E. apply transferPremium_Ok in E as (_ & Hst & Hp & Hm & -> & _).
  apply auction_write_step, step_premium; assumption.
Qed.

Lemma processAuction_step k e l epoch l' :
  processAuction k e l epoch = Ok l' -> transaction_step l l'.
Proof.
  unfold processAuction. intros E.
  apply bind_Ok in E as (u & _ & E). apply bind_Ok in E as (u1 & Hst & E).
  apply bind_Ok in E as (u2 & _ & E). injection E as <-.
  apply require_Ok, status_eqb_eq in Hst.
  apply auction_write_step, step_processed. symmetry. exact Hst.
Qed.

Lemma setExchangeHelper_step k e l a l' :
  setExchangeHelper k e l a = Ok l' -> transaction_step l l'.
Proof.
  unfold setExchangeHelper. intros E. inv_all. subst l'.
  split; [reflexivity|]. split; [|split]; intros x;
    [left; reflexivity | left; reflexivity | apply set_same].
Qed.

(** Whatever the transaction, each part of the storage makes at most one
    step. *)
Lemma exec_step k e c l l' fx :
  layout_wf l -> typed e -> exec k e c l = Ok (l', fx) -> transaction_step l l'.
Proof.
  intros Hwf Hty. destruct c; cbn [exec]; unfold no_effect; intros E.
  - apply bind_Ok in E as (l1 & E1 & E). injection E as <- _.
    eapply setExchangeHelper_step; eassumption.
  - apply bind_Ok in E as (l1 & E1 & E). injection E as <- _.
    eapply initialize_step; eassumption.
  - apply bind_Ok in E as (l1 & E1 & E). injection E as <- _.
    eapply setAuctionPrices_step; eassumption.
  - unfold addLimitOrder in E.
    apply bind_Ok in E as (u & Hallowed & E). apply bind_Ok in E as (cost & Hcost & E).
    apply bind_Ok in E as ([credited fx1] & _ & E). apply bind_Ok in E as (due & _ & E).
    apply bind_Ok in E as (l1 & Hadd & E). injection E as <- _.
    apply limitOrdersAllowed_Ok in Hallowed as (Hst & _).
    apply _validateLimitOrder_Ok in Hcost.
    eapply _addOrder_step; eassumption.
  - unfold swapAndAddLimitOrder in E.
    apply bind_Ok in E as (u & Hallowed & E). apply bind_Ok in E as (cost & Hcost & E).
    apply bind_Ok in E as ([credited fx1] & _ & E).
    apply bind_Ok in E as (l1 & Hadd & E). injection E as <- _.
    apply limitOrdersAllowed_Ok in Hallowed as (Hst & _).
    apply _validateLimitOrder_Ok in Hcost.
    eapply _addOrder_step; eassumption.
  - eapply cancelLimitOrder_step; eassumption.
  - unfold addMarketOrder in E.
    apply bind_Ok in E as (u & Hallowed & E).
    apply bind_Ok in E as ([price cost] & Hcost & E).
    apply bind_Ok in E as ([credited fx1] & _ & E). apply bind_Ok in E as (due & _ & E).
    apply bind_Ok in E as (l1 & Hadd & E). injection E as <- _.
    apply marketOrdersAllowed_Ok in Hallowed as (Hst & _).
    apply _validateMarketOrder_Ok in Hcost.
    eapply _addOrder_step; eassumption.
  - unfold swapAndAddMarketOrder in E.
    apply bind_Ok in E as (u & Hallowed & E).
    apply bind_Ok in E as ([price cost] & Hcost & E).
    apply bind_Ok in E as ([credited fx1] & _ & E).
    apply bind_Ok in E as (l1 & Hadd & E). injection E as <- _.
    apply marketOrdersAllowed_Ok in Hallowed as (Hst & _).
    apply _validateMarketOrder_Ok in Hcost.
    eapply _addOrder_step; eassumption.
  - unfold withdraw in E.
    apply bind_Ok in E as (u & _ & E). apply bind_Ok in E as (u1 & _ & E).
    eapply _withdraw_step; eassumption.
  - apply bind_Ok in E as (l1 & E1 & E). injection E as <- _.
    eapply finalizeAuction_step; eassumption.
  - apply bind_Ok in E as ([[p l1] fx1] & E1 & E). injection E as <- _.
    eapply transferPremium_step; eassumption.
  - apply bind_Ok in E as (l1 & E1 & E). injection E as <- _.
    eapply processAuction_step; eassumption.
Qed.

End TransactionFacts.

(** ** Invariants of the reachable storages *)

Module InvariantFacts.

Import AuctionStorage Auction AuctionSpec StorageFacts StepFacts TransactionFacts.

Lemma book_step_wf m b b' :
  0 <= m -> OrderBook.wf b -> book_step m b b' -> OrderBook.wf b'.
Proof.
  intros Hm Hwf Hstep. inversion Hstep as [b0 price size who Hsz | b0 b1 Hl Hs]; subst.
  - apply OrderBookFacts.wf_insert; [exact Hwf | lia].
  - eapply OrderBookFacts.wf_sublist; eassumption.
Qed.

Lemma set_step_NoDup s s' : NoDup s -> set_step s s' -> NoDup s'.
Proof.
  intros Hnd Hstep. inversion Hstep as [s0 | s0 v | s0 v]; subst; [exact Hnd | |].
  - apply EnumerableSetFacts.add_NoDup. exact Hnd.
  - apply EnumerableSetFacts.remove_NoDup. exact Hnd.
Qed.

Lemma transaction_step_wf l l' :
  layout_wf l -> transaction_step l l' -> layout_wf l'.
Proof.
  intros (Hm & Hb & Hs) (Em & _ & Hbs & Hss). split; [lia|]. split.
  - intros ep. destruct (Hbs ep) as [->|Hstep]; [apply Hb|].
    eapply book_step_wf; [exact Hm | apply Hb | exact Hstep].
  - intros who. eapply set_step_NoDup; [apply Hs | apply Hss].
Qed.

Lemma initial_wf minSize exchange : 0 <= minSize -> layout_wf (initial minSize exchange).
Proof.
  intros Hm. split; [exact Hm|]. split.
  - intros ep. unfold orderbook_of, initial. simpl. rewrite lookup_total_empty.
    apply OrderBookFacts.wf_empty.
  - intros who. unfold epochs_of, initial. simpl. rewrite lookup_total_empty.
    constructor.
Qed.

Lemma reachable_wf k l : reachable k l -> layout_wf l.
Proof.
  induction 1 as [minSize exchange Hm | l e c l' fx Hr IH Hty E].
  - apply initial_wf. exact Hm.
  - eapply transaction_step_wf; [exact IH|]. eapply exec_step; eassumption.
Qed.

Lemma reachable_from_reachable k l l' :
  reachable k l -> reachable_from k l l' -> reachable k l'.
Proof.
  intros Hr. induction 1 as [|l1 e c l2 fx Hf IH Hty E]; [exact Hr|].
  eapply reachable_exec; eassumption.
Qed.

(** A property of the records that holds of the empty record and that
    every step keeps holds in every reachable storage. *)
Lemma reachable_auction_invariant k (P : Auction -> Prop) :
  P zeroAuction ->
  (forall a a', P a -> auction_step a a' -> P a') ->
  forall l, reachable k l -> forall epoch, P (auction_of l epoch).
Proof.
  intros H0 Hstep l Hr. induction Hr as [minSize exchange Hm | l e c l' fx Hr IH Hty E].
  - intros ep. unfold auction_of, initial. simpl. rewrite lookup_total_empty. exact H0.
  - intros ep. pose proof (exec_step k e c l l' fx (reachable_wf k l Hr) Hty E)
      as (_ & Has & _).
    destruct (Has ep) as [->|Ha]; [apply IH|]. eapply Hstep; [apply IH | exact Ha].
Qed.

(** The same from a reachable storage on. *)
Lemma reachable_from_auction_invariant k (P : Auction -> Prop) l epoch :
  reachable k l ->
  (forall a a', P a -> auction_step a a' -> P a') ->
  P (auction_of l epoch) ->
  forall l', reachable_from k l l' -> P (auction_of l' epoch).
Proof.
  intros Hr Hstep H0 l' Hf. induction Hf as [|l1 e c l2 fx Hf IH Hty E]; [exact H0|].
  pose proof (reachable_from_reachable k l l1 Hr Hf) as Hr1.
  pose proof (exec_step k e c l1 l2 fx (reachable_wf k l1 Hr1) Hty E) as (_ & Has & _).
  destruct (Has epoch) as [->|Ha]; [exact IH|]. eapply Hstep; [exact IH | exact Ha].
Qed.

Lemma sold_bounded_step a a' : sold_bounded a -> auction_step a a' -> sold_bounded a'.
Proof.
  unfold sold_bounded. intros H Hstep.
  inversion Hstep as [ | | | | | ? t s p fin Hst Ht Hsame Hs | | ]; subst;
    try (simpl; exact H).
  destruct fin; simpl; exact Hs.
Qed.

End InvariantFacts.

(** ** The scenarios are reachable *)

Module ScenarioFacts.

Import AuctionStorage Auction Scenario.

Lemma auctionEnv_typed t who : 0 <= t -> typed (auctionEnv t who).
Proof. intros Ht. repeat split; simpl; lia. Qed.

Lemma run_reachable calls :
  forall l l',
  reachable auctionK l -> Forall (fun ec => typed ec.1) calls ->
  run calls l = Ok l' -> reachable auctionK l'.
Proof.
  induction calls as [|[e c] calls IH]; intros l l' Hr Hty; simpl.
  - intros [= <-]. exact Hr.
  - intros E. apply bind_Ok in E as ([l1 fx] & E1 & E).
    apply Forall_cons in Hty as (Hty1 & Hty).
    eapply IH; [|exact Hty|exact E]. eapply reachable_exec; eassumption.
Qed.

Lemma run_state calls l l' :
  reachable auctionK l -> Forall (fun ec => typed ec.1) calls ->
  run calls l = Ok l' -> reachable auctionK (state_of (run calls l)).
Proof. intros Hr Hty E. rewrite E. simpl. eapply run_reachable; eassumption. Qed.

Ltac scenario prev :=
  eapply run_state;
  [ exact prev
  | repeat constructor; simpl; lia
  | vm_compute; reflexivity ].

Lemma initialized_reachable : reachable auctionK initialized.
Proof. scenario (reachable_initial auctionK 1 0 ltac:(lia)). Qed.

Lemma opened_reachable : reachable auctionK opened.
Proof. scenario initialized_reachable. Qed.

Lemma one_bid_reachable : reachable auctionK one_bid.
Proof. scenario opened_reachable. Qed.

Lemma two_bids_reachable : reachable auctionK two_bids.
Proof. scenario opened_reachable. Qed.

Lemma filled_reachable : reachable auctionK filled.
Proof. scenario opened_reachable. Qed.

Lemma processed_reachable : reachable auctionK processed.
Proof. scenario filled_reachable. Qed.

End ScenarioFacts.

(** ** The premiums of an auction *)

Module PremiumFacts.

Import AuctionStorage Auction AuctionSpec StorageFacts StepFacts TransactionFacts
  InvariantFacts.

Lemma premiums_settled_step a a' :
  premiums_settled a -> auction_step a a' -> premiums_settled a'.
Proof.
  unfold premiums_settled. intros (Hs & Hp & Hopen & Hdone) Hstep.
  inversion Hstep as
    [ ? i Hst | ? Hst | ? M m Hst | ? M m Hst | ? Hst
    | ? t s p fin Hst Ht Hsame Hsold | ? p Hst Hle Hm | ? t Hst ]; subst; simpl;
  try (destruct fin; simpl);
  repeat split; try assumption; try lia;
    try (intros [?|?]; discriminate); try (intros [?|?]; congruence).
  all: try solve [intros _; apply Hopen; auto].
  all: try solve [intros _; left; apply Hopen; auto].
  all: try solve [apply ABDKFacts.mulu_Ok in Hm; [lia | exact Hs]].
  all: try solve [intros _; right; exact Hm].
  all: try solve [intros _; apply Hdone; auto].
Qed.

Lemma premiums_transferred_step a a' :
  premiums_transferred a -> auction_step a a' -> premiums_transferred a'.
Proof.
  unfold premiums_transferred. intros H Hstep.
  inversion Hstep as
    [ ? i Hst | ? Hst | ? M m Hst | ? M m Hst | ? Hst
    | ? t s p fin Hst Ht Hsame Hsold | ? p Hst Hle Hm | ? t Hst ]; subst; simpl;
    try (right; right; reflexivity);
    try (right; left; reflexivity);
    try (exfalso; destruct H as [[H ?]|[H|H]]; congruence).
  exfalso. destruct H as [[H ?]|[H|H]]; try congruence. lia.
Qed.

Lemma premiums_transferred_reverts k e l epoch :
  premiums_transferred (auction_of l epoch) ->
  exists msg, transferPremium k e l epoch = Revert msg.
Proof.
  intros H. unfold transferPremium.
  destruct (onlyVault k e) as [u|msg]; [|eexists; reflexivity]. rewrite Ok_bind.
  destruct H as [[Hst Hp]|[Hst|Hst]]; rewrite Hst; simpl status_eqb;
    try (eexists; reflexivity).
  rewrite require_true, Ok_bind.
  replace (totalPremiums (auction_of l epoch) <=? 0) with false
    by (symmetry; apply Z.leb_gt; exact Hp).
  eexists. reflexivity.
Qed.

(** C4 (as amended): in a reachable storage, the premiums of a Finalized
    or Processed auction are zero or the last price times the contracts
    sold; [transferPremium] succeeds only for the vault on a Finalized
    auction whose premiums are zero, then sets them to the last price times
    the contracts sold and transfers that amount to the vault; once a
    positive amount has been transferred every later [transferPremium] of
    the epoch reverts, whereas a transfer of zero leaves the record as it
    was, so that the vault can have zero transferred again. *)
Theorem C4_premium_at_most_once (k : Immutables) (l : Layout) (epoch : Z) :
  reachable k l ->
  (status (auction_of l epoch) = FINALIZED \/ status (auction_of l epoch) = PROCESSED ->
   totalPremiums (auction_of l epoch) = 0 \/
   ABDKMath64x64.mulu (lastPrice64x64 (auction_of l epoch))
     (totalContractsSold (auction_of l epoch))
   = Ok (totalPremiums (auction_of l epoch))) /\
  (forall e p l' fx,
     typed e -> transferPremium k e l epoch = Ok (p, l', fx) ->
     msg_sender e = Vault k /\
     status (auction_of l epoch) = FINALIZED /\
     totalPremiums (auction_of l epoch) = 0 /\
     ABDKMath64x64.mulu (lastPrice64x64 (auction_of l epoch))
       (totalContractsSold (auction_of l epoch)) = Ok p /\
     totalPremiums (auction_of l' epoch) = p /\
     status (auction_of l' epoch) = FINALIZED /\
     fx = [ERC20_safeTransfer (Vault k) p] /\
     (0 < p ->
      forall l'' e', reachable_from k l' l'' ->
                     exists msg, transferPremium k e' l'' epoch = Revert msg) /\
     (p = 0 ->
      auction_of l' epoch = auction_of l epoch /\
      forall e', msg_sender e' = Vault k ->
                 transferPremium k e' l' epoch
                 = Ok (0, l', [ERC20_safeTransfer (Vault k) 0]))).
Proof.
  intros Hr.
  assert (Hinv : premiums_settled (auction_of l epoch)).
  { apply (reachable_auction_invariant k premiums_settled); [| |exact Hr].
    - unfold premiums_settled. simpl. repeat split; try lia; auto.
    - apply premiums_settled_step. }
  destruct Hinv as (Hs & Hp & Hopen & Hdone).
  split; [exact Hdone|].
  intros e p l' fx Hty E.
  pose proof (transferPremium_Ok _ _ _ _ _ _ _ E) as (Hv & Hst & Hle & Hm & -> & ->).
  rewrite auction_of_set_auction. simpl.
  assert (Hzero : totalPremiums (auction_of l epoch) = 0) by lia.
  split; [assumption|]. split; [assumption|]. split; [exact Hzero|].
  split; [assumption|]. split; [reflexivity|]. split; [assumption|].
  split; [reflexivity|]. split.
  - intros Hpos l'' e' Hfrom.
    apply premiums_transferred_reverts.
    apply (reachable_from_auction_invariant k premiums_transferred
             (set_auction epoch (set_totalPremiums p (auction_of l epoch)) l) epoch).
    + eapply (reachable_exec k l e (TransferPremium epoch)); [exact Hr | exact Hty|].
      cbn [exec]. rewrite E. reflexivity.
    + apply premiums_transferred_step.
    + left. rewrite auction_of_set_auction. simpl. split; assumption.
    + exact Hfrom.
  - intros ->.
    assert (Hsame : set_totalPremiums 0 (auction_of l epoch) = auction_of l epoch).
    { rewrite <- Hzero. destruct (auction_of l epoch). reflexivity. }
    rewrite Hsame. split; [reflexivity|]. intros e' Hvault.
    unfold transferPremium. rewrite PriceFacts.onlyVault_Ok, Ok_bind by exact Hvault.
    rewrite auction_of_set_auction, Hst. cbn [status_eqb].
    rewrite require_true, Ok_bind, Hzero. cbn [Z.leb Z.compare].
    rewrite require_true, Ok_bind. unfold _lastPrice64x64. rewrite Hm, Ok_bind.
    rewrite Hsame. cbn [totalPremiums set_totalPremiums].
    rewrite Hzero. unfold set_auction.
    cbn [auctions minSize orderbooks epochsByBuyer Exchange].
    rewrite insert_insert_eq. reflexivity.
Qed.

Lemma C4_premium_at_most_once_witness :
  exists p l' fx,
    transferPremium Scenario.auctionK (Scenario.auctionEnv 3000 900) Scenario.filled 0
      = Ok (p, l', fx) /\
    p = 100000 /\
    totalPremiums (auction_of l' 0) = p /\
    fx = [ERC20_safeTransfer 900 p] /\
    (0 < p ->
     forall l'' e', reachable_from Scenario.auctionK l' l'' ->
                    exists msg, transferPremium Scenario.auctionK e' l'' 0 = Revert msg).
Proof.
  destruct (transferPremium Scenario.auctionK (Scenario.auctionEnv 3000 900)
              Scenario.filled 0) as [[[p l'] fx]|msg] eqn:E;
    [|vm_compute in E; discriminate E].
  exists p, l', fx. split; [reflexivity|].
  destruct (C4_premium_at_most_once Scenario.auctionK Scenario.filled 0
              ScenarioFacts.filled_reachable) as (_ & H).
  destruct (H _ p l' fx (ScenarioFacts.auctionEnv_typed 3000 900 ltac:(lia)) E)
    as (_ & _ & _ & Hm & Hp & _ & Hfx & Honce & _).
  split; [|split; [exact Hp | split; [exact Hfx | exact Honce]]].
  vm_compute in Hm. injection Hm as <-. reflexivity.
Defined.

(** C4 (as stated) fails when the premium is zero.  Nobody has bid in the
    auction of the scenario, which is finalized after its end with nothing
    sold: [transferPremium] succeeds, transfers 0 to the vault and leaves
    the premiums at 0, and it succeeds a second time. *)
Lemma C4_zero_premium_transferred_twice :
  reachable Scenario.auctionK Scenario.unsold
  /\ status (auction_of Scenario.unsold 0) = FINALIZED
  /\ totalContractsSold (auction_of Scenario.unsold 0) = 0
  /\ exists l' l'',
       transferPremium Scenario.auctionK (Scenario.auctionEnv 2600 900) Scenario.unsold 0
       = Ok (0, l', [ERC20_safeTransfer 900 0])
       /\ totalPremiums (auction_of l' 0) = 0
       /\ transferPremium Scenario.auctionK (Scenario.auctionEnv 2700 900) l' 0
          = Ok (0, l'', [ERC20_safeTransfer 900 0]).
Proof.
  split.
  { eapply ScenarioFacts.run_state;
      [ exact ScenarioFacts.opened_reachable
      | repeat constructor; simpl; lia
      | vm_compute; reflexivity ]. }
  split; [reflexivity|]. split; [reflexivity|].
  eexists _, _. split; [vm_compute; reflexivity|].
  split; [reflexivity|]. vm_compute. reflexivity.
Qed.

End PremiumFacts.

(** ** Cancelling a limit order *)

Module CancelFacts.

Import AuctionStorage Auction AuctionSpec StorageFacts StepFacts TransactionFacts
  InvariantFacts.

(** The finalize-check writes the record of its auction and nothing else. *)
Lemma _finalizeAuction_writes k e l epoch l' :
  _finalizeAuction k e l epoch = Ok l' -> exists a', l' = set_auction epoch a' l.
Proof.
  unfold _finalizeAuction, _processOrders. intros E.
  apply bind_Ok in E as ([filled l1] & E1 & E).
  apply bind_Ok in E1 as (t & _ & E1). apply bind_Ok in E1 as (r & _ & E1).
  assert (Hl1 : exists a1, l1 = set_auction epoch a1 l).
  { destruct r as [p|[s p]]; injection E1 as _ <-; eexists; reflexivity. }
  destruct Hl1 as (a1 & ->).
  destruct (filled || _); injection E as <-; [|eexists; reflexivity].
  eexists. unfold set_auction. simpl. rewrite insert_insert_eq. reflexivity.
Qed.

(** A cancel that succeeds: the order is the caller's, and the storage is
    the one without the order, after the finalize-check when the auction
    has started. *)
Lemma cancelLimitOrder_Ok k e l epoch key l' fx :
  cancelLimitOrder k e l epoch key = Ok (l', fx) ->
  status (auction_of l epoch) = INITIALIZED /\
  OrderBook.buyer (OrderBook._getOrderById (orderbook_of l epoch) key) = msg_sender e /\
  (if startTime (auction_of l epoch) <=? block_timestamp e
   then _finalizeAuction k e (without_order l epoch key (msg_sender e)) epoch = Ok l'
   else l' = without_order l epoch key (msg_sender e)).
Proof.
  unfold cancelLimitOrder. intros E.
  apply bind_Ok in E as (u & Hallowed & E).
  apply limitOrdersAllowed_Ok in Hallowed as (Hst & _).
  apply bind_Ok in E as (u1 & _ & E). apply bind_Ok in E as (u2 & _ & E).
  apply bind_Ok in E as (u3 & Hbuyer & E). apply bind_Ok in E as (l2 & Hfin & E).
  apply bind_Ok in E as (cost & _ & E). injection E as <- _.
  apply require_Ok, Z.eqb_eq in Hbuyer.
  rewrite Hbuyer in Hfin. unfold without_order.
  split; [exact Hst|]. split; [exact Hbuyer|].
  destruct (startTime (auction_of l epoch) <=? block_timestamp e);
    [exact Hfin | injection Hfin as <-; reflexivity].
Qed.

(** C10: after a successful [cancelLimitOrder(epoch, id)] the epoch is no
    longer among the epochs of the caller, whatever orders of the caller
    are left in the book of the epoch. *)
Theorem C10_cancel_forgets_epoch (k : Immutables) (e : Env) (l : Layout)
    (epoch key : Z) (l' : Layout) (fx : list Effect) :
  reachable k l ->
  cancelLimitOrder k e l epoch key = Ok (l', fx) ->
  epoch ∉ getEpochsByBuyer l' (msg_sender e).
Proof.
  intros Hr E. apply cancelLimitOrder_Ok in E as (_ & _ & E).
  destruct (reachable_wf k l Hr) as (_ & _ & Hsets).
  assert (Hgone : epoch ∉ epochs_of (without_order l epoch key (msg_sender e))
                            (msg_sender e)).
  { unfold without_order. reads. rewrite decide_True by reflexivity.
    apply EnumerableSetFacts.remove_not_elem. apply Hsets. }
  unfold getEpochsByBuyer.
  destruct (startTime (auction_of l epoch) <=? block_timestamp e).
  - apply _finalizeAuction_writes in E as (a' & ->). exact Hgone.
  - subst l'. exact Hgone.
Qed.

(** Buyer 1 holds two orders of epoch 0 and cancels the first: the second
    is still in the book, yet epoch 0 has left the epochs of the buyer. *)
Lemma C10_cancel_forgets_epoch_witness :
  exists l' fx,
    cancelLimitOrder Scenario.auctionK (Scenario.auctionEnv 50 1) Scenario.two_bids 0 1
      = Ok (l', fx) /\
    OrderBook.buyer (_getOrderById l' 0 2) = 1 /\
    0 ∉ getEpochsByBuyer l' 1.
Proof.
  destruct (cancelLimitOrder Scenario.auctionK (Scenario.auctionEnv 50 1)
              Scenario.two_bids 0 1) as [[l' fx]|msg] eqn:E;
    [|vm_compute in E; discriminate E].
  exists l', fx. split; [reflexivity|]. split.
  - vm_compute in E. injection E as <- _. reflexivity.
  - exact (C10_cancel_forgets_epoch Scenario.auctionK (Scenario.auctionEnv 50 1)
             Scenario.two_bids 0 1 l' fx ScenarioFacts.two_bids_reachable E).
Defined.

End CancelFacts.

(** ** Withdrawing from an auction *)

Module WithdrawFacts.

Import AuctionStorage Auction AuctionSpec StorageFacts InvariantFacts.

(** One turn of the loop settles the order it visits. *)
Lemma previewWithdraw_turn_settles isPreview buyer lp a w w' d :
  OrderBook._getOrderById (w_orderbook w) (w_next w) = d ->
  0 <= OrderBook.size d ->
  previewWithdraw_turn isPreview buyer lp a w = Ok w' ->
  w_totalContractsSold w' = w_totalContractsSold w + OrderBook.size d /\
  w_next w' = OrderBook._getNextOrder (w_orderbook w) (w_next w) /\
  w_orderbook w' =
    (if (OrderBook.buyer d =? buyer) && negb isPreview
     then snd (OrderBook._remove (w_orderbook w) (OrderBook.id d))
     else w_orderbook w) /\
  if OrderBook.buyer d =? buyer then
    w_refund w' + cost lp (totalContracts a) (w_totalContractsSold w) d
      = w_refund w + paid d /\
    w_fill w' = w_fill w + filled lp (totalContracts a) (w_totalContractsSold w) d /\
    0 <= cost lp (totalContracts a) (w_totalContractsSold w) d
  else w_refund w' = w_refund w /\ w_fill w' = w_fill w.
Proof.
  intros Hd Hsize. unfold previewWithdraw_turn. rewrite Hd. clear Hd.
  unfold cost, filled, paid, accepted.
  destruct (OrderBook.buyer d =? buyer); cbn [andb].
  - destruct ((lp <? MAX_64x64) && (lp <=? OrderBook.price64x64 d)).
    + intros E. inv_all. subst.
      repeat match goal with
      | H : uadd _ _ = Ok _ |- _ => apply uadd_Ok in H; destruct H as (-> & ?)
      | H : usub _ _ = Ok _ |- _ => apply usub_Ok in H; destruct H as (-> & ?)
      end.
      revert Hv1.
      destruct (Z.leb_spec (totalContracts a) (w_totalContractsSold w + OrderBook.size d))
        as [Hfull|Hpart]; intros Hv1; inv_all; subst;
      repeat match goal with
      | H : uadd _ _ = Ok _ |- _ => apply uadd_Ok in H; destruct H as (-> & ?)
      | H : usub _ _ = Ok _ |- _ => apply usub_Ok in H; destruct H as (-> & ?)
      end;
      repeat match goal with
      | H : ABDKMath64x64.mulu _ _ = Ok _ |- _ =>
          apply ABDKFacts.mulu_Ok in H; [destruct H as (-> & ? & ?) | lia]
      end; cbn [w_totalContractsSold w_next w_orderbook w_refund w_fill].
      * rewrite Z.min_r by lia. destruct isPreview; repeat split; try reflexivity; lia.
      * rewrite Z.min_l by lia. destruct isPreview; repeat split; try reflexivity; lia.
    + intros E. inv_all. subst.
      repeat match goal with
      | H : uadd _ _ = Ok _ |- _ => apply uadd_Ok in H; destruct H as (-> & ?)
      | H : ABDKMath64x64.mulu _ _ = Ok _ |- _ =>
          apply ABDKFacts.mulu_Ok in H; [destruct H as (-> & ? & ?) | lia]
      end; cbn [w_totalContractsSold w_next w_orderbook w_refund w_fill].
      destruct isPreview; repeat split; try reflexivity; lia.
  - intros E. inv_all. subst.
    repeat match goal with
    | H : uadd _ _ = Ok _ |- _ => apply uadd_Ok in H; destruct H as (-> & ?)
    end. cbn [w_totalContractsSold w_next w_orderbook w_refund w_fill].
    repeat split; reflexivity.
Qed.

Lemma NoDup_ids_without pre d post :
  NoDup (OrderBook.id <$> (pre ++ d :: post)) -> NoDup (OrderBook.id <$> (pre ++ post)).
Proof.
  intros H. eapply sublist_NoDup; [exact H|]. apply fmap_sublist.
  apply sublist_app; [reflexivity|]. apply sublist_cons. reflexivity.
Qed.

Lemma remove_here pre d post c :
  NoDup (OrderBook.id <$> (pre ++ d :: post)) ->
  snd (OrderBook._remove (OrderBook.mkIndex (pre ++ d :: post) c) (OrderBook.id d))
  = OrderBook.mkIndex (pre ++ post) c.
Proof.
  intros Hnd. destruct (OrderBookFacts.NoDup_ids_split _ _ _ Hnd) as (Hpre & Hpost).
  unfold OrderBook._remove. cbn [OrderBook.orders OrderBook.lastId].
  rewrite OrderBookFacts.has_order_here by reflexivity. cbn [snd].
  rewrite OrderBookFacts.drop_order_here by (assumption || reflexivity).
  reflexivity.
Qed.

(** The loop of [_previewWithdraw] settles the orders of the buyer one
    after the other, in the order of the book, whether or not it removes
    them on its way. *)
Lemma previewWithdraw_loop_settles isPreview buyer lp a c post :
  forall pre refund fill sold w',
  NoDup (OrderBook.id <$> (pre ++ post)) ->
  Forall (fun d => 0 <= OrderBook.size d) post ->
  previewWithdraw_loop (List.length post) isPreview buyer lp a
    (mkWalk (OrderBook.mkIndex (pre ++ post) c) (OrderBook.head_id post)
       refund fill sold) = Ok w' ->
  w_refund w' + total_cost buyer lp (totalContracts a) sold post
    = refund + total_paid buyer post /\
  w_fill w' = fill + total_filled buyer lp (totalContracts a) sold post /\
  0 <= total_cost buyer lp (totalContracts a) sold post.
Proof.
  induction post as [|d post IH]; intros pre refund fill sold w' Hnd Hsizes.
  - simpl. intros [= <-]. simpl. lia.
  - cbn [List.length previewWithdraw_loop]. intros E.
    apply bind_Ok in E as (w1 & Hturn & E).
    apply Forall_cons in Hsizes as (Hsize & Hsizes).
    destruct (OrderBookFacts.NoDup_ids_split _ _ _ Hnd) as (Hpre & _).
    eapply (previewWithdraw_turn_settles _ _ _ _ _ _ d) in Hturn;
      [| cbn [w_orderbook w_next OrderBook.head_id];
         unfold OrderBook._getOrderById; cbn [OrderBook.orders];
         apply OrderBookFacts.find_order_here; [assumption | reflexivity]
       | exact Hsize ].
    cbn [w_orderbook w_next w_refund w_fill w_totalContractsSold OrderBook.head_id]
      in Hturn.
    destruct Hturn as (Hsold & Hnext & Hbook & Hsettle).
    unfold OrderBook._getNextOrder in Hnext. cbn [OrderBook.orders] in Hnext.
    rewrite OrderBookFacts.next_of_here in Hnext by (assumption || reflexivity).
    destruct w1 as [book1 next1 refund1 fill1 sold1].
    cbn [w_orderbook w_next w_refund w_fill w_totalContractsSold] in *.
    subst next1 sold1.
    cbn [total_cost total_paid total_filled].
    assert (Hrest :
      w_refund w' + total_cost buyer lp (totalContracts a)
                      (sold + OrderBook.size d) post
        = refund1 + total_paid buyer post /\
      w_fill w' = fill1 + total_filled buyer lp (totalContracts a)
                            (sold + OrderBook.size d) post /\
      0 <= total_cost buyer lp (totalContracts a) (sold + OrderBook.size d) post).
    { destruct ((OrderBook.buyer d =? buyer) && negb isPreview).
      - rewrite remove_here in Hbook by exact Hnd. subst book1.
        eapply (IH pre); [|exact Hsizes|exact E].
        eapply NoDup_ids_without. exact Hnd.
      - subst book1. rewrite FinalizeFacts.cons_app_assoc in E.
        eapply (IH (pre ++ [d])); [|exact Hsizes|exact E].
        rewrite <- FinalizeFacts.cons_app_assoc. exact Hnd. }
    destruct (OrderBook.buyer d =? buyer); lia.
Qed.

(** Whenever the traversal of the order book by [_previewWithdraw] returns,
    with or without removal of the orders, it has conserved value: over the
    orders of the buyer, the refund plus the costs is the sum of
    [price * size], the cost of an order being the clearing price times
    [min(size, remainder)] on a filled portion and zero on an unfilled or
    cancelled one, and the fill is the sum of the filled amounts; so the
    refund never exceeds what the buyer paid in.  (The traversal does not
    always return: the scenario [Scenario.overbid] has it revert.) *)
Lemma previewWithdraw_conserves_value (k : Immutables) (e : Env) (l : Layout)
    (isPreview : bool) (epoch buyer refund fill : Z) (l' : Layout) :
  reachable k l ->
  _previewWithdraw e l isPreview epoch buyer = Ok (refund, fill, l') ->
  exists clearingPrice,
    _clearingPrice64x64 e (auction_of l epoch) = Ok clearingPrice /\
    let book := OrderBook.orders (orderbook_of l epoch) in
    let total := totalContracts (auction_of l epoch) in
    refund + total_cost buyer clearingPrice total 0 book = total_paid buyer book /\
    fill = total_filled buyer clearingPrice total 0 book /\
    0 <= total_cost buyer clearingPrice total 0 book /\
    refund <= total_paid buyer book.
Proof.
  intros Hr E. destruct (reachable_wf k l Hr) as (_ & Hbooks & _).
  destruct (Hbooks epoch) as (_ & Hnd & Hall).
  unfold _previewWithdraw in E.
  apply bind_Ok in E as (lp & Hlp & E). apply bind_Ok in E as (w & Hloop & E).
  injection E as <- <- _. exists lp. split; [exact Hlp|]. cbv zeta.
  unfold OrderBook._length, OrderBook._head in Hloop. rewrite Nat2Z.id in Hloop.
  destruct (orderbook_of l epoch) as [book c]. cbn [OrderBook.orders] in *.
  apply (previewWithdraw_loop_settles _ _ _ _ c book []) in Hloop;
    [| exact Hnd | eapply Forall_impl; [exact Hall | intros d Hd; simpl in Hd; tauto] ].
  destruct Hloop as (Hsum & Hfill & Hcost). lia.
Qed.

(** Buyer 3 of the filled auction paid 20000 for 200 contracts at 100;
    100 contracts are filled at the clearing price 100. *)
Lemma previewWithdraw_conserves_value_example :
  exists refund fill l',
    _previewWithdraw (Scenario.auctionEnv 3000 3) Scenario.processed true 0 3
      = Ok (refund, fill, l') /\
    refund = 10000 /\ fill = 100 /\
    total_paid 3 (OrderBook.orders (orderbook_of Scenario.processed 0)) = 20000 /\
    refund <= total_paid 3 (OrderBook.orders (orderbook_of Scenario.processed 0)).
Proof.
  destruct (_previewWithdraw (Scenario.auctionEnv 3000 3) Scenario.processed true 0 3)
    as [[[refund fill] l']|msg] eqn:E; [|vm_compute in E; discriminate E].
  exists refund, fill, l'. split; [reflexivity|].
  destruct (previewWithdraw_conserves_value Scenario.auctionK _ _ _ _ _ _ _ _
              ScenarioFacts.processed_reachable E) as (lp & _ & _ & _ & _ & Hle).
  vm_compute in E. injection E as <- <- _.
  split; [reflexivity|]. split; [reflexivity|]. split; [vm_compute; reflexivity|].
  exact Hle.
Qed.

(** C1 fails for a buyer whose order is accepted but lies wholly beyond the
    contracts on offer.  Three buyers bid at the highest price, for 900,
    200 and 300 contracts out of 1000; the auction is finalized at 1000
    contracts sold and processed.  Buyer 3, who paid 30000, is owed all of
    it back; but when the traversal reaches the order of buyer 3 the sizes
    met are 1100, and [totalContracts - totalContractsSold] underflows:
    [previewWithdraw] and [withdraw] revert for buyer 3, whereas buyers 1
    and 2 are served.  Once the two of them have withdrawn and their orders
    have left the book, the traversal fills the order of buyer 3 in full:
    1300 contracts are filled out of 1000. *)
Lemma C1_withdraw_reverts_beyond_total :
  reachable Scenario.auctionK Scenario.overbid
  /\ status (auction_of Scenario.overbid 0) = PROCESSED
  /\ totalContracts (auction_of Scenario.overbid 0) = 1000
  /\ totalContractsSold (auction_of Scenario.overbid 0) = 1000
  /\ total_paid 3 (OrderBook.orders (orderbook_of Scenario.overbid 0)) = 30000
  /\ previewWithdraw (Scenario.auctionEnv 100000 3) Scenario.overbid 0 3
     = Revert panic_overflow
  /\ exec Scenario.auctionK (Scenario.auctionEnv 100000 3) (Withdraw 0) Scenario.overbid
     = Revert panic_overflow
  /\ previewWithdraw (Scenario.auctionEnv 100000 1) Scenario.overbid 0 1 = Ok (0, 900)
  /\ previewWithdraw (Scenario.auctionEnv 100000 2) Scenario.overbid 0 2 = Ok (10000, 100)
  /\ reachable Scenario.auctionK Scenario.others_withdrawn
  /\ previewWithdraw (Scenario.auctionEnv 100002 3) Scenario.others_withdrawn 0 3
     = Ok (0, 300).
Proof.
  assert (Hr : reachable Scenario.auctionK Scenario.overbid).
  { eapply ScenarioFacts.run_state;
      [ exact ScenarioFacts.opened_reachable
      | repeat constructor; simpl; lia
      | vm_compute; reflexivity ]. }
  split; [exact Hr|].
  repeat (split; [vm_compute; reflexivity|]).
  split; [|vm_compute; reflexivity].
  eapply ScenarioFacts.run_state;
    [ exact Hr | repeat constructor; simpl; lia | vm_compute; reflexivity ].
Qed.

End WithdrawFacts.

(** ** When the finalize-check runs *)

Module CheckFacts.

Import AuctionStorage Auction AuctionSpec StorageFacts StepFacts TransactionFacts
  InvariantFacts.






End CheckFacts.

(** ** Contracts sold and contracts offered *)

Module SoldFacts.

Import AuctionStorage Auction AuctionSpec StorageFacts StepFacts TransactionFacts
  InvariantFacts.

(** *** What the order-processing step accepts *)

Lemma accepted_size_nonneg p book :
  Forall (fun d => 0 <= OrderBook.size d) book -> 0 <= accepted_size p book.
Proof.
  induction 1 as [|d book Hd Hbook IH]; simpl; [lia|].
  destruct (OrderBook.price64x64 d <? p); lia.
Qed.

(** A lower clearing price accepts no less. *)
Lemma accepted_size_mono p p' book :
  Forall (fun d => 0 <= OrderBook.size d) book -> p' <= p ->
  accepted_size p book <= accepted_size p' book.
Proof.
  intros Hbook Hp. induction Hbook as [|d book Hd Hbook IH]; simpl; [lia|].
  pose proof (accepted_size_nonneg p' book Hbook) as Hpos.
  destruct (Z.ltb_spec (OrderBook.price64x64 d) p) as [Hlow|Hhigh];
    destruct (Z.ltb_spec (OrderBook.price64x64 d) p'); lia.
Qed.

(** A new order takes nothing from what is accepted. *)
Lemma accepted_size_splice p d book :
  Forall (fun d => 0 <= OrderBook.size d) book -> 0 <= OrderBook.size d ->
  accepted_size p book <= accepted_size p (OrderBook.splice d book).
Proof.
  intros Hbook Hd. induction Hbook as [|x book Hx Hbook IH].
  - simpl. destruct (OrderBook.price64x64 d <? p); lia.
  - pose proof (accepted_size_nonneg p book Hbook) as Hpos.
    cbn [OrderBook.splice].
    destruct (Z.ltb_spec (OrderBook.price64x64 x) (OrderBook.price64x64 d)) as [Hlow|Hhigh];
      cbn [accepted_size].
    + destruct (Z.ltb_spec (OrderBook.price64x64 d) p);
        destruct (Z.ltb_spec (OrderBook.price64x64 x) p); lia.
    + destruct (OrderBook.price64x64 x <? p); lia.
Qed.

Lemma splice_not_nil d book : OrderBook.splice d book <> [].
Proof.
  destruct book as [|x book]; simpl; [discriminate|].
  destruct (OrderBook.price64x64 x <? OrderBook.price64x64 d); discriminate.
Qed.

(** The traversal ends on the contracts offered or on the accepted sizes,
    whichever is less. *)
Lemma traverse_accepts p t book :
  Forall (fun d => 0 <= OrderBook.size d) book ->
  forall sold price r,
  0 <= sold <= t ->
  traverse (Ok p) t book sold price = Ok r ->
  match r with AutoFinalize _ => t | Stopped s _ => s end
  = Z.min t (sold + accepted_size p book).
Proof.
  induction 1 as [|d book Hd Hbook IH]; intros sold price r Hs; simpl.
  - intros [= <-]. lia.
  - pose proof (accepted_size_nonneg p book Hbook) as Hpos.
    destruct (OrderBook.price64x64 d <? p); [intros [= <-]; lia|].
    intros E. apply bind_Ok in E as (reached & Hreached & E).
    apply uadd_Ok in Hreached as (-> & _).
    destruct (Z.leb_spec t (sold + OrderBook.size d)); [injection E as <-; lia|].
    apply IH in E; [|lia]. lia.
Qed.

(** *** The clearing price of a running auction *)

Lemma clearing_initialized e a :
  status a = INITIALIZED -> _clearingPrice64x64 e a = _priceCurve64x64 e a.
Proof. intros Hst. unfold _clearingPrice64x64. rewrite Hst. reflexivity. Qed.

Lemma priceCurve_same e a a' :
  startTime a' = startTime a -> endTime a' = endTime a ->
  maxPrice64x64 a' = maxPrice64x64 a -> minPrice64x64 a' = minPrice64x64 a ->
  _priceCurve64x64 e a' = _priceCurve64x64 e a.
Proof. unfold _priceCurve64x64. intros -> -> -> ->. reflexivity. Qed.

Lemma sub_Ok x y r : ABDKMath64x64.sub x y = Ok r -> r = x - y.
Proof. unfold ABDKMath64x64.sub. intros E. inv_ok E. congruence. Qed.

Lemma mul_Ok x y r : ABDKMath64x64.mul x y = Ok r -> r = x * y / 2 ^ 64.
Proof.
  unfold ABDKMath64x64.mul. intros E. inv_ok E.
  rewrite Z.shiftr_div_pow2 in E by lia. congruence.
Qed.

(** What the price curve answers after the start. *)
Lemma priceCurve_after_start e a p :
  startTime a < block_timestamp e -> _priceCurve64x64 e a = Ok p ->
  0 < endTime a - startTime a /\
  p = maxPrice64x64 a
      - (block_timestamp e - startTime a) * 2 ^ 64 / (endTime a - startTime a)
        * (maxPrice64x64 a - minPrice64x64 a) / 2 ^ 64.
Proof.
  intros Hnow. unfold _priceCurve64x64. cbv zeta. intros E.
  apply bind_Ok in E as (total & Htotal & E). apply usub_Ok in Htotal as (-> & Hle).
  replace (block_timestamp e <=? startTime a) with false in E
    by (symmetry; apply Z.leb_gt; exact Hnow).
  apply bind_Ok in E as (elapsed & Hel & E). apply usub_Ok in Hel as (-> & _).
  apply bind_Ok in E as (r & Hr & E). apply ABDKFacts.divu_Ok in Hr as (Hne & -> & _).
  apply bind_Ok in E as (x & Hx & E). apply sub_Ok in Hx as ->.
  apply bind_Ok in E as (y & Hy & E). apply mul_Ok in Hy as ->.
  apply sub_Ok in E as ->. split; [lia | reflexivity].
Qed.

Lemma priceCurve_until_start e a p :
  block_timestamp e <= startTime a -> _priceCurve64x64 e a = Ok p ->
  p = maxPrice64x64 a.
Proof.
  intros Hnow. unfold _priceCurve64x64. cbv zeta. intros E.
  apply bind_Ok in E as (total & _ & E).
  replace (block_timestamp e <=? startTime a) with true in E
    by (symmetry; apply Z.leb_le; exact Hnow).
  congruence.
Qed.

(** The price curve never rises, before, during or after the auction. *)
Lemma priceCurve_falls e e' a p p' :
  block_timestamp e <= block_timestamp e' ->
  minPrice64x64 a <= maxPrice64x64 a ->
  _priceCurve64x64 e a = Ok p -> _priceCurve64x64 e' a = Ok p' -> p' <= p.
Proof.
  intros Hord Hprices E E'.
  destruct (Z.le_gt_cases (block_timestamp e) (startTime a)) as [Hbefore|Hafter].
  - apply priceCurve_until_start in E as ->; [|exact Hbefore].
    destruct (Z.le_gt_cases (block_timestamp e') (startTime a)) as [Hbefore'|Hafter'].
    + apply priceCurve_until_start in E' as ->; [lia | exact Hbefore'].
    + apply priceCurve_after_start in E' as (Htotal & ->); [|lia].
      assert (0 <= (block_timestamp e' - startTime a) * 2 ^ 64 / (endTime a - startTime a)
                   * (maxPrice64x64 a - minPrice64x64 a) / 2 ^ 64); [|lia].
      apply Z.div_pos; [|lia]. apply Z.mul_nonneg_nonneg; [|lia].
      apply Z.div_pos; lia.
  - apply priceCurve_after_start in E as (Htotal & ->); [|lia].
    apply priceCurve_after_start in E' as (_ & ->); [|lia].
    assert ((block_timestamp e - startTime a) * 2 ^ 64 / (endTime a - startTime a)
              * (maxPrice64x64 a - minPrice64x64 a) / 2 ^ 64
            <= (block_timestamp e' - startTime a) * 2 ^ 64 / (endTime a - startTime a)
                 * (maxPrice64x64 a - minPrice64x64 a) / 2 ^ 64); [|lia].
    apply Z.div_le_mono; [lia|]. apply Z.mul_le_mono_nonneg_r; [lia|].
    apply Z.div_le_mono; lia.
Qed.

Lemma prices_ordered_step a a' : prices_ordered a -> auction_step a a' -> prices_ordered a'.
Proof.
  unfold prices_ordered. intros H Hstep.
  inversion Hstep as
    [ ? i Hu | ? Hu | ? M m Hi Hp | ? M m Hi | ? Hi
    | ? t s p fin Hi Ht Hsame Hs | ? p Hf Hle Hm | ? t Hf ]; subst; simpl;
    try (left; reflexivity);
    try (destruct fin; simpl);
    right; destruct H as [H|H]; first [congruence | lia].
Qed.

Lemma reachable_prices_ordered k l epoch :
  reachable k l -> prices_ordered (auction_of l epoch).
Proof.
  intros Hr. apply (reachable_auction_invariant k prices_ordered); [| |exact Hr].
  - right. simpl. lia.
  - apply prices_ordered_step.
Qed.

(** *** What one order-processing step records *)

Lemma finalize_check_accepts k e l epoch l' :
  OrderBook.wf (orderbook_of l epoch) -> typed e ->
  status (auction_of l epoch) = INITIALIZED ->
  finalize_check k e l epoch = Ok l' ->
  orderbook_of l' epoch = orderbook_of l epoch /\
  startTime (auction_of l' epoch) = startTime (auction_of l epoch) /\
  endTime (auction_of l' epoch) = endTime (auction_of l epoch) /\
  maxPrice64x64 (auction_of l' epoch) = maxPrice64x64 (auction_of l epoch) /\
  minPrice64x64 (auction_of l' epoch) = minPrice64x64 (auction_of l epoch) /\
  0 <= totalContracts (auction_of l' epoch) /\
  (0 < totalContracts (auction_of l epoch) ->
   totalContracts (auction_of l' epoch) = totalContracts (auction_of l epoch)) /\
  (OrderBook.orders (orderbook_of l epoch) = [] ->
   totalContractsSold (auction_of l' epoch) = 0) /\
  (OrderBook.orders (orderbook_of l epoch) <> [] ->
   exists p,
     _priceCurve64x64 e (auction_of l epoch) = Ok p /\
     totalContractsSold (auction_of l' epoch)
     = Z.min (totalContracts (auction_of l' epoch))
         (accepted_size p (OrderBook.orders (orderbook_of l epoch)))).
Proof.
  intros (_ & _ & Hsizes) Hty Hst. unfold finalize_check. intros E. inv_ok E.
  rename v into t. rename v0 into r.
  destruct (_getTotalContracts_Ok k e _ t Hty Hv) as (Ht0 & Htsame).
  assert (Hfrozen :
    (if totalContracts (auction_of l epoch) <=? 0
     then set_totalContracts t (auction_of l epoch) else auction_of l epoch)
    = set_totalContracts t (auction_of l epoch)).
  { destruct (Z.leb_spec (totalContracts (auction_of l epoch)) 0); [reflexivity|].
    rewrite (Htsame ltac:(assumption)). symmetry. apply set_totalContracts_same. }
  rewrite Hfrozen in *.
  assert (Hsz : Forall (fun d => 0 <= OrderBook.size d)
                  (OrderBook.orders (orderbook_of l epoch))).
  { eapply Forall_impl; [exact Hsizes|]. intros d Hd. simpl in Hd. tauto. }
  rewrite clearing_initialized in Hv0 by exact Hst.
  rewrite (priceCurve_same e (auction_of l epoch)) in Hv0 by reflexivity.
  assert (Hsold :
    (OrderBook.orders (orderbook_of l epoch) = [] ->
     match r with AutoFinalize _ => t | Stopped s _ => s end = 0) /\
    (OrderBook.orders (orderbook_of l epoch) <> [] ->
     exists p,
       _priceCurve64x64 e (auction_of l epoch) = Ok p /\
       match r with AutoFinalize _ => t | Stopped s _ => s end
       = Z.min t (accepted_size p (OrderBook.orders (orderbook_of l epoch))))).
  { split.
    - intros Hnil. rewrite Hnil in Hv0. simpl in Hv0. injection Hv0 as <-. reflexivity.
    - intros Hne.
      destruct (_priceCurve64x64 e (auction_of l epoch)) as [p|msg].
      + exists p. split; [reflexivity|].
        apply (traverse_accepts p t _ Hsz 0 0 r); [lia | exact Hv0].
      + exfalso. destruct (OrderBook.orders (orderbook_of l epoch)); [congruence|].
        simpl in Hv0. discriminate Hv0. }
  destruct r as [price|s price]; injection E as <-.
  - rewrite auction_of_set_auction. simpl.
    repeat split; try reflexivity; try assumption; try (intros; apply Htsame; assumption);
      apply Hsold.
  - rewrite auction_of_set_auction. simpl.
    destruct (endTime (auction_of l epoch) <? block_timestamp e); simpl;
    (repeat split; try reflexivity; try assumption;
      try (intros; apply Htsame; assumption); apply Hsold).
Qed.

(** A step at a clearing price that has not risen, on the same book or on
    the book with one more order, sells no less. *)
Lemma sold_grows k e1 e2 l0 l1 l1' l2 epoch :
  typed e1 -> typed e2 ->
  block_timestamp e1 <= block_timestamp e2 ->
  OrderBook.wf (orderbook_of l0 epoch) ->
  status (auction_of l0 epoch) = INITIALIZED ->
  minPrice64x64 (auction_of l0 epoch) <= maxPrice64x64 (auction_of l0 epoch) ->
  finalize_check k e1 l0 epoch = Ok l1 ->
  OrderBook.wf (orderbook_of l1' epoch) ->
  status (auction_of l1 epoch) = INITIALIZED ->
  auction_of l1' epoch = auction_of l1 epoch ->
  (OrderBook.orders (orderbook_of l1' epoch) = OrderBook.orders (orderbook_of l1 epoch) \/
   exists d, 0 <= OrderBook.size d /\
             OrderBook.orders (orderbook_of l1' epoch)
             = OrderBook.splice d (OrderBook.orders (orderbook_of l1 epoch))) ->
  finalize_check k e2 l1' epoch = Ok l2 ->
  totalContractsSold (auction_of l1 epoch) <= totalContractsSold (auction_of l2 epoch).
Proof.
  intros Hty1 Hty2 Hord Hwf0 Hst0 Hprices E1 Hwf1 Hst1 Ha Hbook E2.
  destruct (finalize_check_accepts k e1 l0 epoch l1 Hwf0 Hty1 Hst0 E1)
    as (Hb1 & Hs1 & He1 & HM1 & Hm1 & Ht1 & _ & Hnil1 & Hcons1).
  assert (Hst1' : status (auction_of l1' epoch) = INITIALIZED) by (rewrite Ha; exact Hst1).
  destruct (finalize_check_accepts k e2 l1' epoch l2 Hwf1 Hty2 Hst1' E2)
    as (_ & _ & _ & _ & _ & Ht2 & Hsame2 & Hnil2 & Hcons2).
  rewrite Hb1 in Hbook.
  destruct Hwf0 as (_ & _ & Hsizes0). destruct Hwf1 as (_ & _ & Hsizes1).
  assert (Hsz0 : Forall (fun d => 0 <= OrderBook.size d)
                   (OrderBook.orders (orderbook_of l0 epoch))).
  { eapply Forall_impl; [exact Hsizes0|]. intros d Hd. simpl in Hd. tauto. }
  assert (Hsz1 : Forall (fun d => 0 <= OrderBook.size d)
                   (OrderBook.orders (orderbook_of l1' epoch))).
  { eapply Forall_impl; [exact Hsizes1|]. intros d Hd. simpl in Hd. tauto. }
  assert (Hpos2 : 0 <= totalContractsSold (auction_of l2 epoch)).
  { destruct (OrderBook.orders (orderbook_of l1' epoch)) as [|d book'] eqn:Eb.
    - rewrite Hnil2 by reflexivity. lia.
    - destruct Hcons2 as (p2 & _ & ->); [discriminate|].
      pose proof (accepted_size_nonneg p2 _ Hsz1). lia. }
  destruct (OrderBook.orders (orderbook_of l0 epoch)) as [|d0 book0] eqn:Eb0.
  { rewrite Hnil1 by reflexivity. exact Hpos2. }
  destruct Hcons1 as (p1 & Hp1 & Hsold1); [discriminate|].
  destruct Hcons2 as (p2 & Hp2 & Hsold2).
  { destruct Hbook as [->|(d & _ & ->)]; [discriminate | apply splice_not_nil]. }
  rewrite (priceCurve_same e2 (auction_of l0 epoch)) in Hp2 by (rewrite Ha; assumption).
  pose proof (priceCurve_falls e1 e2 _ p1 p2 Hord Hprices Hp1 Hp2) as Hp.
  assert (Hacc : accepted_size p1 (d0 :: book0)
                 <= accepted_size p2 (OrderBook.orders (orderbook_of l1' epoch))).
  { destruct Hbook as [->|(d & Hd & ->)].
    - apply accepted_size_mono; assumption.
    - etrans; [apply accepted_size_mono; eassumption|].
      apply accepted_size_splice; assumption. }
  rewrite Hsold1, Hsold2.
  destruct (Z.lt_ge_cases 0 (totalContracts (auction_of l1 epoch))) as [Hpos|Hzero].
  - rewrite Hsame2 by (rewrite Ha; exact Hpos). rewrite Ha. lia.
  - pose proof (accepted_size_nonneg p2 _ Hsz1). lia.
Qed.

(** *** The transactions that run the step *)

Lemma adds_order_Ok k e c l epoch l' fx :
  adds_order epoch c -> exec k e c l = Ok (l', fx) ->
  status (auction_of l epoch) = INITIALIZED /\
  exists price size, minSize l <= size /\ _addOrder k e l epoch price size = Ok l'.
Proof.
  destruct c; cbn [adds_order exec]; try contradiction; intros -> E.
  - unfold addLimitOrder in E.
    apply bind_Ok in E as (u & Hallowed & E). apply bind_Ok in E as (cost & Hcost & E).
    apply bind_Ok in E as ([credited fx1] & _ & E). apply bind_Ok in E as (due & _ & E).
    apply bind_Ok in E as (l1 & Hadd & E). injection E as <- _.
    apply limitOrdersAllowed_Ok in Hallowed as (Hst & _).
    apply _validateLimitOrder_Ok in Hcost. eauto.
  - unfold swapAndAddLimitOrder in E.
    apply bind_Ok in E as (u & Hallowed & E). apply bind_Ok in E as (cost & Hcost & E).
    apply bind_Ok in E as ([credited fx1] & _ & E).
    apply bind_Ok in E as (l1 & Hadd & E). injection E as <- _.
    apply limitOrdersAllowed_Ok in Hallowed as (Hst & _).
    apply _validateLimitOrder_Ok in Hcost. eauto.
  - unfold addMarketOrder in E.
    apply bind_Ok in E as (u & Hallowed & E).
    apply bind_Ok in E as ([price cost] & Hcost & E).
    apply bind_Ok in E as ([credited fx1] & _ & E). apply bind_Ok in E as (due & _ & E).
    apply bind_Ok in E as (l1 & Hadd & E). injection E as <- _.
    apply marketOrdersAllowed_Ok in Hallowed as (Hst & _).
    apply _validateMarketOrder_Ok in Hcost. eauto.
  - unfold swapAndAddMarketOrder in E.
    apply bind_Ok in E as (u & Hallowed & E).
    apply bind_Ok in E as ([price cost] & Hcost & E).
    apply bind_Ok in E as ([credited fx1] & _ & E).
    apply bind_Ok in E as (l1 & Hadd & E). injection E as <- _.
    apply marketOrdersAllowed_Ok in Hallowed as (Hst & _).
    apply _validateMarketOrder_Ok in Hcost. eauto.
Qed.

Lemma with_order_orders e l epoch price size :
  exists d,
    OrderBook.size d = size /\
    OrderBook.orders (orderbook_of (with_order e l epoch price size) epoch)
    = OrderBook.splice d (OrderBook.orders (orderbook_of l epoch)).
Proof.
  unfold with_order. reads. rewrite decide_True by reflexivity.
  eexists. split; [|reflexivity]. reflexivity.
Qed.

(** The transactions that run the step run the finalize-check, on the
    book they have added to or removed from. *)
Lemma processes_orders_check k e c l epoch l' fx :
  layout_wf l -> typed e ->
  processes_orders e l epoch c -> exec k e c l = Ok (l', fx) ->
  status (auction_of l epoch) = INITIALIZED /\
  exists l0,
    OrderBook.wf (orderbook_of l0 epoch) /\
    auction_of l0 epoch = auction_of l epoch /\
    finalize_check k e l0 epoch = Ok l'.
Proof.
  intros (Hmin & Hbooks & _) Hty Hc E.
  assert (Hadd : adds_order epoch c ->
                 startTime (auction_of l epoch) <= block_timestamp e ->
                 status (auction_of l epoch) = INITIALIZED /\
                 exists l0,
                   OrderBook.wf (orderbook_of l0 epoch) /\
                   auction_of l0 epoch = auction_of l epoch /\
                   finalize_check k e l0 epoch = Ok l').
  { intros Ha Hstart.
    destruct (adds_order_Ok k e c l epoch l' fx Ha E) as (Hst & price & size & Hsz & Hadd).
    split; [exact Hst|]. rewrite _addOrder_with_order in Hadd.
    replace (startTime (auction_of l epoch) <=? block_timestamp e) with true in Hadd
      by (symmetry; apply Z.leb_le; exact Hstart).
    assert (Hwf : OrderBook.wf (orderbook_of (with_order e l epoch price size) epoch))
      by (apply with_order_book_wf; [apply Hbooks | lia]).
    rewrite FinalizeFacts._finalizeAuction_finalize_check in Hadd by apply Hwf.
    exists (with_order e l epoch price size). repeat split; try apply Hwf; assumption. }
  destruct c; cbn [processes_orders] in Hc;
    try (destruct Hc as (Ha & Hstart); exact (Hadd Ha Hstart)).
  - destruct Hc as (-> & Hstart). cbn [exec] in E.
    apply CancelFacts.cancelLimitOrder_Ok in E as (Hst & _ & E).
    split; [exact Hst|].
    replace (startTime (auction_of l epoch) <=? block_timestamp e) with true in E
      by (symmetry; apply Z.leb_le; exact Hstart).
    assert (Hwf : OrderBook.wf (orderbook_of (without_order l epoch key (msg_sender e)) epoch)).
    { unfold without_order. reads. rewrite decide_True by reflexivity.
      destruct (OrderBookFacts.remove_sublist (orderbook_of l epoch) key).
      eapply OrderBookFacts.wf_sublist; [apply Hbooks | eassumption..]. }
    rewrite FinalizeFacts._finalizeAuction_finalize_check in E by apply Hwf.
    exists (without_order l epoch key (msg_sender e)).
    split; [exact Hwf|]. split; [reflexivity | exact E].
  - destruct Hc as (-> & Hst & Hstart & Hend). split; [exact Hst|].
    cbn [exec] in E. unfold no_effect in E.
    apply bind_Ok in E as (l1 & E & El). injection El as <- _.
    unfold finalizeAuction in E. apply bind_Ok in E as (timeout & Htimeout & E).
    apply uadd_Ok in Htimeout as (-> & _).
    replace (endTime (auction_of l epoch) + HOURS_24 <=? block_timestamp e) with false in E
      by (symmetry; apply Z.leb_gt; exact Hend).
    replace (startTime (auction_of l epoch) <? block_timestamp e) with true in E
      by (symmetry; apply Z.ltb_lt; exact Hstart).
    rewrite Hst in E. cbn [andb status_eqb] in E.
    rewrite FinalizeFacts._finalizeAuction_finalize_check in E by apply Hbooks.
    exists l. split; [apply Hbooks|]. split; [reflexivity | exact E].
Qed.

(** An add or a [finalizeAuction] leaves the contracts sold alone or runs
    the finalize-check, on the same book or on the book with the new
    order. *)
Lemma add_or_finalize_check k e c l epoch l' fx :
  layout_wf l -> typed e ->
  adds_order epoch c \/ c = FinalizeAuction epoch ->
  exec k e c l = Ok (l', fx) ->
  totalContractsSold (auction_of l' epoch) = totalContractsSold (auction_of l epoch) \/
  (status (auction_of l epoch) = INITIALIZED /\
   exists l0,
     OrderBook.wf (orderbook_of l0 epoch) /\
     auction_of l0 epoch = auction_of l epoch /\
     (OrderBook.orders (orderbook_of l0 epoch) = OrderBook.orders (orderbook_of l epoch) \/
      exists d, 0 <= OrderBook.size d /\
                OrderBook.orders (orderbook_of l0 epoch)
                = OrderBook.splice d (OrderBook.orders (orderbook_of l epoch))) /\
     finalize_check k e l0 epoch = Ok l').
Proof.
  intros (Hmin & Hbooks & _) Hty [Ha | ->] E.
  - destruct (adds_order_Ok k e c l epoch l' fx Ha E) as (Hst & price & size & Hsz & Hadd).
    rewrite _addOrder_with_order in Hadd.
    destruct (startTime (auction_of l epoch) <=? block_timestamp e).
    + right. split; [exact Hst|].
      assert (Hwf : OrderBook.wf (orderbook_of (with_order e l epoch price size) epoch))
        by (apply with_order_book_wf; [apply Hbooks | lia]).
      rewrite FinalizeFacts._finalizeAuction_finalize_check in Hadd by apply Hwf.
      exists (with_order e l epoch price size).
      split; [exact Hwf|]. split; [reflexivity|]. split; [|exact Hadd].
      right. destruct (with_order_orders e l epoch price size) as (d & Hd & Hbook).
      exists d. split; [lia | exact Hbook].
    + left. injection Hadd as <-. reflexivity.
  - cbn [exec] in E. unfold no_effect in E.
    apply bind_Ok in E as (l1 & E & El). injection El as <- _.
    unfold finalizeAuction in E. apply bind_Ok in E as (timeout & _ & E). revert E.
    destruct ((timeout <=? block_timestamp e) && _).
    + intros [= <-]. left. rewrite auction_of_set_auction. reflexivity.
    + destruct ((startTime _ <? block_timestamp e) && _) eqn:Hc; intros E.
      * apply andb_true_iff in Hc as (_ & Hst). apply status_eqb_eq in Hst.
        right. split; [exact Hst|].
        rewrite FinalizeFacts._finalizeAuction_finalize_check in E by apply Hbooks.
        exists l. split; [apply Hbooks|]. split; [reflexivity|]. split; [|exact E].
        left. reflexivity.
      * injection E as <-. left. reflexivity.
Qed.

(** C3 (as amended): in every reachable storage and for every epoch the
    contracts sold are at most the contracts offered, in the storage and
    through the views [getTotalContractsSold] and [getTotalContracts]; and
    from a transaction that runs the order-processing step of the epoch (an
    order added or cancelled when the auction has started, or
    [finalizeAuction]) to a later add or [finalizeAuction] the contracts
    sold do not decrease, provided the second transaction is no earlier in
    time and finds the record and the book of the epoch as the first one
    left them. *)
Theorem C3_sold_bounded_and_monotone (k : Immutables) (l : Layout) (epoch : Z) :
  reachable k l ->
  0 <= totalContractsSold (auction_of l epoch) <= totalContracts (auction_of l epoch) /\
  (forall e t, typed e -> getTotalContracts k e l epoch = Ok t ->
               getTotalContractsSold l epoch <= t) /\
  (forall e1 c1 l1 fx1 l1' e2 c2 l2 fx2,
     typed e1 -> typed e2 ->
     exec k e1 c1 l = Ok (l1, fx1) -> processes_orders e1 l epoch c1 ->
     reachable_from k l1 l1' ->
     auction_of l1' epoch = auction_of l1 epoch ->
     orderbook_of l1' epoch = orderbook_of l1 epoch ->
     exec k e2 c2 l1' = Ok (l2, fx2) ->
     adds_order epoch c2 \/ c2 = FinalizeAuction epoch ->
     block_timestamp e1 <= block_timestamp e2 ->
     totalContractsSold (auction_of l1 epoch) <= totalContractsSold (auction_of l2 epoch)).
Proof.
  intros Hr.
  assert (Hb : sold_bounded (auction_of l epoch)).
  { apply (reachable_auction_invariant k sold_bounded); [| |exact Hr].
    - unfold sold_bounded. simpl. lia.
    - apply sold_bounded_step. }
  split; [exact Hb|]. split.
  { intros e t Hty Ht.
    unfold getTotalContracts in Ht. unfold getTotalContractsSold, _getTotalContractsSold.
    apply _getTotalContracts_Ok in Ht as (Ht0 & Hsame); [|exact Hty].
    unfold sold_bounded in Hb.
    destruct (Z.lt_ge_cases 0 (totalContracts (auction_of l epoch))) as [Hpos|Hzero].
    - rewrite (Hsame Hpos). lia.
    - lia. }
  intros e1 c1 l1 fx1 l1' e2 c2 l2 fx2 Hty1 Hty2 E1 Hc1 Hfrom Ha Hbook E2 Hc2 Hord.
  pose proof (reachable_wf k l Hr) as Hwf.
  pose proof (reachable_exec k l e1 c1 l1 fx1 Hr Hty1 E1) as Hr1.
  pose proof (reachable_from_reachable k l1 l1' Hr1 Hfrom) as Hr1'.
  pose proof (reachable_wf k l1' Hr1') as Hwf1'.
  destruct (processes_orders_check k e1 c1 l epoch l1 fx1 Hwf Hty1 Hc1 E1)
    as (Hst & l0 & Hwf0 & Ha0 & Hcheck1).
  destruct (add_or_finalize_check k e2 c2 l1' epoch l2 fx2 Hwf1' Hty2 Hc2 E2)
    as [Hsame | (Hst1' & l0' & Hwf0' & Ha0' & Hbook0' & Hcheck2)].
  { rewrite Hsame, Ha. lia. }
  destruct (reachable_prices_ordered k l epoch Hr) as [Hcancelled|Hprices];
    [congruence|].
  apply (sold_grows k e1 e2 l0 l1 l0' l2 epoch); try assumption.
  - rewrite Ha0. exact Hst.
  - rewrite Ha0. exact Hprices.
  - rewrite <- Ha. exact Hst1'.
  - rewrite Ha0'. exact Ha.
  - rewrite <- Hbook. exact Hbook0'.
Qed.

(** Buyer 1 bids for 5 contracts at 100 at the start of the auction, and
    5 contracts are sold; half way through, when the price is 55, buyer 2
    bids for 7 contracts at 60, and 12 contracts are sold. *)
Lemma C3_sold_bounded_and_monotone_witness :
  exists l1 fx1 l2 fx2,
    exec Scenario.auctionK (Scenario.auctionEnv 1000 1)
      (AddLimitOrder 0 (Scenario.fixed 100) 5) Scenario.opened = Ok (l1, fx1) /\
    exec Scenario.auctionK (Scenario.auctionEnv 1500 2)
      (AddLimitOrder 0 (Scenario.fixed 60) 7) l1 = Ok (l2, fx2) /\
    totalContractsSold (auction_of l1 0) = 5 /\
    totalContractsSold (auction_of l2 0) = 12 /\
    totalContractsSold (auction_of l1 0) <= totalContractsSold (auction_of l2 0).
Proof.
  destruct (exec Scenario.auctionK (Scenario.auctionEnv 1000 1)
              (AddLimitOrder 0 (Scenario.fixed 100) 5) Scenario.opened)
    as [[l1 fx1]|msg] eqn:E1; [|vm_compute in E1; discriminate E1].
  destruct (exec Scenario.auctionK (Scenario.auctionEnv 1500 2)
              (AddLimitOrder 0 (Scenario.fixed 60) 7) l1)
    as [[l2 fx2]|msg] eqn:E2;
    [|vm_compute in E1; injection E1 as <- _; vm_compute in E2; discriminate E2].
  exists l1, fx1, l2, fx2. split; [reflexivity|]. split; [exact E2|].
  assert (Hc1 : processes_orders (Scenario.auctionEnv 1000 1) Scenario.opened 0
                  (AddLimitOrder 0 (Scenario.fixed 100) 5))
    by (split; [reflexivity | vm_compute; discriminate]).
  assert (Hord : block_timestamp (Scenario.auctionEnv 1000 1)
                 <= block_timestamp (Scenario.auctionEnv 1500 2))
    by (vm_compute; discriminate).
  pose proof (proj2 (proj2 (C3_sold_bounded_and_monotone Scenario.auctionK Scenario.opened 0
                              ScenarioFacts.opened_reachable))
                (Scenario.auctionEnv 1000 1) (AddLimitOrder 0 (Scenario.fixed 100) 5)
                l1 fx1 l1 (Scenario.auctionEnv 1500 2)
                (AddLimitOrder 0 (Scenario.fixed 60) 7) l2 fx2
                (ScenarioFacts.auctionEnv_typed 1000 1 ltac:(lia))
                (ScenarioFacts.auctionEnv_typed 1500 2 ltac:(lia))
                E1 Hc1 (reachable_from_refl _ _) eq_refl eq_refl E2
                (or_introl eq_refl) Hord) as Hle.
  vm_compute in E1. injection E1 as <- _. vm_compute in E2. injection E2 as <- _.
  split; [reflexivity|]. split; [reflexivity|]. exact Hle.
Defined.

(** C3 (as stated) fails: the contracts sold decrease when an order is
    cancelled, and when the vault sets the prices between two steps.
    After buyer 1 has bid for 5 contracts at the start of the auction, 5
    contracts are sold; once the buyer cancels the order, the
    order-processing step sets the contracts sold back to 0.  And when
    buyer 1 bids for 5 contracts at 50 before the vault has set any price,
    5 contracts are sold; once the vault has set the prices to 100 and 10,
    the step that follows the bid of buyer 2 at 20, or a call of
    [finalizeAuction], sets the contracts sold back to 0. *)
Lemma C3_sold_decreases_on_cancel_and_after_pricing :
  (reachable Scenario.auctionK Scenario.one_bid /\
   totalContractsSold (auction_of Scenario.one_bid 0) = 5 /\
   exists l' fx,
     exec Scenario.auctionK (Scenario.auctionEnv 1001 1) (CancelLimitOrder 0 1)
       Scenario.one_bid = Ok (l', fx) /\
     totalContractsSold (auction_of l' 0) = 0) /\
  (reachable Scenario.auctionK Scenario.priced_late /\
   totalContractsSold (auction_of Scenario.unpriced_bid 0) = 5 /\
   totalContractsSold (auction_of Scenario.priced_late 0) = 5 /\
   (exists l' fx,
      exec Scenario.auctionK (Scenario.auctionEnv 1002 2)
        (AddLimitOrder 0 (Scenario.fixed 20) 3) Scenario.priced_late = Ok (l', fx) /\
      totalContractsSold (auction_of l' 0) = 0) /\
   (exists l' fx,
      exec Scenario.auctionK (Scenario.auctionEnv 1002 2) (FinalizeAuction 0)
        Scenario.priced_late = Ok (l', fx) /\
      totalContractsSold (auction_of l' 0) = 0)).
Proof.
  split.
  - split; [apply ScenarioFacts.one_bid_reachable|]. split; [reflexivity|].
    eexists _, _. split; [vm_compute; reflexivity|]. reflexivity.
  - split.
    { eapply ScenarioFacts.run_state;
        [ eapply ScenarioFacts.run_state;
          [ exact ScenarioFacts.initialized_reachable
          | repeat constructor; simpl; lia
          | vm_compute; reflexivity ]
        | repeat constructor; simpl; lia
        | vm_compute; reflexivity ]. }
    split; [reflexivity|]. split; [reflexivity|]. split.
    + eexists _, _. split; [vm_compute; reflexivity|]. reflexivity.
    + eexists _, _. split; [vm_compute; reflexivity|]. reflexivity.
Qed.

End SoldFacts.

(** ** The distribution of a withdrawal from the vault *)

Module DistributionFacts.

Import VaultStorage Vault.

Lemma umul_Ok a b c : umul a b = Ok c -> c = a * b.
Proof.
  unfold umul. destruct (a * b <=? MAX_UINT256); [|discriminate].
  intros [= <-]. reflexivity.
Qed.

Lemma toBaseTokenAmount_nonneg u b v r :
  0 <= v -> OptionMath.toBaseTokenAmount u b v = Ok r -> 0 <= r.
Proof.
  intros Hv. unfold OptionMath.toBaseTokenAmount.
  destruct (Z.leb_spec u b).
  - intros E. apply umul_Ok in E as ->.
    apply Z.mul_nonneg_nonneg; [exact Hv | apply Z.pow_nonneg; lia].
  - intros [= <-]. apply Z.div_pos; [exact Hv | apply Z.pow_pos_nonneg; lia].
Qed.

Lemma fromContractsToCollateral_nonneg contracts isCall u b strike r :
  0 <= contracts ->
  OptionMath.fromContractsToCollateral contracts isCall u b strike = Ok r -> 0 <= r.
Proof.
  intros Hc. unfold OptionMath.fromContractsToCollateral.
  destruct isCall; [intros [= <-]; exact Hc|].
  intros E. apply bind_Ok in E as (v & Hv & E).
  apply ABDKFacts.mulu_Ok in Hv as (_ & (Hv & _) & _); [|exact Hc].
  eapply toBaseTokenAmount_nonneg; eassumption.
Qed.

(** The share of [assetAmount] that goes with the part [part] of the
    total: the 64.64 ratio of the part to the total, times the amount. *)
Lemma _calculateDistributionAmount_value assetAmount part total :
  0 <= part <= total -> 0 <= assetAmount <= MAX_UINT256 ->
  _calculateDistributionAmount assetAmount part total
  = Ok (ABDKMath64x64.mulu_value (part * 2 ^ 64 / total) assetAmount).
Proof.
  intros Hp Ha. unfold _calculateDistributionAmount.
  destruct (Z.ltb_spec 0 part) as [Hpos|Hz].
  - assert (Hq : 0 <= part * 2 ^ 64 / total <= 2 ^ 64).
    { split; [apply Z.div_pos; lia|]. apply Z.div_le_upper_bound; [lia | nia]. }
    rewrite ABDKFacts.divu_fits, Ok_bind by lia.
    destruct (Z.ltb_spec 0 (part * 2 ^ 64 / total)) as [Hqpos|Hqz].
    + apply ABDKFacts.mulu_fits; [lia | lia |].
      unfold ABDKMath64x64.mulu_value.
      apply Z.le_trans with assetAmount; [|lia].
      apply Z.div_le_upper_bound; [lia | nia].
    + replace (part * 2 ^ 64 / total) with 0 by lia. reflexivity.
  - rewrite Ok_bind. cbn [Z.ltb Z.compare].
    replace part with 0 by lia. reflexivity.
Qed.

(** The rounding of the 64.64 ratio loses at most [amount / 2^64 + 1]. *)
Lemma share_bounds part total amount :
  0 <= part -> 0 <= total -> 0 <= amount ->
  part * amount / total - (amount / 2 ^ 64 + 1)
    <= ABDKMath64x64.mulu_value (part * 2 ^ 64 / total) amount
    <= part * amount / total.
Proof.
  intros Hp Ht0 Ha. unfold ABDKMath64x64.mulu_value.
  destruct (Z.eq_dec total 0) as [->|Hne].
  { rewrite !Z.div_0_r, Z.mul_0_l, Z.div_0_l by lia.
    assert (0 <= amount / 2 ^ 64) by (apply Z.div_pos; lia). lia. }
  assert (Ht : 0 < total) by lia.
  set (W := 2 ^ 64). assert (HW : 0 < W) by (subst W; lia). clearbody W.
  pose proof (Z.div_mod (part * W) total ltac:(lia)) as E1.
  pose proof (Z.mod_pos_bound (part * W) total Ht) as B1.
  set (q := part * W / total) in *. set (r1 := (part * W) mod total) in *.
  pose proof (Z.div_mod (q * amount) W ltac:(lia)) as E2.
  pose proof (Z.mod_pos_bound (q * amount) W HW) as B2.
  set (c := q * amount / W) in *. set (r2 := (q * amount) mod W) in *.
  pose proof (Z.div_mod amount W ltac:(lia)) as E4.
  pose proof (Z.mod_pos_bound amount W HW) as B4.
  set (n := amount / W) in *. set (r4 := amount mod W) in *.
  clearbody q r1 c r2 n r4.
  assert (Hq0 : 0 <= q) by nia.
  split.
  - assert (Hlt : part * amount / total < c + n + 2); [|lia].
    apply Z.div_lt_upper_bound; [exact Ht|].
    assert (part * amount * W < total * (c + n + 2) * W); [|nia].
    assert (part * amount * W = total * (q * amount) + r1 * amount) by nia.
    assert (r1 * amount <= (total - 1) * amount) by nia.
    nia.
  - apply Z.div_le_lower_bound; [exact Ht|].
    assert (total * c * W <= part * amount * W); [|nia].
    assert (total * (q * amount) <= part * W * amount) by nia.
    nia.
Qed.

(** The totals the distribution starts from: the collateral of the vault
    net of its reserves, and its short contracts valued as collateral. *)
Lemma _totalAssets_Ok e l totalAssets :
  typed e -> _totalAssets e l = Ok totalAssets ->
  exists totalCollateral totalShort,
    _totalCollateral e l = Ok totalCollateral
    /\ _totalShortAsCollateral e l = Ok totalShort
    /\ totalAssets = totalCollateral + totalShort
    /\ 0 <= totalCollateral /\ 0 <= totalShort.
Proof.
  intros [_ Hpool] E. unfold _totalAssets in E.
  apply bind_Ok in E as (tc & Htc & E). apply bind_Ok in E as (ts & Hts & E).
  apply uadd_Ok in E as [-> _].
  exists tc, ts. repeat split; try assumption.
  - unfold _totalCollateral in Htc. apply bind_Ok in Htc as (r & _ & Htc).
    apply usub_Ok in Htc. lia.
  - unfold _totalShortAsCollateral in Hts.
    eapply fromContractsToCollateral_nonneg; [|exact Hts]. apply Hpool.
Qed.

(** On a put with as many decimals for the underlying as for the base
    token, contracts turned into collateral and back never come out more
    than they went in. *)
Lemma put_round_trip_loses decimals strike contracts collateral contracts' :
  0 <= contracts ->
  OptionMath.fromContractsToCollateral contracts false decimals decimals strike
  = Ok collateral ->
  OptionMath.fromCollateralToContracts collateral false decimals strike = Ok contracts' ->
  contracts' <= contracts.
Proof.
  intros Hc E1 E2. unfold OptionMath.fromContractsToCollateral in E1.
  apply bind_Ok in E1 as (value & Hvalue & E1).
  apply ABDKFacts.mulu_Ok in Hvalue as (-> & (Hvalue & _) & Hstrike); [|exact Hc].
  unfold OptionMath.toBaseTokenAmount in E1. rewrite Z.leb_refl, Z.sub_diag in E1.
  apply umul_Ok in E1. change (10 ^ 0) with 1 in E1. rewrite Z.mul_1_r in E1. subst collateral.
  unfold OptionMath.fromCollateralToContracts in E2.
  apply bind_Ok in E2 as (c64 & Hc64 & E2).
  apply ABDKFacts.divu_Ok in Hc64 as (HD & -> & _).
  apply bind_Ok in E2 as (q & Hq & E2).
  unfold ABDKMath64x64.div in Hq. apply bind_Ok in Hq as (u & Hne & Hq).
  apply require_Ok, negb_true_iff, Z.eqb_neq in Hne.
  apply bind_Ok in Hq as (u' & _ & Hq). injection Hq as <-.
  assert (HD0 : 0 < 10 ^ decimals).
  { pose proof (Z.pow_nonneg 10 decimals ltac:(lia)). lia. }
  apply ABDKFacts.mulu_Ok in E2 as (-> & _ & _); [|lia].
  unfold ABDKMath64x64.mulu_value in *.
  set (W := 2 ^ 64) in *. assert (HW : 0 < W) by (subst W; lia).
  set (D := 10 ^ decimals) in *. clearbody W D.
  destruct (Z.eq_dec contracts 0) as [->|Hpos].
  { rewrite Z.mul_0_r.
    repeat first [ rewrite Z.mul_0_l
                 | rewrite Z.div_0_l by lia
                 | rewrite Z.quot_0_l by exact Hne ].
    lia. }
  assert (Hs : 0 < strike) by (specialize (Hstrike Hpos); lia).
  set (value := strike * contracts / W) in *.
  assert (H1 : W * value <= strike * contracts)
    by (subst value; apply Z.mul_div_le; exact HW).
  set (c64 := value * W / D) in *.
  assert (H2 : D * c64 <= value * W) by (subst c64; apply Z.mul_div_le; exact HD0).
  assert (Hc64 : 0 <= c64) by (subst c64; apply Z.div_pos; [nia | exact HD0]).
  rewrite Z.quot_div_nonneg by nia.
  set (q := c64 * W / strike) in *.
  assert (H3 : strike * q <= c64 * W) by (subst q; apply Z.mul_div_le; exact Hs).
  assert (Hq0 : 0 <= q) by (subst q; apply Z.div_pos; [nia | exact Hs]).
  set (r := q * D / W) in *.
  assert (H4 : W * r <= q * D) by (subst r; apply Z.mul_div_le; exact HW).
  clearbody value c64 q r.
  assert (Hr0 : r * (W * strike) <= contracts * (W * strike)).
  { assert (r * W * strike <= q * D * strike) by nia.
    assert (q * strike * D <= c64 * W * D) by nia.
    assert (c64 * D * W <= value * W * W) by nia.
    assert (value * W * W <= strike * contracts * W) by nia.
    nia. }
  apply Z.mul_le_mono_pos_r in Hr0; [exact Hr0 | nia].
Qed.

(** C2 (as amended).  A withdrawal of [assetAmount] from a vault whose
    total assets are [totalAssets] takes the share
    [assetAmount / totalAssets] of the collateral and of the short position
    valued as collateral.  Each share is the 64.64 ratio of the part to the
    total, rounded down, times the amount, rounded down: it is at most
    [part * assetAmount / totalAssets] and falls short of it by at most
    [assetAmount / 2^64 + 1].  The share of the short position is then
    turned into contracts by the conversion from collateral to contracts,
    which for a call vault undoes the conversion from contracts to
    collateral exactly; for a put vault whose two tokens have the same
    decimals, contracts turned into collateral and back come out no more
    than they went in. *)
Theorem C2_distributions (e : Env) (l : Layout) (assetAmount totalAssets : Z) :
  typed e ->
  0 <= assetAmount <= MAX_UINT256 ->
  _totalAssets e l = Ok totalAssets ->
  exists totalCollateral totalShortAsCollateral,
    _totalCollateral e l = Ok totalCollateral
    /\ _totalShortAsCollateral e l = Ok totalShortAsCollateral
    /\ totalAssets = totalCollateral + totalShortAsCollateral
    /\ let collateralAmount :=
         ABDKMath64x64.mulu_value (totalCollateral * 2 ^ 64 / totalAssets) assetAmount in
       let shortAsCollateral :=
         ABDKMath64x64.mulu_value (totalShortAsCollateral * 2 ^ 64 / totalAssets)
           assetAmount in
       _calculateDistributions e l assetAmount
       = (shortContracts ←
            OptionMath.fromCollateralToContracts shortAsCollateral
              (isCall l) (baseDecimals l) (strike64x64 (_lastOption l));
          Ok (collateralAmount, shortContracts))
       /\ totalCollateral * assetAmount / totalAssets - (assetAmount / 2 ^ 64 + 1)
            <= collateralAmount <= totalCollateral * assetAmount / totalAssets
       /\ totalShortAsCollateral * assetAmount / totalAssets - (assetAmount / 2 ^ 64 + 1)
            <= shortAsCollateral <= totalShortAsCollateral * assetAmount / totalAssets
       /\ (isCall l = true ->
           _calculateDistributions e l assetAmount = Ok (collateralAmount, shortAsCollateral)
           /\ forall contracts,
               (collateral ←
                  OptionMath.fromContractsToCollateral contracts true
                    (underlyingDecimals l) (baseDecimals l) (strike64x64 (_lastOption l));
                OptionMath.fromCollateralToContracts collateral true
                  (baseDecimals l) (strike64x64 (_lastOption l)))
               = Ok contracts)
       /\ (isCall l = false -> underlyingDecimals l = baseDecimals l ->
           forall contracts collateral contracts',
             0 <= contracts ->
             OptionMath.fromContractsToCollateral contracts false
               (underlyingDecimals l) (baseDecimals l) (strike64x64 (_lastOption l))
             = Ok collateral ->
             OptionMath.fromCollateralToContracts collateral false
               (baseDecimals l) (strike64x64 (_lastOption l)) = Ok contracts' ->
             contracts' <= contracts).
Proof.
  intros He Ha Hta.
  destruct (_totalAssets_Ok e l totalAssets He Hta)
    as (tc & ts & Htc & Hts & Hsum & Htc0 & Hts0).
  exists tc, ts. split; [exact Htc|]. split; [exact Hts|]. split; [exact Hsum|].
  cbv zeta.
  assert (Hrun : _calculateDistributions e l assetAmount
                 = (shortContracts ←
                      OptionMath.fromCollateralToContracts
                        (ABDKMath64x64.mulu_value (ts * 2 ^ 64 / totalAssets) assetAmount)
                        (isCall l) (baseDecimals l) (strike64x64 (_lastOption l));
                    Ok (ABDKMath64x64.mulu_value (tc * 2 ^ 64 / totalAssets) assetAmount,
                        shortContracts))).
  { unfold _calculateDistributions. rewrite Hta, Ok_bind, Htc, Ok_bind.
    rewrite _calculateDistributionAmount_value, Ok_bind by lia.
    rewrite Hts, Ok_bind.
    rewrite _calculateDistributionAmount_value, Ok_bind by lia.
    reflexivity. }
  split; [exact Hrun|].
  split; [apply share_bounds; lia|].
  split; [apply share_bounds; lia|].
  split.
  - intros Hcall. split.
    + rewrite Hrun, Hcall. reflexivity.
    + intros contracts. reflexivity.
  - intros _ Hdec contracts collateral contracts' Hc E1 E2. rewrite Hdec in E1.
    eapply put_round_trip_loses; eassumption.
Qed.

(** A call vault with 1000 units of collateral and 500 short contracts: a
    withdrawal of 300 takes 199 units of collateral and 99 contracts, one
    less than the exact thirds on either side. *)
Lemma C2_distributions_witness :
  exists totalCollateral totalShortAsCollateral,
    _totalCollateral (Scenario.vaultEnv 100 3 1000 500) Scenario.vault0
      = Ok totalCollateral
    /\ _totalShortAsCollateral (Scenario.vaultEnv 100 3 1000 500) Scenario.vault0
      = Ok totalShortAsCollateral
    /\ totalCollateral = 1000 /\ totalShortAsCollateral = 500
    /\ _calculateDistributions (Scenario.vaultEnv 100 3 1000 500) Scenario.vault0 300
      = Ok (199, 99).
Proof.
  assert (He : typed (Scenario.vaultEnv 100 3 1000 500)).
  { split; [vm_compute; discriminate | intros tokenId; vm_compute; discriminate]. }
  assert (Ha : 0 <= 300 <= MAX_UINT256) by (vm_compute; split; discriminate).
  destruct (C2_distributions (Scenario.vaultEnv 100 3 1000 500) Scenario.vault0
              300 1500 He Ha eq_refl)
    as (tc & ts & Htc & Hts & _ & _ & _ & _ & Hcall & _).
  exists tc, ts. split; [exact Htc|]. split; [exact Hts|].
  assert (tc = 1000) as -> by (vm_compute in Htc; congruence).
  assert (ts = 500) as -> by (vm_compute in Hts; congruence).
  split; [reflexivity|]. split; [reflexivity|].
  exact (proj1 (Hcall eq_refl)).
Defined.

(** C2 (as stated) fails on the rounding of the shares and on the
    conversions of a put.  From a vault with 1000 units of collateral and
    500 short contracts a withdrawal of 300 takes 199 units and 99
    contracts, where [1000 * 300 / 1500] is 200 and [500 * 300 / 1500] is
    100.  And at the strike 2000 with 18 decimals on either side, a put
    turns 5 * 10^9 contracts into 10^13 units of collateral and these back
    into 4999999999 contracts, and 1 contract into 2000 units and these
    into no contract at all; with 8 decimals for the underlying, 10 * 10^8
    contracts make 2 * 10^22 units of collateral, which make 10^19
    contracts. *)
Lemma C2_shares_round_down_and_puts_lose :
  _totalCollateral (Scenario.vaultEnv 100 3 1000 500) Scenario.vault0 = Ok 1000
  /\ _totalShortAsCollateral (Scenario.vaultEnv 100 3 1000 500) Scenario.vault0 = Ok 500
  /\ _totalAssets (Scenario.vaultEnv 100 3 1000 500) Scenario.vault0 = Ok 1500
  /\ _calculateDistributions (Scenario.vaultEnv 100 3 1000 500) Scenario.vault0 300
     = Ok (199, 99)
  /\ 1000 * 300 / 1500 = 200 /\ 500 * 300 / 1500 = 100
  /\ OptionMath.fromContractsToCollateral (5 * 10 ^ 9) false 18 18 (2000 * 2 ^ 64)
     = Ok (10 ^ 13)
  /\ OptionMath.fromCollateralToContracts (10 ^ 13) false 18 (2000 * 2 ^ 64)
     = Ok 4999999999
  /\ OptionMath.fromContractsToCollateral 1 false 18 18 (2000 * 2 ^ 64) = Ok 2000
  /\ OptionMath.fromCollateralToContracts 2000 false 18 (2000 * 2 ^ 64) = Ok 0
  /\ OptionMath.fromContractsToCollateral (10 * 10 ^ 8) false 8 18 (2000 * 2 ^ 64)
     = Ok (2 * 10 ^ 22)
  /\ OptionMath.fromCollateralToContracts (2 * 10 ^ 22) false 18 (2000 * 2 ^ 64)
     = Ok (10 ^ 19).
Proof. repeat split; vm_compute; reflexivity. Qed.

(** The two conversions on a put vault, at the strike 2000 with 18
    decimals: 10 contracts are worth 20000 units of collateral, which are
    worth 10 contracts. *)
Lemma put_conversions_round_trip :
  OptionMath.fromContractsToCollateral (10 * 10 ^ 18) false 18 18 (2000 * 2 ^ 64)
    = Ok (20000 * 10 ^ 18)
  /\ OptionMath.fromCollateralToContracts (20000 * 10 ^ 18) false 18 (2000 * 2 ^ 64)
    = Ok (10 * 10 ^ 18).
Proof. split; vm_compute; reflexivity. Qed.

End DistributionFacts.

(** ** The withdrawal lock of the vault *)

Module LockFacts.

Import VaultStorage Vault.

(** *** Which messages a computation can revert with *)

Lemma Ok_never {A} (a : A) msg : Ok a <> Revert msg.
Proof. discriminate. Qed.

Lemma bind_never {A B} (r : result A) (f : A -> result B) msg :
  r <> Revert msg -> (forall a, f a <> Revert msg) -> r ≫= f <> Revert msg.
Proof. intros Hr Hf. destruct r as [a|msg']; simpl; [apply Hf | congruence]. Qed.

Lemma require_never cond msg' msg : msg' <> msg -> require cond msg' <> Revert msg.
Proof. intros Hm. destruct cond; simpl; congruence. Qed.

(** Two messages that differ. *)
Ltac distinct := let H := fresh in intros H; vm_compute in H; discriminate H.

(** Follows a computation through its binds, tests and requirements. *)
Ltac never :=
  repeat first
    [ apply Ok_never
    | apply require_never; distinct
    | apply bind_never; [|intros]
    | match goal with
      | |- (if ?c then _ else _) <> Revert _ => destruct c
      | |- (match ?p with pair _ _ => _ end) <> Revert _ => destruct p
      end ].

Lemma uadd_never a b msg : panic_overflow <> msg -> uadd a b <> Revert msg.
Proof. intros Hm. unfold uadd. destruct (_ <=? _); congruence. Qed.

Lemma usub_never a b msg : panic_overflow <> msg -> usub a b <> Revert msg.
Proof. intros Hm. unfold usub. destruct (_ <=? _); congruence. Qed.

Lemma umul_never a b msg : panic_overflow <> msg -> umul a b <> Revert msg.
Proof. intros Hm. unfold umul. destruct (_ <=? _); congruence. Qed.

Lemma mulu_locked x y : ABDKMath64x64.mulu x y <> Revert AuctionNotProcessed.
Proof. unfold ABDKMath64x64.mulu. never. Qed.

Lemma divu_locked x y : ABDKMath64x64.divu x y <> Revert AuctionNotProcessed.
Proof. unfold ABDKMath64x64.divu. never. Qed.

Lemma div_locked x y : ABDKMath64x64.div x y <> Revert AuctionNotProcessed.
Proof. unfold ABDKMath64x64.div. never. Qed.

Lemma fromContractsToCollateral_locked contracts isCall u b strike :
  OptionMath.fromContractsToCollateral contracts isCall u b strike
  <> Revert AuctionNotProcessed.
Proof.
  unfold OptionMath.fromContractsToCollateral, OptionMath.toBaseTokenAmount.
  destruct isCall; [apply Ok_never|].
  apply bind_never; [apply mulu_locked | intros value].
  destruct (_ <=? _); [apply umul_never; distinct | apply Ok_never].
Qed.

Lemma fromCollateralToContracts_locked collateral isCall b strike :
  OptionMath.fromCollateralToContracts collateral isCall b strike
  <> Revert AuctionNotProcessed.
Proof.
  unfold OptionMath.fromCollateralToContracts.
  destruct isCall; [apply Ok_never|].
  apply bind_never; [apply divu_locked | intros c].
  apply bind_never; [apply div_locked | intros q]. apply mulu_locked.
Qed.

Lemma _totalCollateral_locked e l : _totalCollateral e l <> Revert AuctionNotProcessed.
Proof.
  unfold _totalCollateral, _totalReserves.
  apply bind_never; [apply mulu_locked | intros r]. apply usub_never. distinct.
Qed.

Lemma _totalAssets_locked e l : _totalAssets e l <> Revert AuctionNotProcessed.
Proof.
  unfold _totalAssets, _totalShortAsCollateral.
  apply bind_never; [apply _totalCollateral_locked | intros c].
  apply bind_never; [apply fromContractsToCollateral_locked | intros s].
  apply uadd_never. distinct.
Qed.

Lemma _calculateDistributionAmount_locked a c t :
  _calculateDistributionAmount a c t <> Revert AuctionNotProcessed.
Proof.
  unfold _calculateDistributionAmount.
  apply bind_never.
  - destruct (_ <? _); [apply divu_locked | apply Ok_never].
  - intros r. destruct (_ <? _); [apply mulu_locked | apply Ok_never].
Qed.

Lemma _calculateDistributions_locked e l a :
  _calculateDistributions e l a <> Revert AuctionNotProcessed.
Proof.
  unfold _calculateDistributions, _totalShortAsCollateral,
    OptionMath.fromContractsToCollateral_4.
  apply bind_never; [apply _totalAssets_locked | intros ta].
  apply bind_never; [apply _totalCollateral_locked | intros tc].
  apply bind_never; [apply _calculateDistributionAmount_locked | intros c].
  apply bind_never; [apply fromContractsToCollateral_locked | intros ts].
  apply bind_never; [apply _calculateDistributionAmount_locked | intros sc].
  apply bind_never; [apply fromCollateralToContracts_locked | intros n].
  apply Ok_never.
Qed.

Lemma _collectWithdrawalFee_locked k l c s :
  _collectWithdrawalFee k l c s <> Revert AuctionNotProcessed.
Proof.
  unfold _collectWithdrawalFee.
  apply bind_never; [apply mulu_locked | intros f1].
  apply bind_never; [apply mulu_locked | intros f2].
  apply bind_never; [apply usub_never; distinct | intros c'].
  apply bind_never; [apply usub_never; distinct | intros s'].
  apply Ok_never.
Qed.

(** The body of a withdrawal never reports the lock: only the modifier
    does. *)
Lemma _withdraw5_locked k e l caller receiver owner assetAmount shareAmount :
  _withdraw5 k e l caller receiver owner assetAmount shareAmount
  <> Revert AuctionNotProcessed.
Proof.
  unfold _withdraw5, _withdrawReservedLiquidity.
  apply bind_never; [apply require_never; distinct | intros _].
  apply bind_never; [never | intros fx1].
  apply bind_never; [apply require_never; distinct | intros _].
  apply bind_never; [apply uadd_never; distinct | intros total].
  apply bind_never; [apply _calculateDistributions_locked | intros [c s]].
  apply bind_never; [apply _collectWithdrawalFee_locked | intros [[c' s'] fx4]].
  apply Ok_never.
Qed.

Lemma _withdraw_locked k e l assetAmount receiver owner :
  _withdraw k e l assetAmount receiver owner <> Revert AuctionNotProcessed.
Proof.
  unfold _withdraw.
  apply bind_never; [apply require_never; distinct | intros _].
  apply bind_never; [apply _withdraw5_locked | intros [l' fx]]. apply Ok_never.
Qed.

Lemma _redeem_locked k e l shareAmount receiver owner :
  _redeem k e l shareAmount receiver owner <> Revert AuctionNotProcessed.
Proof.
  unfold _redeem.
  apply bind_never; [apply require_never; distinct | intros _].
  apply bind_never; [apply _withdraw5_locked | intros [l' fx]]. apply Ok_never.
Qed.

(** The modifier reverts exactly within the lock window. *)
Lemma withdrawalsLocked_guard {A} e l (body : result A) :
  body <> Revert AuctionNotProcessed ->
  (_ ← withdrawalsLocked e l; body) = Revert AuctionNotProcessed
  <-> startTime l <= block_timestamp e /\ auctionProcessed l = false.
Proof.
  intros Hbody. unfold withdrawalsLocked.
  destruct (Z.leb_spec (startTime l) (block_timestamp e)) as [Hle|Hlt].
  - destruct (auctionProcessed l); simpl.
    + split; [intros E; contradiction | intros [_ E]; discriminate E].
    + split; [intros _; split; [exact Hle | reflexivity] | reflexivity].
  - simpl. split; [intros E; contradiction | intros [Hle _]; lia].
Qed.

(** C7.  [withdraw] and [redeem] revert with the message of the lock
    exactly when the time has reached the stored [startTime] and
    [auctionProcessed] is false.  A successful [initializeAuction] clears
    [auctionProcessed] and sets [startTime] to the Friday of the auction
    plus the start offset, so that from then on a withdrawal is locked
    exactly from [startTime]; a successful [processAuction] sets
    [auctionProcessed], leaves [startTime] as it is, and no withdrawal is
    locked afterwards. *)
Theorem C7_withdrawal_lock (k : Immutables) (e : Env) (l : Layout) :
  (forall assetAmount receiver owner,
     withdraw k e l assetAmount receiver owner = Revert AuctionNotProcessed
     <-> startTime l <= block_timestamp e /\ auctionProcessed l = false)
  /\ (forall shareAmount receiver owner,
        redeem k e l shareAmount receiver owner = Revert AuctionNotProcessed
        <-> startTime l <= block_timestamp e /\ auctionProcessed l = false)
  /\ (forall ka la l' la',
        initializeAuction k e ka l la = Ok (l', la') ->
        auctionProcessed l' = false
        /\ (exists friday,
              TimeCalendar._getFriday (block_timestamp e) = Ok friday
              /\ startTime l' = friday + startOffset l)
        /\ forall e' amount receiver owner,
             (withdraw k e' l' amount receiver owner = Revert AuctionNotProcessed
              <-> startTime l' <= block_timestamp e')
             /\ (redeem k e' l' amount receiver owner = Revert AuctionNotProcessed
                 <-> startTime l' <= block_timestamp e'))
  /\ (forall ka la l' la' fx,
        processAuction k e ka l la = Ok (l', la', fx) ->
        auctionProcessed l' = true
        /\ startTime l' = startTime l
        /\ forall e' amount receiver owner,
             withdraw k e' l' amount receiver owner <> Revert AuctionNotProcessed
             /\ redeem k e' l' amount receiver owner <> Revert AuctionNotProcessed).
Proof.
  assert (Hw : forall e0 l0 a r o,
             withdraw k e0 l0 a r o = Revert AuctionNotProcessed
             <-> startTime l0 <= block_timestamp e0 /\ auctionProcessed l0 = false).
  { intros. apply withdrawalsLocked_guard, _withdraw_locked. }
  assert (Hr : forall e0 l0 a r o,
             redeem k e0 l0 a r o = Revert AuctionNotProcessed
             <-> startTime l0 <= block_timestamp e0 /\ auctionProcessed l0 = false).
  { intros. apply withdrawalsLocked_guard, _redeem_locked. }
  split; [intros; apply Hw|]. split; [intros; apply Hr|]. split.
  - intros ka la l' la' E. unfold initializeAuction in E.
    apply bind_Ok in E as (_ & _ & E).
    apply bind_Ok in E as ([option l1] & Hopt & E).
    apply bind_Ok in E as (friday & Hfriday & E).
    apply bind_Ok in E as (start & Hstart & E).
    apply bind_Ok in E as (stop & _ & E).
    apply bind_Ok in E as (la1 & _ & E).
    apply Ok_inj in E. injection E as <- _.
    apply uadd_Ok in Hstart as [-> _].
    assert (Hoff : startOffset l1 = startOffset l).
    { unfold _setOptionParameters in Hopt.
      apply bind_Ok in Hopt as (f & _ & Hopt).
      apply bind_Ok in Hopt as (i1 & _ & Hopt).
      apply bind_Ok in Hopt as (i2 & _ & Hopt).
      apply Ok_inj in Hopt. injection Hopt as _ <-. reflexivity. }
    split; [reflexivity|]. split.
    + exists friday. split; [exact Hfriday|]. simpl. rewrite Hoff. reflexivity.
    + intros e' amount receiver owner. rewrite Hw, Hr. simpl.
      split; (split; [intros [H _]; exact H | intros H; split; [exact H | reflexivity]]).
  - intros ka la l' la' fx E. unfold processAuction in E.
    apply bind_Ok in E as (_ & _ & E).
    apply bind_Ok in E as (total & _ & E).
    apply bind_Ok in E as (_ & _ & E).
    apply bind_Ok in E as ([la1 fx1] & _ & E).
    apply Ok_inj in E. injection E as <- _ _.
    split; [reflexivity|]. split; [reflexivity|].
    intros e' amount receiver owner. rewrite Hw, Hr. simpl.
    split; intros [_ H]; discriminate H.
Qed.

(** The vault of the scenario: its auction of epoch 0 starts at 122400.
    A withdrawal one second earlier is not stopped by the lock (it fails
    for another reason), a withdrawal at 122400 is; once the cancelled
    auction has been processed, withdrawals are no longer locked. *)
Lemma C7_withdrawal_lock_witness :
  startTime Scenario.vault_initialized = 122400
  /\ auctionProcessed Scenario.vault_initialized = false
  /\ withdraw Scenario.vaultK (Scenario.vaultEnv 122400 3 1000 0)
       Scenario.vault_initialized 10 3 3 = Revert AuctionNotProcessed
  /\ withdraw Scenario.vaultK (Scenario.vaultEnv 122399 3 1000 0)
       Scenario.vault_initialized 10 3 3 <> Revert AuctionNotProcessed
  /\ auctionProcessed Scenario.vault_processed = true
  /\ withdraw Scenario.vaultK (Scenario.vaultEnv 300002 3 1000 0)
       Scenario.vault_processed 10 3 3 <> Revert AuctionNotProcessed.
Proof.
  destruct (C7_withdrawal_lock Scenario.vaultK (Scenario.vaultEnv 100 2 1000 0)
              Scenario.vault0) as (_ & _ & Hinit & _).
  destruct (Hinit Scenario.auctionK (Auction.initial 1 0)
              Scenario.vault_initialized Scenario.auction_of_vault)
    as (Hflag & _ & Hlock).
  { vm_compute. reflexivity. }
  destruct (C7_withdrawal_lock Scenario.vaultK (Scenario.vaultEnv 300001 2 1000 0)
              Scenario.vault_initialized) as (_ & _ & _ & Hproc).
  destruct (Hproc Scenario.auctionK Scenario.timed_out Scenario.vault_processed
              Scenario.timed_out [])
    as (Hdone & _ & Hfree).
  { vm_compute. reflexivity. }
  assert (Hstart : startTime Scenario.vault_initialized = 122400)
    by (vm_compute; reflexivity).
  split; [exact Hstart|]. split; [exact Hflag|].
  split.
  { apply (proj1 (Hlock (Scenario.vaultEnv 122400 3 1000 0) 10 3 3)).
    rewrite Hstart. simpl. lia. }
  split.
  { intros E.
    apply (proj1 (Hlock (Scenario.vaultEnv 122399 3 1000 0) 10 3 3)) in E.
    rewrite Hstart in E. simpl in E. lia. }
  split; [exact Hdone|].
  exact (proj1 (Hfree (Scenario.vaultEnv 300002 3 1000 0) 10 3 3)).
Defined.

End LockFacts.

(** ** The expiry of the next option ([_getNextFriday]) *)

Module ExpiryFacts.

Import TimeCalendar.

(** The two calendar functions on a timestamp far from the end of the
    range: the Friday 08:00 on or after the day of the timestamp, and what
    each function makes of it. *)
Lemma calendar_values t :
  0 <= t -> t + 2 * WEEK <= MAX_UINT256 ->
  exists friday8am,
    isFriday8am friday8am /\ t - DAY + 8 * HOUR < friday8am <= t + 6 * DAY + 8 * HOUR
    /\ _getFriday t = Ok (if t >=? friday8am then friday8am + WEEK else friday8am)
    /\ _getNextFriday t
       = Ok (if (t >=? friday8am) || (friday8am - t <? 4 * DAY)
             then friday8am + WEEK else friday8am).
Proof.
  intros H0 Hmax.
  set (k := (7 + 5 - (t / DAY + 4) mod 7) mod 7).
  exists (t + k * DAY - (t + k * DAY) mod DAY + 8 * HOUR).
  assert (Hk : 0 <= k < 7) by (apply Z.mod_pos_bound; lia).
  assert (Hr : 0 <= (t + k * DAY) mod DAY < DAY)
    by (apply Z.mod_pos_bound; unfold DAY; lia).
  assert (Hle : (t + k * DAY) mod DAY <= t + k * DAY)
    by (apply Z.mod_le; unfold DAY; lia).
  split; [|split; [|split]].
  - subst k. unfold isFriday8am, FRIDAY_8AM, WEEK, DAY, HOUR in *.
    Z.to_euclidean_division_equations; lia.
  - subst k. unfold DAY, HOUR in *. Z.to_euclidean_division_equations; lia.
  - unfold _getFriday. fold k. change (24 * HOUR) with DAY. change (7 * DAY) with WEEK.
    clearbody k. unfold WEEK, DAY, HOUR in *.
    rewrite uadd_fits, Ok_bind by lia.
    rewrite usub_fits, Ok_bind by lia.
    rewrite uadd_fits, Ok_bind by lia.
    destruct (t >=? _); [apply uadd_fits; lia | reflexivity].
  - unfold _getNextFriday. fold k. change (24 * HOUR) with DAY. change (7 * DAY) with WEEK.
    clearbody k. unfold WEEK, DAY, HOUR in *.
    rewrite uadd_fits, Ok_bind by lia.
    rewrite usub_fits, Ok_bind by lia.
    rewrite uadd_fits, Ok_bind by lia.
    destruct (_ || _); [apply uadd_fits; lia | reflexivity].
Qed.

(** X1.  [_getNextFriday] answers a Friday 08:00 UTC that lies at least
    four days and less than eleven days after the timestamp: the expiry of
    an option is never closer than four days. *)
Theorem getNextFriday_between_4_and_11_days (t : Z) :
  0 <= t -> t + 2 * WEEK <= MAX_UINT256 ->
  exists expiry,
    _getNextFriday t = Ok expiry
    /\ isFriday8am expiry
    /\ t + 4 * DAY <= expiry < t + 11 * DAY.
Proof.
  intros H0 Hmax.
  destruct (calendar_values t H0 Hmax) as (f & Hf & Hrange & _ & Hnext).
  eexists. split; [exact Hnext|].
  rewrite Z.geb_leb.
  destruct (Z.leb_spec f t) as [Hft|Hft]; cbn [orb].
  - split; [|unfold WEEK, DAY, HOUR in *; lia].
    unfold isFriday8am, FRIDAY_8AM, WEEK, DAY, HOUR in *.
    Z.to_euclidean_division_equations; lia.
  - destruct (Z.ltb_spec (f - t) (4 * DAY)) as [Hnear|Hfar].
    + split; [|unfold WEEK, DAY, HOUR in *; lia].
      unfold isFriday8am, FRIDAY_8AM, WEEK, DAY, HOUR in *.
      Z.to_euclidean_division_equations; lia.
    + split; [exact Hf | unfold WEEK, DAY, HOUR in *; lia].
Qed.

Lemma getNextFriday_between_4_and_11_days_witness :
  exists expiry,
    _getNextFriday 1660000000 = Ok expiry
    /\ isFriday8am expiry
    /\ 1660000000 + 4 * DAY <= expiry < 1660000000 + 11 * DAY.
Proof.
  apply (getNextFriday_between_4_and_11_days 1660000000); vm_compute; discriminate.
Defined.

(** X2.  The expiry [_getNextFriday] answers is the Friday [_getFriday]
    answers when that Friday is four days away or more, and the Friday a
    week later when it is closer. *)
Theorem getNextFriday_after_getFriday (t : Z) :
  0 <= t -> t + 2 * WEEK <= MAX_UINT256 ->
  exists friday,
    _getFriday t = Ok friday
    /\ _getNextFriday t
       = Ok (if friday - t <? 4 * DAY then friday + WEEK else friday).
Proof.
  intros H0 Hmax.
  destruct (calendar_values t H0 Hmax) as (f & Hf & Hrange & Hfri & Hnext).
  eexists. split; [exact Hfri|]. rewrite Hnext. f_equal.
  rewrite Z.geb_leb.
  destruct (Z.leb_spec f t) as [Hft|Hft]; cbn [orb].
  - destruct (Z.ltb_spec (f + WEEK - t) (4 * DAY)); [|reflexivity].
    unfold WEEK, DAY, HOUR in *. lia.
  - reflexivity.
Qed.

Lemma getNextFriday_after_getFriday_witness :
  exists friday,
    _getFriday 1660000000 = Ok friday
    /\ _getNextFriday 1660000000
       = Ok (if friday - 1660000000 <? 4 * DAY then friday + WEEK else friday).
Proof.
  apply (getNextFriday_after_getFriday 1660000000); vm_compute; discriminate.
Defined.

End ExpiryFacts.

(** ** The token ids of the options ([_formatTokenId]) *)

Module TokenIdFacts.

Import VaultStorage Vault.

Lemma tokenType_value_range t : 0 <= tokenType_value t <= 7.
Proof. destruct t; simpl; lia. Qed.

Lemma tokenType_value_inj t t' : tokenType_value t = tokenType_value t' -> t = t'.
Proof. destruct t, t'; simpl; intros H; first [reflexivity | discriminate H]. Qed.

Lemma _formatTokenId_value tokenType maturity strike64x64 :
  0 <= maturity < 2 ^ 64 -> 0 <= strike64x64 <= MAX_64x64 ->
  _formatTokenId tokenType maturity strike64x64
  = Ok (tokenType_value tokenType * 2 ^ 248 + maturity * 2 ^ 128 + strike64x64).
Proof.
  intros Hm Hs. unfold _formatTokenId.
  pose proof (tokenType_value_range tokenType) as Ht.
  rewrite !Z.shiftl_mul_pow2 by lia.
  rewrite Z.mod_small by (unfold MAX_64x64 in Hs; lia).
  unfold MAX_64x64, MAX_UINT256 in *.
  rewrite uadd_fits, Ok_bind by (unfold MAX_UINT256; lia).
  apply uadd_fits. unfold MAX_UINT256. lia.
Qed.

(** X3.  For a maturity of 64 bits and a strike that is not negative,
    [_formatTokenId] does not revert and loses nothing: two ids are equal
    only if the token types, the maturities and the strikes are. *)
Theorem formatTokenId_injective
    (tokenType tokenType' : TokenType) (maturity maturity' strike64x64 strike64x64' : Z) :
  0 <= maturity < 2 ^ 64 -> 0 <= strike64x64 <= MAX_64x64 ->
  0 <= maturity' < 2 ^ 64 -> 0 <= strike64x64' <= MAX_64x64 ->
  exists tokenId tokenId',
    _formatTokenId tokenType maturity strike64x64 = Ok tokenId
    /\ _formatTokenId tokenType' maturity' strike64x64' = Ok tokenId'
    /\ 0 <= tokenId <= MAX_UINT256
    /\ (tokenId = tokenId' ->
        tokenType = tokenType' /\ maturity = maturity' /\ strike64x64 = strike64x64').
Proof.
  intros Hm Hs Hm' Hs'.
  rewrite !_formatTokenId_value by assumption.
  eexists _, _. split; [reflexivity|]. split; [reflexivity|].
  pose proof (tokenType_value_range tokenType) as Ht.
  pose proof (tokenType_value_range tokenType') as Ht'.
  unfold MAX_64x64, MAX_UINT256 in *. split; [lia|].
  intros E.
  assert (tokenType_value tokenType = tokenType_value tokenType') as Et by lia.
  split; [apply tokenType_value_inj; exact Et|]. lia.
Qed.

(** The long and the short token of one option have different ids. *)
Lemma formatTokenId_injective_witness :
  exists tokenId tokenId',
    _formatTokenId LONG_CALL 720000 (2000 * 2 ^ 64) = Ok tokenId
    /\ _formatTokenId SHORT_CALL 720000 (2000 * 2 ^ 64) = Ok tokenId'
    /\ tokenId <> tokenId'.
Proof.
  destruct (formatTokenId_injective LONG_CALL SHORT_CALL 720000 720000
              (2000 * 2 ^ 64) (2000 * 2 ^ 64))
    as (tokenId & tokenId' & H1 & H2 & _ & Hinj);
    try (vm_compute; split; first [discriminate | reflexivity]).
  exists tokenId, tokenId'. split; [exact H1|]. split; [exact H2|].
  intros E. destruct (Hinj E) as (Et & _). discriminate Et.
Defined.

(** X4.  A negative strike is read as an unsigned number of 256 bits, so
    with any maturity other than zero the sum overflows and
    [_formatTokenId] reverts. *)
Theorem formatTokenId_negative_strike_reverts
    (tokenType : TokenType) (maturity strike64x64 : Z) :
  0 < maturity < 2 ^ 64 -> MIN_64x64 <= strike64x64 < 0 ->
  _formatTokenId tokenType maturity strike64x64 = Revert panic_overflow.
Proof.
  intros Hm Hs. unfold _formatTokenId.
  pose proof (tokenType_value_range tokenType) as Ht.
  rewrite !Z.shiftl_mul_pow2 by lia.
  replace (strike64x64 mod 2 ^ 256) with (2 ^ 256 + strike64x64).
  2:{ apply Z.mod_unique with (q := -1); unfold MIN_64x64 in Hs; lia. }
  unfold MIN_64x64, MAX_UINT256 in *.
  rewrite uadd_fits, Ok_bind by (unfold MAX_UINT256; lia).
  unfold uadd, MAX_UINT256.
  match goal with |- context [?a <=? ?b] => destruct (Z.leb_spec a b) as [H|H] end;
    [lia | reflexivity].
Qed.

Lemma formatTokenId_negative_strike_reverts_witness :
  _formatTokenId LONG_PUT 720000 (- (2 ^ 64)) = Revert panic_overflow.
Proof.
  apply (formatTokenId_negative_strike_reverts LONG_PUT 720000 (- (2 ^ 64)));
    vm_compute; split; first [discriminate | reflexivity].
Defined.

End TokenIdFacts.

(** ** The price curve of the auction ([_priceCurve64x64]) *)

Module PriceCurveFacts.

Import AuctionStorage Auction.

Lemma sub_fits x y :
  MIN_64x64 <= x - y <= MAX_64x64 -> ABDKMath64x64.sub x y = Ok (x - y).
Proof.
  intros H. unfold ABDKMath64x64.sub, ABDKMath64x64.fits.
  replace (MIN_64x64 <=? x - y) with true by (symmetry; apply Z.leb_le; lia).
  replace (x - y <=? MAX_64x64) with true by (symmetry; apply Z.leb_le; lia).
  reflexivity.
Qed.

Lemma mul_fits x y :
  MIN_64x64 <= x * y / 2 ^ 64 <= MAX_64x64 ->
  ABDKMath64x64.mul x y = Ok (x * y / 2 ^ 64).
Proof.
  intros H. unfold ABDKMath64x64.mul, ABDKMath64x64.fits.
  rewrite Z.shiftr_div_pow2 by lia.
  replace (MIN_64x64 <=? x * y / 2 ^ 64) with true by (symmetry; apply Z.leb_le; lia).
  replace (x * y / 2 ^ 64 <=? MAX_64x64) with true by (symmetry; apply Z.leb_le; lia).
  reflexivity.
Qed.

(** The part of the price range that has been taken off after [elapsed]
    seconds out of [total]. *)
Lemma discount_range elapsed total x :
  0 <= elapsed <= total -> 0 < total -> 0 <= x ->
  0 <= elapsed * 2 ^ 64 / total * x / 2 ^ 64 <= x.
Proof.
  intros He Ht Hx.
  assert (Hq : 0 <= elapsed * 2 ^ 64 / total <= 2 ^ 64).
  { split; [apply Z.div_pos; lia|]. apply Z.div_le_upper_bound; [lia | nia]. }
  split; [apply Z.div_pos; [nia | lia]|].
  apply Z.div_le_upper_bound; [lia | nia].
Qed.

Lemma discount_mono elapsed elapsed' total x :
  0 <= elapsed <= elapsed' -> 0 < total -> 0 <= x ->
  elapsed * 2 ^ 64 / total * x / 2 ^ 64 <= elapsed' * 2 ^ 64 / total * x / 2 ^ 64.
Proof.
  intros He Ht Hx.
  assert (Hq : elapsed * 2 ^ 64 / total <= elapsed' * 2 ^ 64 / total)
    by (apply Z.div_le_mono; lia).
  apply Z.div_le_mono; [lia | nia].
Qed.

(** The price while the auction runs. *)
Lemma _priceCurve64x64_value e a :
  0 <= startTime a < endTime a ->
  startTime a < block_timestamp e <= endTime a ->
  0 <= minPrice64x64 a <= maxPrice64x64 a -> maxPrice64x64 a <= MAX_64x64 ->
  _priceCurve64x64 e a
  = Ok (maxPrice64x64 a
        - (block_timestamp e - startTime a) * 2 ^ 64 / (endTime a - startTime a)
          * (maxPrice64x64 a - minPrice64x64 a) / 2 ^ 64).
Proof.
  intros Hwin Hnow Hprices Hmax. unfold _priceCurve64x64. cbv zeta.
  rewrite (usub_fits (endTime a)), Ok_bind by lia.
  replace (block_timestamp e <=? startTime a) with false
    by (symmetry; apply Z.leb_gt; lia).
  rewrite usub_fits, Ok_bind by lia.
  rewrite ABDKFacts.divu_fits, Ok_bind by lia.
  pose proof (discount_range (block_timestamp e - startTime a)
                (endTime a - startTime a) (maxPrice64x64 a - minPrice64x64 a)
                ltac:(lia) ltac:(lia) ltac:(lia)) as Hd.
  unfold MIN_64x64, MAX_64x64 in *.
  rewrite sub_fits, Ok_bind by (unfold MIN_64x64, MAX_64x64; lia).
  rewrite mul_fits, Ok_bind by (unfold MIN_64x64, MAX_64x64; lia).
  apply sub_fits. unfold MIN_64x64, MAX_64x64. lia.
Qed.

(** X5.  Up to the end of the auction the price curve answers a price
    between the minimal and the maximal price: the maximal price until the
    start, the minimal price at the end. *)
Theorem priceCurve_between_min_and_max (e : Env) (a : Auction) :
  0 <= startTime a < endTime a ->
  block_timestamp e <= endTime a ->
  0 <= minPrice64x64 a <= maxPrice64x64 a -> maxPrice64x64 a <= MAX_64x64 ->
  exists price64x64,
    _priceCurve64x64 e a = Ok price64x64
    /\ minPrice64x64 a <= price64x64 <= maxPrice64x64 a
    /\ (block_timestamp e <= startTime a -> price64x64 = maxPrice64x64 a)
    /\ (block_timestamp e = endTime a -> price64x64 = minPrice64x64 a).
Proof.
  intros Hwin Hnow Hprices Hmax.
  destruct (Z.le_gt_cases (block_timestamp e) (startTime a)) as [Hbefore|Hafter].
  - exists (maxPrice64x64 a). split.
    + unfold _priceCurve64x64. cbv zeta.
      rewrite (usub_fits (endTime a)), Ok_bind by lia.
      replace (block_timestamp e <=? startTime a) with true
        by (symmetry; apply Z.leb_le; lia).
      reflexivity.
    + split; [lia|]. split; [reflexivity | lia].
  - eexists. split; [apply _priceCurve64x64_value; lia|].
    pose proof (discount_range (block_timestamp e - startTime a)
                  (endTime a - startTime a) (maxPrice64x64 a - minPrice64x64 a)
                  ltac:(lia) ltac:(lia) ltac:(lia)) as Hd.
    split; [lia|]. split; [lia|].
    intros Hend. rewrite Hend.
    replace ((endTime a - startTime a) * 2 ^ 64 / (endTime a - startTime a))
      with (2 ^ 64) by (rewrite Z.mul_comm, Z.div_mul; lia).
    rewrite (Z.mul_comm (2 ^ 64)), Z.div_mul by lia. lia.
Qed.

(** Half way through the auction of the scenario, whose prices go from
    100 down to 10, the price is 55. *)
Lemma priceCurve_between_min_and_max_witness :
  exists price64x64,
    _priceCurve64x64 (Scenario.auctionEnv 1500 3) (auction_of Scenario.opened 0)
      = Ok price64x64
    /\ price64x64 = Scenario.fixed 55.
Proof.
  assert (H1 : 0 <= startTime (auction_of Scenario.opened 0)
               < endTime (auction_of Scenario.opened 0))
    by (vm_compute; split; first [discriminate | reflexivity]).
  assert (H2 : block_timestamp (Scenario.auctionEnv 1500 3)
               <= endTime (auction_of Scenario.opened 0))
    by (vm_compute; discriminate).
  assert (H3 : 0 <= minPrice64x64 (auction_of Scenario.opened 0)
               <= maxPrice64x64 (auction_of Scenario.opened 0))
    by (vm_compute; split; discriminate).
  assert (H4 : maxPrice64x64 (auction_of Scenario.opened 0) <= MAX_64x64)
    by (vm_compute; discriminate).
  destruct (priceCurve_between_min_and_max (Scenario.auctionEnv 1500 3)
              (auction_of Scenario.opened 0) H1 H2 H3 H4)
    as (p & Hp & _).
  exists p. split; [exact Hp|].
  vm_compute in Hp. injection Hp as <-. reflexivity.
Defined.

(** X6.  The price curve never rises: of two times up to the end of the
    auction, the later one has the lower price, or the same. *)
Theorem priceCurve_never_rises (e e' : Env) (a : Auction) :
  0 <= startTime a < endTime a ->
  block_timestamp e <= block_timestamp e' -> block_timestamp e' <= endTime a ->
  0 <= minPrice64x64 a <= maxPrice64x64 a -> maxPrice64x64 a <= MAX_64x64 ->
  exists price64x64 price64x64',
    _priceCurve64x64 e a = Ok price64x64
    /\ _priceCurve64x64 e' a = Ok price64x64'
    /\ price64x64' <= price64x64.
Proof.
  intros Hwin Hord Hnow Hprices Hmax.
  destruct (Z.le_gt_cases (block_timestamp e') (startTime a)) as [Hbefore'|Hafter'].
  - exists (maxPrice64x64 a), (maxPrice64x64 a).
    unfold _priceCurve64x64. cbv zeta.
      rewrite (usub_fits (endTime a)), Ok_bind by lia.
    replace (block_timestamp e <=? startTime a) with true
      by (symmetry; apply Z.leb_le; lia).
    replace (block_timestamp e' <=? startTime a) with true
      by (symmetry; apply Z.leb_le; lia).
    split; [reflexivity|]. split; [reflexivity | lia].
  - pose proof (discount_range (block_timestamp e' - startTime a)
                  (endTime a - startTime a) (maxPrice64x64 a - minPrice64x64 a)
                  ltac:(lia) ltac:(lia) ltac:(lia)) as Hd'.
    destruct (Z.le_gt_cases (block_timestamp e) (startTime a)) as [Hbefore|Hafter].
    + exists (maxPrice64x64 a). eexists. split.
      * unfold _priceCurve64x64. cbv zeta.
      rewrite (usub_fits (endTime a)), Ok_bind by lia.
        replace (block_timestamp e <=? startTime a) with true
          by (symmetry; apply Z.leb_le; lia).
        reflexivity.
      * split; [apply _priceCurve64x64_value; lia | lia].
    + eexists _, _. split; [apply _priceCurve64x64_value; lia|].
      split; [apply _priceCurve64x64_value; lia|].
      pose proof (discount_mono (block_timestamp e - startTime a)
                    (block_timestamp e' - startTime a)
                    (endTime a - startTime a) (maxPrice64x64 a - minPrice64x64 a)
                    ltac:(lia) ltac:(lia) ltac:(lia)).
      lia.
Qed.

Lemma priceCurve_never_rises_witness :
  exists price64x64 price64x64',
    _priceCurve64x64 (Scenario.auctionEnv 1200 3) (auction_of Scenario.opened 0)
      = Ok price64x64
    /\ _priceCurve64x64 (Scenario.auctionEnv 1700 3) (auction_of Scenario.opened 0)
      = Ok price64x64'
    /\ price64x64' <= price64x64.
Proof.
  assert (H1 : 0 <= startTime (auction_of Scenario.opened 0)
               < endTime (auction_of Scenario.opened 0))
    by (vm_compute; split; first [discriminate | reflexivity]).
  assert (H2 : block_timestamp (Scenario.auctionEnv 1200 3)
               <= block_timestamp (Scenario.auctionEnv 1700 3))
    by (vm_compute; discriminate).
  assert (H3 : block_timestamp (Scenario.auctionEnv 1700 3)
               <= endTime (auction_of Scenario.opened 0))
    by (vm_compute; discriminate).
  assert (H4 : 0 <= minPrice64x64 (auction_of Scenario.opened 0)
               <= maxPrice64x64 (auction_of Scenario.opened 0))
    by (vm_compute; split; discriminate).
  assert (H5 : maxPrice64x64 (auction_of Scenario.opened 0) <= MAX_64x64)
    by (vm_compute; discriminate).
  exact (priceCurve_never_rises (Scenario.auctionEnv 1200 3) (Scenario.auctionEnv 1700 3)
           (auction_of Scenario.opened 0) H1 H2 H3 H4 H5).
Defined.

End PriceCurveFacts.

(** ** The life of an auction *)

Module LifecycleFacts.

Import AuctionStorage Auction AuctionSpec StorageFacts TransactionFacts InvariantFacts.

(** No step leaves a processed or cancelled record. *)
Lemma auction_step_open a a' :
  auction_step a a' ->
  status a = UNINITIALIZED \/ status a = INITIALIZED \/ status a = FINALIZED.
Proof.
  intros Hstep. inversion Hstep; subst; tauto.
Qed.

(** X7.  Processed and cancelled are final: once an auction is in one of
    them, no transaction changes any field of its record again. *)
Theorem closed_auction_never_changes (k : Immutables) (l l' : Layout) (epoch : Z) :
  reachable k l ->
  status (auction_of l epoch) = PROCESSED \/ status (auction_of l epoch) = CANCELLED ->
  reachable_from k l l' ->
  auction_of l' epoch = auction_of l epoch.
Proof.
  intros Hr Hclosed Hfrom.
  apply (reachable_from_auction_invariant k (fun a => a = auction_of l epoch) l epoch Hr);
    [|reflexivity|exact Hfrom].
  intros a a' -> Hstep. apply auction_step_open in Hstep.
  destruct Hclosed as [H|H]; rewrite H in Hstep;
    destruct Hstep as [?|[?|?]]; discriminate.
Qed.

Lemma run_reachable_from calls :
  forall l l',
  Forall (fun ec => typed ec.1) calls ->
  Scenario.run calls l = Ok l' -> reachable_from Scenario.auctionK l l'.
Proof.
  induction calls as [|[e c] calls IH] using rev_ind; intros l l' Hty; simpl.
  - intros [= <-]. apply reachable_from_refl.
  - assert (Happ : forall cs1 cs2 l0,
               Scenario.run (cs1 ++ cs2) l0 = (l1 ← Scenario.run cs1 l0; Scenario.run cs2 l1)).
    { induction cs1 as [|[e1 c1] cs1 IH1]; intros cs2 l0; simpl; [reflexivity|].
      destruct (exec Scenario.auctionK e1 c1 l0) as [[l1 fx]|msg]; simpl;
        [apply IH1 | reflexivity]. }
    rewrite Happ. intros E. apply bind_Ok in E as (l1 & E1 & E). simpl in E.
    apply bind_Ok in E as ([l2 fx] & E2 & E). injection E as <-.
    apply Forall_app in Hty as (Hty1 & Hty2). apply Forall_cons in Hty2 as (Hty2 & _).
    eapply reachable_from_exec; [apply IH; eassumption | exact Hty2 | exact E2].
Qed.

Lemma run_state_from calls l l' :
  Forall (fun ec => typed ec.1) calls ->
  Scenario.run calls l = Ok l' ->
  reachable_from Scenario.auctionK l (Scenario.state_of (Scenario.run calls l)).
Proof. intros Hty E. rewrite E. simpl. eapply run_reachable_from; eassumption. Qed.

Ltac scenario_from :=
  eapply run_state_from;
  [ repeat constructor; simpl; lia
  | vm_compute; reflexivity ].

Lemma withdrawn_from_processed :
  reachable_from Scenario.auctionK Scenario.processed Scenario.withdrawn.
Proof. scenario_from. Qed.

Lemma abandoned_reachable : reachable Scenario.auctionK Scenario.abandoned.
Proof.
  eapply reachable_from_reachable; [apply ScenarioFacts.two_bids_reachable|].
  scenario_from.
Qed.

(** The withdrawal of buyer 1 leaves the record of the processed auction
    as it was. *)
Lemma closed_auction_never_changes_witness :
  status (auction_of Scenario.processed 0) = PROCESSED
  /\ auction_of Scenario.withdrawn 0 = auction_of Scenario.processed 0.
Proof.
  assert (Hst : status (auction_of Scenario.processed 0) = PROCESSED)
    by (vm_compute; reflexivity).
  split; [exact Hst|].
  exact (closed_auction_never_changes Scenario.auctionK Scenario.processed
           Scenario.withdrawn 0 ScenarioFacts.processed_reachable
           (or_introl Hst) withdrawn_from_processed).
Defined.

(** What an initialized record keeps: its status is never uninitialized
    again, the parameters [initialize] wrote stay, and so does the number of
    contracts once it is set. *)
Lemma parameters_step a0 a a' :
  (status a <> UNINITIALIZED
   /\ expiry a = expiry a0 /\ strike64x64 a = strike64x64 a0
   /\ startTime a = startTime a0 /\ endTime a = endTime a0
   /\ longTokenId a = longTokenId a0
   /\ (0 < totalContracts a0 -> totalContracts a = totalContracts a0)) ->
  auction_step a a' ->
  status a' <> UNINITIALIZED
  /\ expiry a' = expiry a0 /\ strike64x64 a' = strike64x64 a0
  /\ startTime a' = startTime a0 /\ endTime a' = endTime a0
  /\ longTokenId a' = longTokenId a0
  /\ (0 < totalContracts a0 -> totalContracts a' = totalContracts a0).
Proof.
  intros (Hst & He & Hk & Hs & Hend & Hl & Ht) Hstep.
  inversion Hstep as [ ? i Hu | ? Hu | ? maxP minP Hi | ? maxP minP Hi | ? Hi
                     | ? t sold price fin Hi Ht0 Hsame Hsold | ? p Hf Hp Hm | ? t Hf ];
    subst; try congruence.
  - simpl. repeat split; try assumption; rewrite Hi; discriminate.
  - simpl. repeat split; try assumption; discriminate.
  - simpl. repeat split; try assumption; discriminate.
  - destruct fin; simpl; (repeat split; try assumption; try discriminate;
      try (rewrite Hi; discriminate)); intros Hpos; specialize (Ht Hpos); rewrite <- Ht; apply Hsame; lia.
  - simpl. repeat split; try assumption; rewrite Hf; discriminate.
  - simpl. repeat split; try assumption; discriminate.
Qed.

(** X8.  An epoch is initialized once.  From then on the expiry, the
    strike, the start and end times and the long token of its auction
    never change, nor does the number of contracts on offer once it is set,
    and [initialize] reverts for that epoch. *)
Theorem initialized_parameters_never_change (k : Immutables) (l l' : Layout) (epoch : Z) :
  reachable k l ->
  status (auction_of l epoch) <> UNINITIALIZED ->
  reachable_from k l l' ->
  expiry (auction_of l' epoch) = expiry (auction_of l epoch)
  /\ strike64x64 (auction_of l' epoch) = strike64x64 (auction_of l epoch)
  /\ startTime (auction_of l' epoch) = startTime (auction_of l epoch)
  /\ endTime (auction_of l' epoch) = endTime (auction_of l epoch)
  /\ longTokenId (auction_of l' epoch) = longTokenId (auction_of l epoch)
  /\ (0 < totalContracts (auction_of l epoch) ->
      totalContracts (auction_of l' epoch) = totalContracts (auction_of l epoch))
  /\ (forall e initAuction,
        msg_sender e = Vault k -> init_epoch initAuction = epoch ->
        initialize k e l' initAuction = Revert "status != uninitialized").
Proof.
  intros Hr Hst Hfrom.
  pose proof (reachable_from_auction_invariant k
                (fun a =>
                   status a <> UNINITIALIZED
                   /\ expiry a = expiry (auction_of l epoch)
                   /\ strike64x64 a = strike64x64 (auction_of l epoch)
                   /\ startTime a = startTime (auction_of l epoch)
                   /\ endTime a = endTime (auction_of l epoch)
                   /\ longTokenId a = longTokenId (auction_of l epoch)
                   /\ (0 < totalContracts (auction_of l epoch) ->
                       totalContracts a = totalContracts (auction_of l epoch)))
                l epoch Hr (parameters_step (auction_of l epoch))
                ltac:(repeat split; try reflexivity; exact Hst) l' Hfrom)
    as (Hst' & He & Hk & Hs & Hend & Hl & Ht).
  repeat (split; [assumption|]).
  intros e i Hv <-. unfold initialize.
  rewrite (PriceFacts.onlyVault_Ok k e Hv), Ok_bind.
  destruct (status (auction_of l' (init_epoch i))); [congruence | | | |]; reflexivity.
Qed.

(** The auction of the scenario keeps its times through the bids and the
    processing, and cannot be initialized again. *)
Lemma initialized_parameters_never_change_witness :
  startTime (auction_of Scenario.withdrawn 0) = 1000
  /\ endTime (auction_of Scenario.withdrawn 0) = 2000
  /\ initialize Scenario.auctionK (Scenario.auctionEnv 100001 900) Scenario.withdrawn
       (mkInitAuction 0 700000 (Scenario.fixed 2000) 77 200000 300000)
     = Revert "status != uninitialized".
Proof.
  assert (Hst : status (auction_of Scenario.processed 0) <> UNINITIALIZED)
    by (vm_compute; discriminate).
  destruct (initialized_parameters_never_change Scenario.auctionK Scenario.processed
              Scenario.withdrawn 0 ScenarioFacts.processed_reachable Hst
              withdrawn_from_processed)
    as (_ & _ & Hs & He & _ & _ & Hinit).
  split; [rewrite Hs; vm_compute; reflexivity|].
  split; [rewrite He; vm_compute; reflexivity|].
  exact (Hinit (Scenario.auctionEnv 100001 900)
           (mkInitAuction 0 700000 (Scenario.fixed 2000) 77 200000 300000)
           eq_refl eq_refl).
Defined.

(** A cancelled record carries the sentinel price and no premiums. *)
Lemma cancelled_step a a' :
  (status a = CANCELLED -> lastPrice64x64 a = MAX_64x64 /\ totalPremiums a = 0) ->
  auction_step a a' ->
  status a' = CANCELLED -> lastPrice64x64 a' = MAX_64x64 /\ totalPremiums a' = 0.
Proof.
  intros H Hstep.
  inversion Hstep as [ ? i Hu | ? Hu | ? maxP minP Hi | ? maxP minP Hi | ? Hi
                     | ? t sold price fin Hi Ht0 Hsame Hsold | ? p Hf Hp Hm | ? t Hf ];
    subst; simpl; try (intros; split; reflexivity); try congruence.
  destruct fin; simpl; congruence.
Qed.

Lemma cancelled_sentinel k l epoch :
  reachable k l -> status (auction_of l epoch) = CANCELLED ->
  lastPrice64x64 (auction_of l epoch) = MAX_64x64 /\ totalPremiums (auction_of l epoch) = 0.
Proof.
  intros Hr.
  apply (reachable_auction_invariant k
           (fun a => status a = CANCELLED ->
                     lastPrice64x64 a = MAX_64x64 /\ totalPremiums a = 0));
    [simpl; discriminate | apply cancelled_step | exact Hr].
Qed.

Lemma total_cost_cancelled buyer total book :
  forall sold, total_cost buyer MAX_64x64 total sold book = 0.
Proof.
  induction book as [|d book IH]; intros sold; simpl; [reflexivity|].
  rewrite IH. unfold cost, accepted. rewrite Z.ltb_irrefl. simpl.
  destruct (OrderBook.buyer d =? buyer); reflexivity.
Qed.

Lemma total_filled_cancelled buyer total book :
  forall sold, total_filled buyer MAX_64x64 total sold book = 0.
Proof.
  induction book as [|d book IH]; intros sold; simpl; [reflexivity|].
  rewrite IH. unfold filled, accepted. rewrite Z.ltb_irrefl. simpl.
  destruct (OrderBook.buyer d =? buyer); reflexivity.
Qed.

(** Nothing is exercised on no contracts. *)
Lemma _getExerciseAmount_nothing k e l epoch expired amount :
  _getExerciseAmount k e l epoch 0 = Ok (expired, amount) -> amount = 0.
Proof.
  unfold _getExerciseAmount. cbv zeta.
  destruct (block_timestamp e <? _); [intros [= _ <-]; reflexivity|].
  intros E. apply bind_Ok in E as (amt & Hamt & E). injection E as _ <-.
  destruct (isCall k && _).
  - apply bind_Ok in Hamt as (d & _ & Hamt). apply bind_Ok in Hamt as (q & _ & Hamt).
    unfold ABDKMath64x64.mulu in Hamt. simpl in Hamt. congruence.
  - destruct (negb (isCall k) && _); [|congruence].
    apply bind_Ok in Hamt as (d & _ & Hamt).
    unfold ABDKMath64x64.mulu in Hamt. simpl in Hamt.
    unfold OptionMath.toBaseTokenAmount, umul in Hamt.
    destruct (_ <=? _) in Hamt.
    + rewrite Z.mul_0_l in Hamt. simpl in Hamt. congruence.
    + change (0 / _) with 0 in Hamt. congruence.
Qed.

(** X9.  A cancelled auction carries the largest [int128] as its last
    price and no premiums, so a buyer who withdraws from it is sent what
    the orders paid in, [price * size] for each, and no long tokens. *)
Theorem cancelled_auction_refunds_in_full
    (k : Immutables) (e : Env) (l l' : Layout) (epoch : Z) (fx : list Effect) :
  reachable k l ->
  status (auction_of l epoch) = CANCELLED ->
  withdraw k e l epoch = Ok (l', fx) ->
  lastPrice64x64 (auction_of l epoch) = MAX_64x64
  /\ totalPremiums (auction_of l epoch) = 0
  /\ let refund := total_paid (msg_sender e) (OrderBook.orders (orderbook_of l epoch)) in
     fx = if 0 <? refund then [ERC20_safeTransfer (msg_sender e) refund] else [].
Proof.
  intros Hr Hst E.
  destruct (cancelled_sentinel k l epoch Hr Hst) as (Hprice & Hprem).
  split; [exact Hprice|]. split; [exact Hprem|]. cbv zeta.
  destruct (reachable_wf k l Hr) as (_ & Hbooks & _).
  destruct (Hbooks epoch) as (_ & Hnd & Hall).
  unfold withdraw in E. rewrite Hst in E. simpl in E.
  unfold _withdraw in E.
  apply bind_Ok in E as ([[refund fill] l1] & Hp & E).
  assert (Hsettled : refund = total_paid (msg_sender e)
                                (OrderBook.orders (orderbook_of l epoch))
                     /\ fill = 0).
  { unfold _previewWithdraw, _clearingPrice64x64 in Hp. rewrite Hst in Hp. simpl in Hp.
    unfold _lastPrice64x64 in Hp. rewrite Hprice in Hp.
    apply bind_Ok in Hp as (w & Hloop & Hp). injection Hp as <- <- _.
    unfold OrderBook._length, OrderBook._head in Hloop. rewrite Nat2Z.id in Hloop.
    destruct (orderbook_of l epoch) as [book c]. cbn [OrderBook.orders] in *.
    apply (WithdrawFacts.previewWithdraw_loop_settles _ _ _ _ c book []) in Hloop;
      [| exact Hnd | eapply Forall_impl; [exact Hall | intros d Hd; simpl in Hd; tauto] ].
    destruct Hloop as (Hsum & Hfill & _).
    rewrite total_cost_cancelled in Hsum. rewrite total_filled_cancelled in Hfill. lia. }
  destruct Hsettled as (-> & ->).
  apply bind_Ok in E as ([expired amount] & Hex & E).
  apply _getExerciseAmount_nothing in Hex as ->.
  destruct expired; simpl in E; injection E as _ <-; reflexivity.
Qed.

(** Buyer 1 of the abandoned auction paid 500 and 630 for the two orders
    and withdraws 1130. *)
Lemma cancelled_auction_refunds_in_full_witness :
  exists l',
    withdraw Scenario.auctionK (Scenario.auctionEnv 90001 1) Scenario.abandoned 0
    = Ok (l', [ERC20_safeTransfer 1 1130]).
Proof.
  destruct (withdraw Scenario.auctionK (Scenario.auctionEnv 90001 1) Scenario.abandoned 0)
    as [[l' fx]|msg] eqn:E; [|vm_compute in E; discriminate E].
  exists l'.
  assert (Hst : status (auction_of Scenario.abandoned 0) = CANCELLED)
    by (vm_compute; reflexivity).
  destruct (cancelled_auction_refunds_in_full Scenario.auctionK
              (Scenario.auctionEnv 90001 1) Scenario.abandoned l' 0 fx
              abandoned_reachable Hst E) as (_ & _ & Hfx).
  rewrite Hfx. vm_compute. reflexivity.
Defined.

(** X10.  The long tokens of a processed auction are held for a day: for
    24 hours after [processAuction] every [withdraw] of that epoch reverts,
    and afterwards the withdrawal goes ahead. *)
Theorem processed_auction_held_for_a_day
    (k : Immutables) (e e' : Env) (l l' : Layout) (epoch : Z) :
  0 <= block_timestamp e -> block_timestamp e + HOURS_24 <= MAX_UINT256 ->
  processAuction k e l epoch = Ok l' ->
  status (auction_of l' epoch) = PROCESSED
  /\ processedTime (auction_of l' epoch) = block_timestamp e
  /\ (block_timestamp e' < block_timestamp e + HOURS_24 ->
      withdraw k e' l' epoch = Revert "hold period has not ended")
  /\ (block_timestamp e + HOURS_24 <= block_timestamp e' ->
      withdraw k e' l' epoch = _withdraw k e' l' epoch).
Proof.
  intros H0 Hmax E. unfold processAuction in E.
  apply bind_Ok in E as (u & _ & E). apply bind_Ok in E as (u1 & _ & E).
  apply bind_Ok in E as (u2 & _ & E). injection E as <-.
  rewrite !auction_of_set_auction. simpl.
  split; [reflexivity|]. split; [reflexivity|].
  unfold withdraw. rewrite !auction_of_set_auction. simpl.
  rewrite uadd_fits, Ok_bind by lia.
  split; intros Ht.
  - replace (_ <=? _) with false by (symmetry; apply Z.leb_gt; lia). reflexivity.
  - replace (_ <=? _) with true by (symmetry; apply Z.leb_le; lia). reflexivity.
Qed.

(** The auction of the scenario is processed at 3000: buyer 1 cannot
    withdraw at 89399, and can at 89400. *)
Lemma processed_auction_held_for_a_day_witness :
  withdraw Scenario.auctionK (Scenario.auctionEnv 89399 1) Scenario.processed 0
    = Revert "hold period has not ended"
  /\ withdraw Scenario.auctionK (Scenario.auctionEnv 89400 1) Scenario.processed 0
    = _withdraw Scenario.auctionK (Scenario.auctionEnv 89400 1) Scenario.processed 0.
Proof.
  assert (H0 : 0 <= block_timestamp (Scenario.auctionEnv 3000 900)) by (simpl; lia).
  assert (Hmax : block_timestamp (Scenario.auctionEnv 3000 900) + HOURS_24 <= MAX_UINT256)
    by (vm_compute; discriminate).
  assert (E : processAuction Scenario.auctionK (Scenario.auctionEnv 3000 900)
                (Scenario.state_of
                   (Scenario.run [(Scenario.auctionEnv 3000 900, TransferPremium 0)]
                      Scenario.filled)) 0
              = Ok Scenario.processed) by (vm_compute; reflexivity).
  split.
  - destruct (processed_auction_held_for_a_day Scenario.auctionK
                (Scenario.auctionEnv 3000 900) (Scenario.auctionEnv 89399 1) _ _ 0
                H0 Hmax E) as (_ & _ & Hheld & _).
    apply Hheld. simpl. unfold HOURS_24. lia.
  - destruct (processed_auction_held_for_a_day Scenario.auctionK
                (Scenario.auctionEnv 3000 900) (Scenario.auctionEnv 89400 1) _ _ 0
                H0 Hmax E) as (_ & _ & _ & Hfree).
    apply Hfree. simpl. unfold HOURS_24. lia.
Defined.

End LifecycleFacts.

(** ** What an order costs its buyer *)

Module PaymentFacts.

Import AuctionStorage Auction StorageFacts TransactionFacts.

(** The ether sent with an order is wrapped up to the amount due and the
    rest is sent back. *)
Lemma _wrapNativeToken_Ok k e amount credited fx :
  0 <= msg_value e -> 0 <= amount ->
  _wrapNativeToken k e amount = Ok (credited, fx) ->
  credited = Z.min amount (msg_value e)
  /\ (0 < msg_value e -> ERC20 k = WETH k)
  /\ fx = if 0 <? msg_value e
          then (if amount <? msg_value e
                then [ETH_send (msg_sender e) (msg_value e - amount)] else [])
               ++ [WETH_deposit credited]
          else [].
Proof.
  intros Hv Ha. unfold _wrapNativeToken.
  destruct (Z.ltb_spec 0 (msg_value e)) as [Hpos|Hzero].
  - intros E. apply bind_Ok in E as (u & Hweth & E).
    apply require_Ok, Z.eqb_eq in Hweth.
    destruct (Z.ltb_spec amount (msg_value e)); injection E as <- <-;
      (split; [lia|]); (split; [intros _; exact Hweth | reflexivity]).
  - intros [= <- <-]. split; [lia|]. split; [lia | reflexivity].
Qed.

(** X11.  A limit order that is accepted has a positive price and at least
    the minimal size, and charges its buyer [price * size] (rounded down):
    the ether sent is wrapped up to that cost, ether beyond it is sent
    back, and the remainder is pulled in collateral tokens. *)
Theorem limit_order_charges_price_times_size
    (k : Immutables) (e : Env) (l l' : Layout) (epoch price64x64 size : Z)
    (fx : list Effect) :
  0 <= msg_value e -> 0 <= size ->
  addLimitOrder k e l epoch price64x64 size = Ok (l', fx) ->
  let cost := ABDKMath64x64.mulu_value price64x64 size in
  let credited := Z.min cost (msg_value e) in
  0 < price64x64 /\ minSize l <= size
  /\ status (auction_of l epoch) = INITIALIZED
  /\ block_timestamp e <= endTime (auction_of l epoch)
  /\ (0 < msg_value e -> ERC20 k = WETH k)
  /\ fx = (if 0 <? msg_value e
           then (if cost <? msg_value e
                 then [ETH_send (msg_sender e) (msg_value e - cost)] else [])
                ++ [WETH_deposit credited]
           else [])
          ++ [ERC20_safeTransferFrom (msg_sender e) (this k) (cost - credited)].
Proof.
  intros Hv Hsize E. unfold addLimitOrder in E.
  apply bind_Ok in E as (u & Hallowed & E).
  apply limitOrdersAllowed_Ok in Hallowed as (Hst & Hend).
  apply bind_Ok in E as (cost & Hcost & E).
  unfold _validateLimitOrder in Hcost.
  apply bind_Ok in Hcost as (u1 & Hprice & Hcost).
  apply bind_Ok in Hcost as (u2 & Hmin & Hcost).
  apply require_Ok, Z.ltb_lt in Hprice. apply require_Ok, Z.leb_le in Hmin.
  apply ABDKFacts.mulu_Ok in Hcost as (-> & (Hc0 & _) & _); [|exact Hsize].
  apply bind_Ok in E as ([credited fx1] & Hwrap & E).
  apply _wrapNativeToken_Ok in Hwrap as (-> & Hweth & ->); [|exact Hv|exact Hc0].
  apply bind_Ok in E as (due & Hdue & E). apply usub_Ok in Hdue as (-> & _).
  apply bind_Ok in E as (l1 & _ & E). injection E as _ <-.
  cbv zeta. repeat (split; [assumption|]). reflexivity.
Qed.

(** Buyer 1 sends no ether with the order for 5 contracts at 100 and is
    charged 500 tokens. *)
Lemma limit_order_charges_price_times_size_witness :
  exists l',
    addLimitOrder Scenario.auctionK (Scenario.auctionEnv 1000 1) Scenario.opened
      0 (Scenario.fixed 100) 5
    = Ok (l', [ERC20_safeTransferFrom 1 800 500]).
Proof.
  destruct (addLimitOrder Scenario.auctionK (Scenario.auctionEnv 1000 1) Scenario.opened
              0 (Scenario.fixed 100) 5) as [[l' fx]|msg] eqn:E;
    [|vm_compute in E; discriminate E].
  exists l'.
  assert (Hv : 0 <= msg_value (Scenario.auctionEnv 1000 1)) by (simpl; lia).
  destruct (limit_order_charges_price_times_size Scenario.auctionK
              (Scenario.auctionEnv 1000 1) Scenario.opened l' 0 (Scenario.fixed 100) 5 fx
              Hv ltac:(lia) E) as (_ & _ & _ & _ & _ & Hfx).
  rewrite Hfx. vm_compute. reflexivity.
Defined.

(** X12.  A market order is accepted only between the start and the end
    of the auction, at the price of the curve at that time; it charges its
    buyer that price times the size, which is at most [maxCost], in wrapped
    ether and collateral tokens as a limit order does. *)
Theorem market_order_charges_curve_price
    (k : Immutables) (e : Env) (l l' : Layout) (epoch size maxCost : Z)
    (fx : list Effect) :
  0 <= msg_value e -> 0 <= size ->
  addMarketOrder k e l epoch size maxCost = Ok (l', fx) ->
  exists price64x64,
    _priceCurve64x64 e (auction_of l epoch) = Ok price64x64
    /\ let cost := ABDKMath64x64.mulu_value price64x64 size in
       let credited := Z.min cost (msg_value e) in
       cost <= maxCost /\ minSize l <= size
       /\ status (auction_of l epoch) = INITIALIZED
       /\ startTime (auction_of l epoch) <= block_timestamp e
            <= endTime (auction_of l epoch)
       /\ fx = (if 0 <? msg_value e
                then (if cost <? msg_value e
                      then [ETH_send (msg_sender e) (msg_value e - cost)] else [])
                     ++ [WETH_deposit credited]
                else [])
               ++ [ERC20_safeTransferFrom (msg_sender e) (this k) (cost - credited)].
Proof.
  intros Hv Hsize E. unfold addMarketOrder in E.
  apply bind_Ok in E as (u & Hallowed & E).
  apply marketOrdersAllowed_Ok in Hallowed as (Hst & Hwin).
  apply bind_Ok in E as ([price cost] & Hcost & E).
  unfold _validateMarketOrder in Hcost.
  apply bind_Ok in Hcost as (u1 & Hmin & Hcost).
  apply bind_Ok in Hcost as (p & Hp & Hcost).
  apply bind_Ok in Hcost as (c & Hc & Hcost).
  apply bind_Ok in Hcost as (u2 & Hmax & Hcost). injection Hcost as <- <-.
  apply require_Ok, Z.leb_le in Hmin. apply require_Ok, Z.leb_le in Hmax.
  apply ABDKFacts.mulu_Ok in Hc as (-> & (Hc0 & _) & _); [|exact Hsize].
  apply bind_Ok in E as ([credited fx1] & Hwrap & E).
  apply _wrapNativeToken_Ok in Hwrap as (-> & Hweth & ->); [|exact Hv|exact Hc0].
  apply bind_Ok in E as (due & Hdue & E). apply usub_Ok in Hdue as (-> & _).
  apply bind_Ok in E as (l1 & _ & E). injection E as _ <-.
  exists p. split; [exact Hp|]. cbv zeta. repeat (split; [assumption|]). reflexivity.
Qed.

(** Buyer 3 buys 200 contracts at the start of the auction, at the
    maximal price 100, for 20000 tokens. *)
Lemma market_order_charges_curve_price_witness :
  exists l',
    addMarketOrder Scenario.auctionK (Scenario.auctionEnv 1000 3) Scenario.opened
      0 200 (10 ^ 30)
    = Ok (l', [ERC20_safeTransferFrom 3 800 20000]).
Proof.
  destruct (addMarketOrder Scenario.auctionK (Scenario.auctionEnv 1000 3) Scenario.opened
              0 200 (10 ^ 30)) as [[l' fx]|msg] eqn:E;
    [|vm_compute in E; discriminate E].
  exists l'.
  assert (Hv : 0 <= msg_value (Scenario.auctionEnv 1000 3)) by (simpl; lia).
  destruct (market_order_charges_curve_price Scenario.auctionK
              (Scenario.auctionEnv 1000 3) Scenario.opened l' 0 200 (10 ^ 30) fx
              Hv ltac:(lia) E) as (p & Hp & _ & _ & _ & _ & Hfx).
  vm_compute in Hp. injection Hp as <-.
  rewrite Hfx. vm_compute. reflexivity.
Defined.

(** X28.  A limit order placed through a swap is settled against what the
    swap has credited, which is at least [amountOutMin]: when the swap
    yields more than the cost [price * size] the excess is sent to the
    buyer, when it yields less the remainder is pulled from the buyer, and
    when it yields the cost no collateral moves.  Ether may be sent only
    with wrapped ether as the token to swap. *)
Theorem swapped_limit_order_settles_the_difference
    (k : Immutables) (e : Env) (l l' : Layout) (s : SwapArgs)
    (epoch price64x64 size : Z) (fx : list Effect) :
  0 <= size ->
  swapAndAddLimitOrder k e l s epoch price64x64 size = Ok (l', fx) ->
  let cost := ABDKMath64x64.mulu_value price64x64 size in
  let credited := Exchange_swapWithToken e in
  amountOutMin s <= credited
  /\ (0 < msg_value e -> tokenIn s = WETH k)
  /\ exists fxSwap,
       _swapForPoolTokens k e (Exchange l) s (ERC20 k) = Ok (credited, fxSwap)
       /\ fx = fxSwap
               ++ (if cost <? credited
                   then [ERC20_safeTransfer (msg_sender e) (credited - cost)]
                   else if credited <? cost
                        then [ERC20_safeTransferFrom (msg_sender e) (this k)
                                (cost - credited)]
                        else []).
Proof.
  intros Hsize E. unfold swapAndAddLimitOrder in E.
  apply bind_Ok in E as (u & _ & E).
  apply bind_Ok in E as (cost & Hcost & E).
  unfold _validateLimitOrder in Hcost.
  apply bind_Ok in Hcost as (u1 & _ & Hcost). apply bind_Ok in Hcost as (u2 & _ & Hcost).
  apply ABDKFacts.mulu_Ok in Hcost as (-> & _); [|exact Hsize].
  apply bind_Ok in E as ([credited fx1] & Hswap & E).
  apply bind_Ok in E as (l1 & _ & E). injection E as _ <-.
  pose proof Hswap as Hswap'. unfold _swapForPoolTokens in Hswap'.
  apply bind_Ok in Hswap' as (fxw & Hweth & Hswap').
  apply bind_Ok in Hswap' as (amountIn & _ & Hswap').
  apply bind_Ok in Hswap' as (u3 & Hmin & Hswap'). apply require_Ok, Z.leb_le in Hmin.
  injection Hswap' as <- _. cbv zeta.
  split; [exact Hmin|]. split.
  - intros Hpos. revert Hweth.
    replace (0 <? msg_value e) with true by (symmetry; apply Z.ltb_lt; exact Hpos).
    intros Hweth. apply bind_Ok in Hweth as (u4 & Hin & _).
    apply require_Ok, Z.eqb_eq in Hin. exact Hin.
  - exists fx1. split; [exact Hswap | reflexivity].
Qed.

(** The swap credits 600 where the order for 5 contracts at 100 costs
    500: the buyer is sent 100. *)
Lemma swapped_limit_order_settles_the_difference_witness :
  exists l',
    swapAndAddLimitOrder Scenario.auctionK
      (mkEnv 1000 1 0 1000 (fun _ => 1000) (fun _ => 0) 600) Scenario.opened
      (mkSwapArgs 42 50 550) 0 (Scenario.fixed 100) 5
    = Ok (l', [TokenIn_safeTransferFrom 42 1 0 50; Exchange_swap 42 500 50;
               ERC20_safeTransfer 1 100]).
Proof.
  destruct (swapAndAddLimitOrder Scenario.auctionK
              (mkEnv 1000 1 0 1000 (fun _ => 1000) (fun _ => 0) 600) Scenario.opened
              (mkSwapArgs 42 50 550) 0 (Scenario.fixed 100) 5)
    as [[l' fx]|msg] eqn:E; [|vm_compute in E; discriminate E].
  exists l'.
  assert (Hsize : 0 <= 5) by lia.
  destruct (swapped_limit_order_settles_the_difference _ _ _ _ _ _ _ _ _ Hsize E)
    as (_ & _ & fxSwap & Hswap & Hfx).
  vm_compute in Hswap. injection Hswap as <-.
  rewrite Hfx. vm_compute. reflexivity.
Defined.

End PaymentFacts.

(** ** Withdrawing after the expiry of the option *)

Module ExerciseFacts.

Import AuctionStorage Auction StorageFacts.

(** The quotient of two positive 64.64 numbers, the first below the second. *)
Lemma div_fraction x y :
  0 <= x <= y -> 0 < y ->
  ABDKMath64x64.div x y = Ok (x * 2 ^ 64 / y) /\ 0 <= x * 2 ^ 64 / y <= 2 ^ 64.
Proof.
  intros Hx Hy.
  assert (Hq : 0 <= x * 2 ^ 64 / y <= 2 ^ 64).
  { split; [apply Z.div_pos; lia|]. apply Z.div_le_upper_bound; [lia | nia]. }
  split; [|exact Hq].
  unfold ABDKMath64x64.div, ABDKMath64x64.fits.
  replace (y =? 0) with false by (symmetry; apply Z.eqb_neq; lia).
  rewrite Z.quot_div_nonneg by lia. simpl negb. rewrite require_true, Ok_bind.
  unfold MIN_64x64, MAX_64x64.
  replace (- 2 ^ 127 <=? x * 2 ^ 64 / y) with true by (symmetry; apply Z.leb_le; lia).
  replace (x * 2 ^ 64 / y <=? 2 ^ 127 - 1) with true by (symmetry; apply Z.leb_le; lia).
  reflexivity.
Qed.

(** X13.  On a call auction the exercise value of [size] contracts is
    nothing before the expiry and nothing when the spot price at expiry is
    not above the strike; otherwise it is the share
    [(spot - strike) / spot] of the contracts, which is never more than
    [size]. *)
Theorem call_exercise_amount_at_most_size
    (k : Immutables) (e : Env) (l : Layout) (epoch size : Z) :
  isCall k = true ->
  0 <= size <= MAX_UINT256 ->
  0 <= strike64x64 (auction_of l epoch) ->
  Pool_getPriceAfter64x64 e (expiry (auction_of l epoch)) <= MAX_64x64 ->
  exists expired amount,
    _getExerciseAmount k e l epoch size = Ok (expired, amount)
    /\ (expired = true <-> expiry (auction_of l epoch) <= block_timestamp e)
    /\ 0 <= amount <= size
    /\ (expired = false -> amount = 0)
    /\ (Pool_getPriceAfter64x64 e (expiry (auction_of l epoch))
          <= strike64x64 (auction_of l epoch) -> amount = 0)
    /\ (expired = true ->
        strike64x64 (auction_of l epoch)
          < Pool_getPriceAfter64x64 e (expiry (auction_of l epoch)) ->
        let spot64x64 := Pool_getPriceAfter64x64 e (expiry (auction_of l epoch)) in
        amount = ABDKMath64x64.mulu_value
                   ((spot64x64 - strike64x64 (auction_of l epoch)) * 2 ^ 64 / spot64x64)
                   size).
Proof.
  intros Hcall Hsize Hstrike Hspot. unfold _getExerciseAmount. cbv zeta.
  rewrite Hcall. cbn [andb negb].
  set (spot := Pool_getPriceAfter64x64 e (expiry (auction_of l epoch))) in *.
  set (strike := strike64x64 (auction_of l epoch)) in *.
  destruct (Z.ltb_spec (block_timestamp e) (expiry (auction_of l epoch))) as [Hearly|Hlate].
  { exists false, 0. split; [reflexivity|]. split; [split; [discriminate | lia]|].
    split; [lia|]. split; [reflexivity|]. split; [reflexivity | discriminate]. }
  destruct (Z.ltb_spec strike spot) as [Hitm|Hotm].
  - destruct (div_fraction (spot - strike) spot ltac:(lia) ltac:(lia)) as (Hdiv & Hq).
    assert (Hle : ABDKMath64x64.mulu_value ((spot - strike) * 2 ^ 64 / spot) size <= size).
    { unfold ABDKMath64x64.mulu_value. apply Z.div_le_upper_bound; [lia | nia]. }
    assert (H0 : 0 <= ABDKMath64x64.mulu_value ((spot - strike) * 2 ^ 64 / spot) size).
    { unfold ABDKMath64x64.mulu_value. apply Z.div_pos; [nia | lia]. }
    rewrite PriceCurveFacts.sub_fits, Ok_bind by (unfold MIN_64x64, MAX_64x64 in *; lia).
    rewrite Hdiv, Ok_bind.
    rewrite ABDKFacts.mulu_fits, Ok_bind by lia.
    eexists true, _. split; [reflexivity|]. split; [split; [lia | reflexivity]|].
    split; [lia|]. split; [discriminate|]. split; [lia|]. reflexivity.
  - rewrite Ok_bind. exists true, 0. split; [reflexivity|].
    split; [split; [lia | reflexivity]|].
    split; [lia|]. split; [discriminate|]. split; [reflexivity | lia].
Qed.

(** The option of the scenario has the strike 2000; with the spot price
    2500 at expiry, 100 contracts are worth 19 units of the underlying
    (a fifth, rounded down twice). *)
Lemma call_exercise_amount_at_most_size_witness :
  exists amount,
    _getExerciseAmount Scenario.auctionK
      (mkEnv 6000 1 0 1000 (fun _ => 1000) (fun _ => Scenario.fixed 2500) 0)
      Scenario.processed 0 100 = Ok (true, amount)
    /\ 0 <= amount <= 100.
Proof.
  assert (H1 : 0 <= 100 <= MAX_UINT256) by (vm_compute; split; discriminate).
  assert (H2 : 0 <= strike64x64 (auction_of Scenario.processed 0))
    by (vm_compute; discriminate).
  assert (H3 : Pool_getPriceAfter64x64
                 (mkEnv 6000 1 0 1000 (fun _ => 1000) (fun _ => Scenario.fixed 2500) 0)
                 (expiry (auction_of Scenario.processed 0)) <= MAX_64x64)
    by (vm_compute; discriminate).
  destruct (call_exercise_amount_at_most_size Scenario.auctionK
              (mkEnv 6000 1 0 1000 (fun _ => 1000) (fun _ => Scenario.fixed 2500) 0)
              Scenario.processed 0 100 eq_refl H1 H2 H3)
    as (expired & amount & Hrun & _ & Hrange & _).
  exists amount. split; [|exact Hrange].
  assert (Hexp : expired = true) by (vm_compute in Hrun; congruence).
  rewrite <- Hexp. exact Hrun.
Defined.

(** X14.  Once the option has expired, a withdrawal sends no long tokens:
    it sends collateral only, the refund and the exercise value together,
    or nothing at all. *)
Theorem withdraw_after_expiry_sends_no_long_tokens
    (k : Immutables) (e : Env) (l l' : Layout) (epoch : Z) (fx : list Effect) :
  expiry (auction_of l epoch) <= block_timestamp e ->
  withdraw k e l epoch = Ok (l', fx) ->
  fx = [] \/ exists amount, 0 < amount /\ fx = [ERC20_safeTransfer (msg_sender e) amount].
Proof.
  intros Hexp E. unfold withdraw in E.
  apply bind_Ok in E as (u & _ & E). apply bind_Ok in E as (u1 & _ & E).
  unfold _withdraw in E.
  apply bind_Ok in E as ([[refund fill] l1] & Hp & E).
  assert (Hsame : auction_of l1 epoch = auction_of l epoch).
  { unfold _previewWithdraw in Hp.
    apply bind_Ok in Hp as (lp & _ & Hp). apply bind_Ok in Hp as (w & _ & Hp).
    injection Hp as _ _ <-. reflexivity. }
  apply bind_Ok in E as ([expired amount] & Hex & E).
  unfold _getExerciseAmount in Hex. cbv zeta in Hex.
  rewrite auction_of_set_epochs, Hsame in Hex.
  replace (block_timestamp e <? expiry (auction_of l epoch)) with false in Hex
    by (symmetry; apply Z.ltb_ge; exact Hexp).
  apply bind_Ok in Hex as (amt & _ & Hex). injection Hex as <- <-.
  apply bind_Ok in E as ([refund' fill'] & Hr & E).
  apply bind_Ok in Hr as (r & _ & Hr). injection Hr as <- <-.
  injection E as _ <-. simpl.
  destruct (Z.ltb_spec 0 r); [right; exists r; split; [assumption | reflexivity] | left; reflexivity].
Qed.

(** Buyer 1 withdraws from the processed auction of the scenario long
    after the expiry at 5000: nothing is owed back on the order, and the 900
    contracts it was filled with are worth nothing at the expiry, so that
    nothing is sent. *)
Lemma withdraw_after_expiry_sends_no_long_tokens_witness :
  exists l' fx,
    withdraw Scenario.auctionK (Scenario.auctionEnv 100000 1) Scenario.processed 0
      = Ok (l', fx)
    /\ (fx = [] \/ exists amount, 0 < amount /\ fx = [ERC20_safeTransfer 1 amount]).
Proof.
  destruct (withdraw Scenario.auctionK (Scenario.auctionEnv 100000 1) Scenario.processed 0)
    as [[l' fx]|msg] eqn:E; [|vm_compute in E; discriminate E].
  exists l', fx. split; [reflexivity|].
  assert (Hexp : expiry (auction_of Scenario.processed 0)
                 <= block_timestamp (Scenario.auctionEnv 100000 1))
    by (vm_compute; discriminate).
  exact (withdraw_after_expiry_sends_no_long_tokens Scenario.auctionK
           (Scenario.auctionEnv 100000 1) Scenario.processed l' 0 fx Hexp E).
Defined.

End ExerciseFacts.

(** ** The accounts of the vault *)

Module VaultAccountFacts.

Import VaultStorage Vault.

(** A 64.64 fraction of an amount. *)
Lemma fraction_of x amount :
  0 <= x <= ONE_64x64 -> 0 <= amount <= MAX_UINT256 ->
  ABDKMath64x64.mulu x amount = Ok (ABDKMath64x64.mulu_value x amount)
  /\ 0 <= ABDKMath64x64.mulu_value x amount <= amount.
Proof.
  intros Hx Ha. unfold ONE_64x64 in Hx.
  assert (Hv : 0 <= ABDKMath64x64.mulu_value x amount <= amount).
  { unfold ABDKMath64x64.mulu_value. split; [apply Z.div_pos; [nia | lia]|].
    apply Z.div_le_upper_bound; [lia | nia]. }
  split; [|exact Hv]. apply ABDKFacts.mulu_fits; lia.
Qed.

(** X15.  With a withdrawal fee between 0 and 1, the fee on a withdrawal is
    taken from the collateral and from the short contracts alike, is never
    more than the amount it is taken from, and goes to the fee recipient;
    what is left and the fee add up to the amounts distributed. *)
Theorem withdrawal_fee_is_a_fraction
    (k : Immutables) (l : Layout) (collateralAmount shortContracts : Z) :
  0 <= withdrawalFee64x64 l <= ONE_64x64 ->
  0 <= collateralAmount <= MAX_UINT256 -> 0 <= shortContracts <= MAX_UINT256 ->
  let feeInCollateral :=
    ABDKMath64x64.mulu_value (withdrawalFee64x64 l) collateralAmount in
  let feesInShortContracts :=
    ABDKMath64x64.mulu_value (withdrawalFee64x64 l) shortContracts in
  _collectWithdrawalFee k l collateralAmount shortContracts
  = Ok (collateralAmount - feeInCollateral, shortContracts - feesInShortContracts,
        _transferCollateralAndShortAssets k feeInCollateral feesInShortContracts
          (shortTokenId (_lastOption l)) (feeRecipient l))
  /\ 0 <= feeInCollateral <= collateralAmount
  /\ 0 <= feesInShortContracts <= shortContracts.
Proof.
  intros Hfee Hc Hs. cbv zeta.
  destruct (fraction_of _ _ Hfee Hc) as (Ec & Hfc).
  destruct (fraction_of _ _ Hfee Hs) as (Es & Hfs).
  split; [|split; assumption].
  unfold _collectWithdrawalFee. rewrite Ec, Ok_bind, Es, Ok_bind. cbv zeta.
  rewrite (usub_fits collateralAmount), Ok_bind by lia.
  rewrite (usub_fits shortContracts), Ok_bind by lia. reflexivity.
Qed.

(** A fee of one hundredth on 1000 units of collateral and 500 short
    contracts: 9 units and 4 contracts go to the fee recipient. *)
Lemma withdrawal_fee_is_a_fraction_witness :
  _collectWithdrawalFee Scenario.vaultK
    (set_withdrawalFee64x64 (2 ^ 64 / 100) Scenario.vault0) 1000 500
  = Ok (991, 496,
        [ERC20_safeTransfer 7 9; Vault.Pool_safeTransferFrom 900 7 0 4]).
Proof.
  assert (H1 : 0 <= withdrawalFee64x64
                      (set_withdrawalFee64x64 (2 ^ 64 / 100) Scenario.vault0)
               <= ONE_64x64) by (vm_compute; split; discriminate).
  assert (H2 : 0 <= 1000 <= MAX_UINT256) by (vm_compute; split; discriminate).
  assert (H3 : 0 <= 500 <= MAX_UINT256) by (vm_compute; split; discriminate).
  destruct (withdrawal_fee_is_a_fraction Scenario.vaultK
              (set_withdrawalFee64x64 (2 ^ 64 / 100) Scenario.vault0) 1000 500
              H1 H2 H3) as (Hrun & _).
  rewrite Hrun. vm_compute. reflexivity.
Defined.

Lemma mulu_negative x y :
  x < 0 -> 0 < y -> ABDKMath64x64.mulu x y = Revert ABDKMath64x64.no_message.
Proof.
  intros Hx Hy. unfold ABDKMath64x64.mulu.
  replace (y =? 0) with false by (symmetry; apply Z.eqb_neq; lia).
  replace (0 <=? x) with false by (symmetry; apply Z.leb_gt; lia).
  reflexivity.
Qed.

(** X16.  With a negative withdrawal fee, which the setter of the fee does
    not refuse, the fee cannot be computed: the withdrawal of any positive
    amount of collateral reverts. *)
Theorem negative_withdrawal_fee_blocks_withdrawals
    (k : Immutables) (l : Layout) (collateralAmount shortContracts : Z) :
  withdrawalFee64x64 l < 0 -> 0 < collateralAmount ->
  _collectWithdrawalFee k l collateralAmount shortContracts
  = Revert ABDKMath64x64.no_message.
Proof.
  intros Hfee Hc. unfold _collectWithdrawalFee.
  rewrite (mulu_negative (withdrawalFee64x64 l) collateralAmount Hfee Hc). reflexivity.
Qed.

Lemma negative_withdrawal_fee_blocks_withdrawals_witness :
  exists l,
    setWithdrawalFee64x64 Scenario.vaultK (Scenario.vaultEnv 10 1 0 0) Scenario.vault0 (-1)
      = Ok l
    /\ _collectWithdrawalFee Scenario.vaultK l 1000 0 = Revert ABDKMath64x64.no_message.
Proof.
  exists (set_withdrawalFee64x64 (-1) Scenario.vault0).
  split; [vm_compute; reflexivity|].
  apply (negative_withdrawal_fee_blocks_withdrawals Scenario.vaultK
           (set_withdrawalFee64x64 (-1) Scenario.vault0) 1000 0);
    vm_compute; reflexivity.
Defined.

(** X17.  With a reserve rate between 0 and 1 the collateral the vault
    holds splits into the reserves, the rate times the balance (rounded
    down), and the active collateral: the two add up to the balance. *)
Theorem reserves_and_collateral_make_the_balance (e : Env) (l : Layout) :
  0 <= reserveRate64x64 l <= ONE_64x64 ->
  0 <= ERC20_balanceOf e <= MAX_UINT256 ->
  exists totalReserves totalCollateral,
    _totalReserves e l = Ok totalReserves
    /\ _totalCollateral e l = Ok totalCollateral
    /\ totalReserves = ABDKMath64x64.mulu_value (reserveRate64x64 l) (ERC20_balanceOf e)
    /\ totalReserves + totalCollateral = ERC20_balanceOf e
    /\ 0 <= totalReserves /\ 0 <= totalCollateral.
Proof.
  intros Hrate Hbal.
  destruct (fraction_of _ _ Hrate Hbal) as (Er & Hr).
  eexists _, _. split; [exact Er|]. split.
  - unfold _totalCollateral, _totalReserves. rewrite Er, Ok_bind. apply usub_fits. lia.
  - split; [reflexivity|]. lia.
Qed.

(** A tenth of the 1000 units the vault holds is reserved. *)
Lemma reserves_and_collateral_make_the_balance_witness :
  _totalReserves (Scenario.vaultEnv 100 3 1000 0)
    (mkLayout 1 true 18 18 0 0 (2 ^ 64 / 10) 0 0 7 2 7200 14400 0 false 0 0 ∅ 0 0 0)
  = Ok 99
  /\ _totalCollateral (Scenario.vaultEnv 100 3 1000 0)
       (mkLayout 1 true 18 18 0 0 (2 ^ 64 / 10) 0 0 7 2 7200 14400 0 false 0 0 ∅ 0 0 0)
     = Ok 901.
Proof.
  assert (H1 : 0 <= 2 ^ 64 / 10 <= ONE_64x64) by (vm_compute; split; discriminate).
  assert (H2 : 0 <= 1000 <= MAX_UINT256) by (vm_compute; split; discriminate).
  destruct (reserves_and_collateral_make_the_balance (Scenario.vaultEnv 100 3 1000 0)
              (mkLayout 1 true 18 18 0 0 (2 ^ 64 / 10) 0 0 7 2 7200 14400 0 false 0 0 ∅
                 0 0 0) H1 H2)
    as (r & c & Hr & Hc & _).
  rewrite Hr, Hc. vm_compute in Hr, Hc. injection Hr as <-. injection Hc as <-.
  split; reflexivity.
Defined.

(** X18.  While the vault holds no short contracts, a withdrawal from a
    call vault is paid in collateral alone, and in full: the distribution
    of [assetAmount] is [assetAmount] units of collateral and no contracts. *)
Theorem withdrawal_without_short_position_is_all_collateral
    (e : Env) (l : Layout) (assetAmount totalCollateral : Z) :
  isCall l = true ->
  0 <= ERC20_balanceOf e <= MAX_UINT256 ->
  _totalShortAsContracts e l = 0 ->
  _totalCollateral e l = Ok totalCollateral -> 0 < totalCollateral ->
  0 <= assetAmount <= MAX_UINT256 ->
  _totalAssets e l = Ok totalCollateral
  /\ _calculateDistributions e l assetAmount = Ok (assetAmount, 0).
Proof.
  intros Hcall Hbal Hshort Htc Hpos Ha.
  assert (Hts : _totalShortAsCollateral e l = Ok 0).
  { unfold _totalShortAsCollateral, OptionMath.fromContractsToCollateral.
    cbv zeta. rewrite Hcall, Hshort. reflexivity. }
  assert (Hmax : totalCollateral <= MAX_UINT256).
  { unfold _totalCollateral in Htc. apply bind_Ok in Htc as (r & Hr & Htc).
    apply usub_Ok in Htc as (-> & Hle).
    unfold _totalReserves in Hr.
    apply ABDKFacts.mulu_Ok in Hr as (_ & (Hr0 & _) & _); lia. }
  assert (Hta : _totalAssets e l = Ok totalCollateral).
  { unfold _totalAssets. rewrite Htc, Ok_bind, Hts, Ok_bind.
    rewrite uadd_fits by lia. f_equal. lia. }
  split; [exact Hta|].
  unfold _calculateDistributions. rewrite Hta, Ok_bind, Htc, Ok_bind.
  rewrite DistributionFacts._calculateDistributionAmount_value, Ok_bind by lia.
  rewrite Hts, Ok_bind.
  rewrite DistributionFacts._calculateDistributionAmount_value, Ok_bind by lia.
  unfold OptionMath.fromContractsToCollateral_4, OptionMath.fromCollateralToContracts.
  rewrite Hcall, Ok_bind.
  rewrite (Z.mul_comm totalCollateral), Z.div_mul by lia.
  unfold ABDKMath64x64.mulu_value.
  change (0 * 2 ^ 64) with 0. change (0 / totalCollateral) with 0.
  change (0 * assetAmount / 2 ^ 64) with 0.
  rewrite Z.mul_comm, Z.div_mul by lia. reflexivity.
Qed.

Lemma withdrawal_without_short_position_is_all_collateral_witness :
  _totalAssets (Scenario.vaultEnv 100 3 1000 0) Scenario.vault0 = Ok 1000
  /\ _calculateDistributions (Scenario.vaultEnv 100 3 1000 0) Scenario.vault0 300
     = Ok (300, 0).
Proof.
  assert (H1 : _totalCollateral (Scenario.vaultEnv 100 3 1000 0) Scenario.vault0 = Ok 1000)
    by (vm_compute; reflexivity).
  assert (H2 : 0 <= 300 <= MAX_UINT256) by (vm_compute; split; discriminate).
  assert (H0 : 0 <= ERC20_balanceOf (Scenario.vaultEnv 100 3 1000 0) <= MAX_UINT256)
    by (vm_compute; split; discriminate).
  exact (withdrawal_without_short_position_is_all_collateral
           (Scenario.vaultEnv 100 3 1000 0) Scenario.vault0 300 1000
           eq_refl H0 eq_refl H1 ltac:(lia) H2).
Defined.

End VaultAccountFacts.

(** ** The administration of the vault ([VaultAdmin]) *)

Module VaultAdminFacts.

Import VaultStorage Vault.

Lemma onlyOwner_stranger k e :
  msg_sender e <> owner k -> onlyOwner k e = Revert "Ownable: sender must be owner".
Proof.
  intros H. unfold onlyOwner.
  replace (msg_sender e =? owner k) with false by (symmetry; apply Z.eqb_neq; exact H).
  reflexivity.
Qed.

(** X19.  Whoever is not the owner can set nothing: each of the ten
    setters of the vault reverts for such a caller, whatever the value. *)
Theorem setters_are_for_the_owner_only (k : Immutables) (e : Env) (l : Layout) :
  msg_sender e <> owner k ->
  let refused {A} (r : result A) := r = Revert "Ownable: sender must be owner" in
  (forall a, refused (setAuction k e l a))
  /\ (forall s t, refused (setAuctionWindowOffsets k e l s t))
  /\ (forall d, refused (setDelta64x64 k e l d))
  /\ (forall d, refused (setDeltaOffset64x64 k e l d))
  /\ (forall a, refused (setFeeRecipient k e l a))
  /\ (forall a, refused (setKeeper k e l a))
  /\ (forall a, refused (setPricer k e l a))
  /\ (forall a, refused (setQueue k e l a))
  /\ (forall f, refused (setPerformanceFee64x64 k e l f))
  /\ (forall f, refused (setWithdrawalFee64x64 k e l f)).
Proof.
  intros H. cbv zeta.
  unfold setAuction, setAuctionWindowOffsets, setDelta64x64, setDeltaOffset64x64,
    setFeeRecipient, setKeeper, setPricer, setQueue, setPerformanceFee64x64,
    setWithdrawalFee64x64.
  rewrite (onlyOwner_stranger k e H).
  repeat split; intros; reflexivity.
Qed.

(** The keeper of the scenario, account 2, is not its owner. *)
Lemma setters_are_for_the_owner_only_witness :
  setKeeper Scenario.vaultK (Scenario.vaultEnv 10 2 0 0) Scenario.vault0 2
    = Revert "Ownable: sender must be owner"
  /\ setWithdrawalFee64x64 Scenario.vaultK (Scenario.vaultEnv 10 2 0 0) Scenario.vault0 0
     = Revert "Ownable: sender must be owner".
Proof.
  assert (H : msg_sender (Scenario.vaultEnv 10 2 0 0) <> owner Scenario.vaultK)
    by (vm_compute; discriminate).
  destruct (setters_are_for_the_owner_only Scenario.vaultK (Scenario.vaultEnv 10 2 0 0)
              Scenario.vault0 H) as (_ & _ & _ & _ & _ & Hkeeper & _ & _ & _ & Hfee).
  split; [apply Hkeeper | apply Hfee].
Defined.

(** X20.  Called by the owner, the setters of the delta and of the delta
    offset accept exactly the values strictly between 0 and 1, and the
    setter of the window of the auction exactly a start offset strictly
    below the end offset; each writes the fields it names and no other. *)
Theorem owner_sets_delta_and_window (k : Immutables) (e : Env) (l l' : Layout) :
  msg_sender e = owner k ->
  (forall d, setDelta64x64 k e l d = Ok l'
             <-> 0 < d < ONE_64x64 /\ l' = set_delta64x64 d l)
  /\ (forall d, setDeltaOffset64x64 k e l d = Ok l'
                <-> 0 < d < ONE_64x64 /\ l' = set_deltaOffset64x64 d l)
  /\ (forall s t, setAuctionWindowOffsets k e l s t = Ok l'
                  <-> s < t /\ l' = set_offsets s t l).
Proof.
  intros Ho.
  unfold setDelta64x64, setDeltaOffset64x64, setAuctionWindowOffsets.
  rewrite (FeeFacts.onlyOwner_Ok k e Ho).
  split; [|split].
  - intros d. rewrite Ok_bind. split.
    + intros E. inv_all. tests. subst l'. split; [lia | reflexivity].
    + intros (Hd & ->).
      rewrite (proj2 (Z.ltb_lt 0 d)), (proj2 (Z.ltb_lt d ONE_64x64)) by lia. reflexivity.
  - intros d. rewrite Ok_bind. split.
    + intros E. inv_all. tests. subst l'. split; [lia | reflexivity].
    + intros (Hd & ->).
      rewrite (proj2 (Z.ltb_lt 0 d)), (proj2 (Z.ltb_lt d ONE_64x64)) by lia. reflexivity.
  - intros s t. rewrite Ok_bind. split.
    + intros E. inv_all. tests. subst l'. split; [lia | reflexivity].
    + intros (Hd & ->). rewrite (proj2 (Z.ltb_lt s t)) by lia. reflexivity.
Qed.

(** The owner moves the window of the auction to one and three hours
    after Friday 08:00; equal offsets are refused. *)
Lemma owner_sets_delta_and_window_witness :
  setAuctionWindowOffsets Scenario.vaultK (Scenario.vaultEnv 10 1 0 0) Scenario.vault0
    3600 10800 = Ok (set_offsets 3600 10800 Scenario.vault0)
  /\ setAuctionWindowOffsets Scenario.vaultK (Scenario.vaultEnv 10 1 0 0) Scenario.vault0
       3600 3600 <> Ok (set_offsets 3600 3600 Scenario.vault0).
Proof.
  split.
  - destruct (owner_sets_delta_and_window Scenario.vaultK (Scenario.vaultEnv 10 1 0 0)
                Scenario.vault0 (set_offsets 3600 10800 Scenario.vault0) eq_refl)
      as (_ & _ & Hwin).
    apply Hwin. split; [lia | reflexivity].
  - destruct (owner_sets_delta_and_window Scenario.vaultK (Scenario.vaultEnv 10 1 0 0)
                Scenario.vault0 (set_offsets 3600 3600 Scenario.vault0) eq_refl)
      as (_ & _ & Hwin).
    intros E. apply Hwin in E as (Hlt & _). lia.
Defined.

End VaultAdminFacts.

(** ** The vault and its auction *)

Module VaultAuctionFacts.

Import VaultStorage Vault.

Lemma _setOptionParameters_Ok e l option l1 :
  _setOptionParameters e l = Ok (option, l1) ->
  l1 = set_options (<[epoch l := option]> (options l)) l.
Proof.
  unfold _setOptionParameters. intros E.
  apply bind_Ok in E as (f & _ & E). apply bind_Ok in E as (i1 & _ & E).
  apply bind_Ok in E as (i2 & _ & E). injection E as <- <-. reflexivity.
Qed.

(** X21.  When the keeper has the vault initialize the auction of the
    current epoch, the auction contract either takes the parameters or
    cancels the auction.  If it takes them, the auction starts when the
    withdrawal lock of the vault does and sells the option the vault has
    stored for the epoch.  Either way no other auction changes, and the
    auction of the epoch cannot be initialized a second time. *)
Theorem initializeAuction_ties_the_lock_to_the_auction
    (k : Immutables) (e : Env) (ka : Auction.Immutables)
    (l l' : Layout) (la la' : AuctionStorage.Layout) :
  initializeAuction k e ka l la = Ok (l', la') ->
  let auction := AuctionStorage.auction_of la' (epoch l) in
  let option := option_of l' (epoch l) in
  msg_sender e = keeper l
  /\ epoch l' = epoch l
  /\ AuctionStorage.status (AuctionStorage.auction_of la (epoch l))
     = AuctionStorage.UNINITIALIZED
  /\ (AuctionStorage.status auction = AuctionStorage.CANCELLED
      \/ AuctionStorage.status auction = AuctionStorage.INITIALIZED
         /\ AuctionStorage.startTime auction = startTime l'
         /\ AuctionStorage.endTime auction = startTime l' - startOffset l + endOffset l
         /\ startTime l' < AuctionStorage.endTime auction
         /\ block_timestamp e <= startTime l'
         /\ AuctionStorage.expiry auction = expiry option
         /\ AuctionStorage.strike64x64 auction = strike64x64 option
         /\ AuctionStorage.longTokenId auction = longTokenId option)
  /\ (forall epoch', epoch' <> epoch l ->
      AuctionStorage.auction_of la' epoch' = AuctionStorage.auction_of la epoch')
  /\ (forall e2 ka2 r, initializeAuction k e2 ka2 l' la' <> Ok r).
Proof.
  intros E. cbv zeta. unfold initializeAuction in E.
  apply bind_Ok in E as (u & Hkeeper & E).
  apply require_Ok, Z.eqb_eq in Hkeeper.
  apply bind_Ok in E as ([option l1] & Hopt & E).
  apply _setOptionParameters_Ok in Hopt as ->.
  apply bind_Ok in E as (friday & Hfriday & E).
  apply bind_Ok in E as (start & Hstart & E). apply uadd_Ok in Hstart as (-> & _).
  apply bind_Ok in E as (stop & Hstop & E). apply uadd_Ok in Hstop as (-> & _).
  apply bind_Ok in E as (la1 & Hinit & E). injection E as <- <-.
  cbn [epoch set_auctionProcessed set_startTime set_options startOffset endOffset
       startTime] in *.
  unfold Auction.initialize in Hinit.
  apply bind_Ok in Hinit as (u1 & _ & Hinit).
  apply bind_Ok in Hinit as (u2 & Hst & Hinit).
  apply require_Ok, StorageFacts.status_eqb_eq in Hst.
  cbn [AuctionStorage.init_epoch AuctionStorage.init_startTime AuctionStorage.init_endTime
       AuctionStorage.init_expiry AuctionStorage.init_strike64x64
       AuctionStorage.init_longTokenId] in *.
  assert (Hopt : option_of
                   (set_auctionProcessed false
                      (set_startTime (friday + startOffset l)
                         (set_options (<[epoch l := option]> (options l)) l)))
                   (epoch l) = option).
  { unfold option_of. simpl. apply lookup_total_insert_eq. }
  rewrite Hopt.
  split; [exact Hkeeper|]. split; [reflexivity|]. split; [exact Hst|].
  assert (Hstatus : AuctionStorage.status (AuctionStorage.auction_of la1 (epoch l))
                    <> AuctionStorage.UNINITIALIZED
                    /\ forall epoch', epoch' <> epoch l ->
                       AuctionStorage.auction_of la1 epoch'
                       = AuctionStorage.auction_of la epoch').
  { revert Hinit.
    match goal with |- (if ?c then _ else _) = _ -> _ => destruct c end;
      intros [= <-]; (split; [rewrite StorageFacts.auction_of_set_auction; discriminate|]);
      intros epoch' Hne; apply StorageFacts.auction_of_set_auction_ne; congruence. }
  split; [|split; [apply Hstatus|]].
  - revert Hinit.
    match goal with |- (if ?c then _ else _) = _ -> _ => destruct c eqn:Hc end;
      intros [= <-]; rewrite StorageFacts.auction_of_set_auction.
    + left. reflexivity.
    + right. apply orb_false_iff in Hc as (Hc & _). apply orb_false_iff in Hc as (Hc & _).
      apply orb_false_iff in Hc as (Hc & _). apply orb_false_iff in Hc as (Hwin & Hnow).
      apply Z.leb_gt in Hwin. apply Z.ltb_ge in Hnow.
      unfold auctionEnv in Hnow. simpl in Hnow.
      simpl. repeat split; try reflexivity; lia.
  - intros e2 ka2 r E2. unfold initializeAuction in E2.
    apply bind_Ok in E2 as (v & _ & E2).
    apply bind_Ok in E2 as ([option2 l2] & Hopt2 & E2).
    apply _setOptionParameters_Ok in Hopt2 as ->.
    apply bind_Ok in E2 as (f2 & _ & E2). apply bind_Ok in E2 as (s2 & _ & E2).
    apply bind_Ok in E2 as (t2 & _ & E2). apply bind_Ok in E2 as (la2 & Hinit2 & _).
    unfold Auction.initialize in Hinit2.
    apply bind_Ok in Hinit2 as (v1 & _ & Hinit2).
    apply bind_Ok in Hinit2 as (v2 & Hst2 & _).
    apply require_Ok, StorageFacts.status_eqb_eq in Hst2.
    cbn [AuctionStorage.init_epoch epoch set_auctionProcessed set_startTime set_options]
      in Hst2.
    destruct Hstatus as (Hne & _). contradiction.
Qed.

(** The vault of the scenario: the auction of epoch 0 starts with the
    lock, at 122400, and sells the option that expires a week later. *)
Lemma initializeAuction_ties_the_lock_to_the_auction_witness :
  AuctionStorage.status (AuctionStorage.auction_of Scenario.auction_of_vault 0)
    = AuctionStorage.INITIALIZED
  /\ AuctionStorage.startTime (AuctionStorage.auction_of Scenario.auction_of_vault 0)
     = startTime Scenario.vault_initialized
  /\ startTime Scenario.vault_initialized = 122400
  /\ AuctionStorage.expiry (AuctionStorage.auction_of Scenario.auction_of_vault 0)
     = 720000.
Proof.
  assert (E : initializeAuction Scenario.vaultK (Scenario.vaultEnv 100 2 1000 0)
                Scenario.auctionK Scenario.vault0 (Auction.initial 1 0)
              = Ok (Scenario.vault_initialized, Scenario.auction_of_vault))
    by (vm_compute; reflexivity).
  destruct (initializeAuction_ties_the_lock_to_the_auction _ _ _ _ _ _ _ E)
    as (_ & _ & _ & Hcases & _).
  change (epoch Scenario.vault0) with 0 in Hcases.
  destruct Hcases as [Hc | (Hst & Hstart & _)];
    [vm_compute in Hc; discriminate Hc|].
  split; [exact Hst|]. split; [exact Hstart|].
  split; vm_compute; reflexivity.
Defined.

(** X22.  The vault processes its last auction only if that auction is
    finalized or cancelled.  A cancelled auction is left as it is and no
    token moves.  A finalized one has its premiums, the last price times the
    contracts sold, sent to the vault, has exactly the contracts sold
    written by the pool when there are any, and ends processed at the time
    of the call.  Either way the vault records its total assets and lifts
    the withdrawal lock. *)
Theorem vault_processes_finalized_or_cancelled_auction
    (k : Immutables) (e : Env) (ka : Auction.Immutables)
    (l l' : Layout) (la la' : AuctionStorage.Layout) (fx : list Effect) :
  processAuction k e ka l la = Ok (l', la', fx) ->
  let lastEpoch := _lastEpoch l in
  let auction := AuctionStorage.auction_of la lastEpoch in
  let auction' := AuctionStorage.auction_of la' lastEpoch in
  msg_sender e = keeper l
  /\ _totalAssets e l = Ok (lastTotalAssets l')
  /\ auctionProcessed l' = true
  /\ (AuctionStorage.status auction = AuctionStorage.CANCELLED /\ la' = la /\ fx = []
      \/ AuctionStorage.status auction = AuctionStorage.FINALIZED
         /\ AuctionStorage.status auction' = AuctionStorage.PROCESSED
         /\ AuctionStorage.processedTime auction' = block_timestamp e
         /\ AuctionStorage.totalContractsSold auction'
            = AuctionStorage.totalContractsSold auction
         /\ ABDKMath64x64.mulu (AuctionStorage.lastPrice64x64 auction)
              (AuctionStorage.totalContractsSold auction)
            = Ok (AuctionStorage.totalPremiums auction')
         /\ exists fxPool,
              fx = by_Auction (Auction.ERC20_safeTransfer (Auction.Vault ka)
                                 (AuctionStorage.totalPremiums auction')) :: fxPool
              /\ (AuctionStorage.totalContractsSold auction <= 0 -> fxPool = [])
              /\ (0 < AuctionStorage.totalContractsSold auction ->
                  exists allowance divestment,
                    fxPool = [ERC20_approve (Pool k) allowance;
                              Pool_writeFrom (this k) (Auction l)
                                (expiry (_lastOption l)) (strike64x64 (_lastOption l))
                                (AuctionStorage.totalContractsSold auction) (isCall l);
                              Pool_setDivestmentTimestamp divestment (isCall l)])).
Proof.
  intros E. cbv zeta. unfold processAuction in E.
  apply bind_Ok in E as (u & Hkeeper & E). apply require_Ok, Z.eqb_eq in Hkeeper.
  apply bind_Ok in E as (total & Htotal & E).
  apply bind_Ok in E as (u1 & Hreq & E). apply require_Ok in Hreq.
  apply bind_Ok in E as ([la1 fx1] & Hbody & E). injection E as <- <- <-.
  cbn [lastTotalAssets set_auctionProcessed set_lastTotalAssets auctionProcessed] in *.
  split; [exact Hkeeper|]. split; [exact Htotal|]. split; [reflexivity|].
  change (_lastEpoch (set_lastTotalAssets total l)) with (_lastEpoch l) in *.
  change (_lastOption (set_lastTotalAssets total l)) with (_lastOption l) in *.
  unfold AuctionStorage._isCancelled, AuctionStorage._isFinalized in *.
  destruct (AuctionStorage.status (AuctionStorage.auction_of la (_lastEpoch l))) eqn:Hst;
    simpl in Hreq; try discriminate Hreq; simpl in Hbody.
  - right. split; [reflexivity|].
    apply bind_Ok in Hbody as ([[premiums la2] fxa] & Hpremium & Hbody).
    apply TransactionFacts.transferPremium_Ok in Hpremium
      as (_ & _ & _ & Hmulu & -> & ->).
    apply bind_Ok in Hbody as (fxp & Hpool & Hbody).
    apply bind_Ok in Hbody as (la3 & Hproc & Hbody). injection Hbody as <- <-.
    unfold Auction.processAuction in Hproc.
    apply bind_Ok in Hproc as (v & _ & Hproc). apply bind_Ok in Hproc as (v1 & _ & Hproc).
    apply bind_Ok in Hproc as (v2 & _ & Hproc). injection Hproc as <-.
    rewrite !StorageFacts.auction_of_set_auction. simpl.
    split; [reflexivity|]. split; [reflexivity|]. split; [reflexivity|].
    split; [exact Hmulu|].
    exists fxp. split; [reflexivity|].
    unfold Auction.getTotalContractsSold, AuctionStorage._getTotalContractsSold in Hpool.
    rewrite StorageFacts.auction_of_set_auction in Hpool. simpl in Hpool.
    revert Hpool.
    destruct (Z.ltb_spec 0 (AuctionStorage.totalContractsSold
                              (AuctionStorage.auction_of la (_lastEpoch l)))) as [Hs|Hs];
      intros Hpool.
    + split; [lia|]. intros _.
      apply bind_Ok in Hpool as (used & _ & Hpool).
      apply bind_Ok in Hpool as (reserves & _ & Hpool).
      apply bind_Ok in Hpool as (allowance & _ & Hpool).
      apply bind_Ok in Hpool as (divestment & _ & Hpool). injection Hpool as <-.
      eexists _, _. reflexivity.
    + split; [intros _; congruence | lia].
  - left. injection Hbody as <- <-. repeat split; reflexivity.
Qed.

(** The vault of the scenario processes its cancelled auction: nothing
    moves, and the lock is lifted. *)
Lemma vault_processes_finalized_or_cancelled_auction_witness :
  exists l',
    processAuction Scenario.vaultK (Scenario.vaultEnv 300001 2 1000 0) Scenario.auctionK
      Scenario.vault_initialized Scenario.timed_out = Ok (l', Scenario.timed_out, [])
    /\ auctionProcessed l' = true /\ lastTotalAssets l' = 1000.
Proof.
  destruct (processAuction Scenario.vaultK (Scenario.vaultEnv 300001 2 1000 0)
              Scenario.auctionK Scenario.vault_initialized Scenario.timed_out)
    as [[[l' la'] fx]|msg] eqn:E; [|vm_compute in E; discriminate E].
  destruct (vault_processes_finalized_or_cancelled_auction _ _ _ _ _ _ _ _ E)
    as (_ & Htotal & Hflag & Hcases).
  exists l'.
  destruct Hcases as [(_ & -> & ->) | (Hst & _)]; [|vm_compute in Hst; discriminate Hst].
  split; [reflexivity|]. split; [exact Hflag|].
  assert (Ht : _totalAssets (Scenario.vaultEnv 300001 2 1000 0) Scenario.vault_initialized
               = Ok 1000) by (vm_compute; reflexivity).
  rewrite Ht in Htotal. injection Htotal as <-. reflexivity.
Defined.

End VaultAuctionFacts.

(** ** The start of an epoch *)

Module EpochFacts.

Import VaultStorage Vault VaultEpoch.

Lemma divu_value x y :
  0 <= x -> 0 < y -> x * 2 ^ 64 / y <= MAX_64x64 ->
  ABDKMath64x64.divu x y = Ok (x * 2 ^ 64 / y).
Proof.
  intros Hx Hy Hq. unfold ABDKMath64x64.divu.
  replace (y =? 0) with false by (symmetry; apply Z.eqb_neq; lia).
  simpl negb. rewrite require_true, Ok_bind. cbv zeta.
  unfold MAX_64x64 in *.
  replace (x * 2 ^ 64 / y <=? 2 ^ 128 - 1) with true by (symmetry; apply Z.leb_le; lia).
  replace (x * 2 ^ 64 / y <=? 2 ^ 127 - 1) with true by (symmetry; apply Z.leb_le; lia).
  reflexivity.
Qed.

(** X23.  The time to maturity of an expiry of 64 bits is defined up to
    the expiry and reverts after it; it is the time left as a 64.64
    fraction of 365 days, rounded down, hence positive exactly while the
    expiry lies ahead and below one exactly within the last 365 days. *)
Theorem time_to_maturity_defined_until_expiry (now expiry : Z) :
  0 <= now -> 0 <= expiry < 2 ^ 64 ->
  (expiry < now -> Pricer._getTimeToMaturity64x64 now expiry = Revert panic_overflow)
  /\ (now <= expiry ->
      let tau := (expiry - now) * 2 ^ 64 / Pricer.DAYS_365 in
      Pricer._getTimeToMaturity64x64 now expiry = Ok tau
      /\ (0 < tau <-> now < expiry)
      /\ (tau < ONE_64x64 <-> expiry - now < Pricer.DAYS_365)).
Proof.
  intros Hnow Hexp. unfold Pricer._getTimeToMaturity64x64. split.
  - intros Hpast. unfold usub.
    replace (now <=? expiry) with false by (symmetry; apply Z.leb_gt; lia). reflexivity.
  - intros Hahead. cbv zeta. rewrite usub_fits, Ok_bind by lia.
    unfold Pricer.DAYS_365, ONE_64x64, MAX_64x64 in *.
    assert (Hq : (expiry - now) * 2 ^ 64 / (365 * 86400) <= 2 ^ 127 - 1).
    { apply Z.div_le_upper_bound; lia. }
    split; [apply divu_value; unfold MAX_64x64; lia|]. split.
    + split; intros H.
      * destruct (Z.eq_dec expiry now) as [Heq|Hne].
        -- rewrite Heq, Z.sub_diag, Z.mul_0_l in H. change (0 / _) with 0 in H. lia.
        -- clear H Hq. lia.
      * apply Z.div_str_pos. lia.
    + split; intros H.
      * apply Z.nle_gt. intros Hge. apply Z.nle_gt in H. apply H.
        apply Z.div_le_lower_bound; lia.
      * apply Z.div_lt_upper_bound; lia.
Qed.

(** A week before the expiry the time to maturity is positive and well
    below one; a second after the expiry there is none. *)
Lemma time_to_maturity_defined_until_expiry_witness :
  Pricer._getTimeToMaturity64x64 720001 720000 = Revert panic_overflow
  /\ exists tau,
       Pricer._getTimeToMaturity64x64 115200 720000 = Ok tau /\ 0 < tau < ONE_64x64.
Proof.
  assert (H0 : 0 <= 720000 < 2 ^ 64) by (vm_compute; split; first [discriminate | reflexivity]).
  split.
  - destruct (time_to_maturity_defined_until_expiry 720001 720000 ltac:(lia) H0)
      as (Hpast & _).
    apply Hpast. lia.
  - destruct (time_to_maturity_defined_until_expiry 115200 720000 ltac:(lia) H0)
      as (_ & Hahead).
    destruct (Hahead ltac:(lia)) as (Hrun & Hpos & Hone).
    eexists. split; [exact Hrun|]. split.
    + apply Hpos. lia.
    + apply Hone. vm_compute. reflexivity.
Defined.

(** What [_collectPerformanceFee] does to the storage. *)
Lemma _collectPerformanceFee_storage e l l' fx :
  _collectPerformanceFee e l = Ok (l', fx) -> l' = set_totalWithdrawals 0 l.
Proof.
  unfold _collectPerformanceFee, _withdrawReservedLiquidity. intros E.
  apply bind_Ok in E as (t & _ & E). apply bind_Ok in E as (a & _ & E).
  apply bind_Ok in E as (fx2 & _ & E). injection E as <- _. reflexivity.
Qed.

(** X24.  The performance fee is taken on a positive net income only: the
    total assets of the vault plus what was withdrawn during the epoch,
    less the total assets recorded when the auction was processed.  With a
    fee rate between 0 and 1 the fee is that rate of the net income, never
    more than the net income; on a loss nothing is sent.  Either way the
    count of the withdrawals starts again from zero. *)
Theorem performance_fee_on_positive_income_only (e : Env) (l l' : Layout)
    (fx : list Vault.Effect) :
  0 <= performanceFee64x64 l <= ONE_64x64 ->
  _collectPerformanceFee e l = Ok (l', fx) ->
  l' = set_totalWithdrawals 0 l
  /\ exists totalAssets,
       _totalAssets (credited (Pool_balanceOf e (reservedLiquidityTokenId l)) e) l
         = Ok totalAssets
       /\ let netIncome := totalAssets + totalWithdrawals l - lastTotalAssets l in
          let fee := ABDKMath64x64.mulu_value (performanceFee64x64 l) netIncome in
          fx = snd (_withdrawReservedLiquidity e l)
               ++ (if 0 <? netIncome
                   then [ERC20_safeTransfer (feeRecipient l) fee] else [])
          /\ (0 < netIncome -> 0 <= fee <= netIncome).
Proof.
  intros Hrate E. split; [eapply _collectPerformanceFee_storage; exact E|].
  unfold _collectPerformanceFee, _withdrawReservedLiquidity in *.
  apply bind_Ok in E as (total & Htotal & E).
  apply bind_Ok in E as (adjusted & Hadj & E). apply uadd_Ok in Hadj as (-> & _).
  apply bind_Ok in E as (fx2 & Hfee & E). injection E as _ <-.
  exists total. split; [exact Htotal|]. cbv zeta. cbn [snd].
  assert (Hfrac : forall n, 0 <= n ->
            0 <= ABDKMath64x64.mulu_value (performanceFee64x64 l) n <= n).
  { intros n Hn. unfold ABDKMath64x64.mulu_value, ONE_64x64 in *.
    split; [apply Z.div_pos; [nia | lia]|]. apply Z.div_le_upper_bound; [lia | nia]. }
  split; [|intros Hpos; apply Hfrac; lia].
  f_equal. revert Hfee.
  destruct (Z.ltb_spec (lastTotalAssets l) (total + totalWithdrawals l)) as [Hgain|Hloss];
    intros Hfee.
  - replace (0 <? total + totalWithdrawals l - lastTotalAssets l) with true
      by (symmetry; apply Z.ltb_lt; lia).
    apply bind_Ok in Hfee as (net & Hnet & Hfee). apply usub_Ok in Hnet as (-> & _).
    apply bind_Ok in Hfee as (fee & Hmulu & Hfee). injection Hfee as <-.
    apply ABDKFacts.mulu_Ok in Hmulu as (-> & _); [reflexivity | lia].
  - replace (0 <? total + totalWithdrawals l - lastTotalAssets l) with false
      by (symmetry; apply Z.ltb_ge; lia).
    injection Hfee as <-. reflexivity.
Qed.

(** The vault holds 1500 where it held 1000 when the auction was
    processed: with a rate of a fifth, 99 go to the fee recipient. *)
Lemma performance_fee_on_positive_income_only_witness :
  exists l' fx,
    _collectPerformanceFee (Scenario.epochEnv 800000 2 1500 0)
      (set_performanceFee64x64 (2 ^ 64 / 5)
         (set_lastTotalAssets 1000 Scenario.vault_in_epoch_1))
    = Ok (l', fx)
    /\ fx = [ERC20_safeTransfer 7 99] /\ totalWithdrawals l' = 0.
Proof.
  destruct (_collectPerformanceFee (Scenario.epochEnv 800000 2 1500 0)
              (set_performanceFee64x64 (2 ^ 64 / 5)
                 (set_lastTotalAssets 1000 Scenario.vault_in_epoch_1)))
    as [[l' fx]|msg] eqn:E; [|vm_compute in E; discriminate E].
  assert (Hrate : 0 <= performanceFee64x64
                         (set_performanceFee64x64 (2 ^ 64 / 5)
                            (set_lastTotalAssets 1000 Scenario.vault_in_epoch_1))
                  <= ONE_64x64) by (vm_compute; split; discriminate).
  destruct (performance_fee_on_positive_income_only _ _ _ _ Hrate E)
    as (Hl & total & Htotal & Hfx & _).
  assert (Ht : total = 1500) by (vm_compute in Htotal; congruence).
  exists l', fx. split; [reflexivity|]. split.
  - rewrite Hfx, Ht. vm_compute. reflexivity.
  - rewrite Hl. reflexivity.
Defined.

(** X25.  [initializeEpoch] moves the vault to the next epoch and prices
    the auction of the epoch that ends.  It goes through only if that
    auction is initialized and its option has a positive strike; an auction
    that was cancelled when it was initialized therefore keeps the epoch
    from starting.  The auction ends cancelled, or initialized with a
    positive minimal price below the maximal price; the other auctions do
    not change.  The withdrawals counted during the epoch are reset, except
    at epoch 0, where no performance fee is collected. *)
Theorem initializeEpoch_prices_the_auction_of_the_ending_epoch
    (k : Immutables) (e : Env) (q : Quotes) (ka : Auction.Immutables)
    (l l' : Layout) (la la' : AuctionStorage.Layout) (fx : list Effect) :
  0 <= epoch l ->
  initializeEpoch k e q ka l la = Ok (l', la', fx) ->
  let auction := AuctionStorage.auction_of la (epoch l) in
  let auction' := AuctionStorage.auction_of la' (epoch l) in
  msg_sender e = keeper l
  /\ epoch l' = epoch l + 1
  /\ _lastEpoch l' = epoch l
  /\ 0 < strike64x64 (option_of l (epoch l))
  /\ AuctionStorage.status auction = AuctionStorage.INITIALIZED
  /\ (AuctionStorage.status auction' = AuctionStorage.CANCELLED
      \/ AuctionStorage.status auction' = AuctionStorage.INITIALIZED
         /\ 0 < AuctionStorage.minPrice64x64 auction'
              < AuctionStorage.maxPrice64x64 auction')
  /\ (forall epoch', epoch' <> epoch l ->
      AuctionStorage.auction_of la' epoch' = AuctionStorage.auction_of la epoch')
  /\ (epoch l = 0 -> totalWithdrawals l' = totalWithdrawals l)
  /\ (0 < epoch l -> totalWithdrawals l' = 0).
Proof.
  intros Hepoch E. cbv zeta. unfold initializeEpoch in E.
  apply bind_Ok in E as (u & Hkeeper & E). apply require_Ok, Z.eqb_eq in Hkeeper.
  apply bind_Ok in E as ([l1 fx1] & Hfee & E).
  apply bind_Ok in E as (epoch' & Hnext & E).
  apply bind_Ok in E as (la1 & Hprices & E). injection E as <- <- _.
  assert (Hl1 : l1 = (if 0 <? epoch l then set_totalWithdrawals 0 l else l)).
  { destruct (Z.ltb_spec 0 (epoch l)) as [Hpos|Hzero].
    - apply _collectPerformanceFee_storage in Hfee. exact Hfee.
    - injection Hfee as <- _. reflexivity. }
  assert (Hsame : epoch l1 = epoch l /\ options l1 = options l)
    by (rewrite Hl1; destruct (0 <? epoch l); split; reflexivity).
  destruct Hsame as (Hep & Hopts).
  rewrite Hep in Hnext.
  destruct (epoch l + 1 <? 2 ^ 64); [|discriminate Hnext]. injection Hnext as <-.
  assert (Hlast : _lastEpoch (set_epoch (epoch l + 1) l1) = epoch l).
  { unfold _lastEpoch. simpl.
    replace (0 <? epoch l + 1) with true by (symmetry; apply Z.ltb_lt; lia). lia. }
  unfold _setAuctionPrices in Hprices. cbv zeta in Hprices.
  unfold _lastOption in Hprices. rewrite Hlast in Hprices.
  assert (Hoption : option_of (set_epoch (epoch l + 1) l1) (epoch l)
                    = option_of l (epoch l)).
  { unfold option_of. simpl. rewrite Hopts. reflexivity. }
  rewrite Hoption in Hprices.
  apply bind_Ok in Hprices as (u1 & Hstrike & Hprices).
  apply require_Ok, Z.ltb_lt in Hstrike.
  apply bind_Ok in Hprices as (offset & _ & Hprices).
  apply bind_Ok in Hprices as ([maxPrice minPrice] & _ & Hprices).
  unfold Auction.setAuctionPrices in Hprices.
  apply bind_Ok in Hprices as (u2 & _ & Hprices).
  apply bind_Ok in Hprices as (u3 & Hst & Hprices).
  apply require_Ok, StorageFacts.status_eqb_eq in Hst. symmetry in Hst.
  split; [exact Hkeeper|]. split; [reflexivity|]. split; [exact Hlast|].
  split; [exact Hstrike|]. split; [exact Hst|].
  split; [|split; [|split]].
  - revert Hprices. cbv zeta.
    match goal with |- (if ?c then _ else _) = _ -> _ => destruct c eqn:Hc end;
      intros [= <-]; rewrite StorageFacts.auction_of_set_auction.
    + left. reflexivity.
    + right. simpl in Hc.
      apply orb_false_iff in Hc as (Hc & Hlt). apply orb_false_iff in Hc as (Hmax & Hmin).
      apply Z.leb_gt in Hlt, Hmax, Hmin. simpl. split; [exact Hst | lia].
  - revert Hprices. cbv zeta.
    match goal with |- (if ?c then _ else _) = _ -> _ => destruct c end;
      intros [= <-]; intros epoch' Hne;
      apply StorageFacts.auction_of_set_auction_ne; congruence.
  - intros Hzero. rewrite Hl1.
    replace (0 <? epoch l) with false by (symmetry; apply Z.ltb_ge; lia).
    reflexivity.
  - intros Hpos. rewrite Hl1.
    replace (0 <? epoch l) with true by (symmetry; apply Z.ltb_lt; lia). reflexivity.
Qed.

(** The keeper of the scenario starts epoch 1: the auction of epoch 0 gets
    its prices, 100 and 10. *)
Lemma initializeEpoch_prices_the_auction_of_the_ending_epoch_witness :
  epoch Scenario.vault_in_epoch_1 = 1
  /\ AuctionStorage.status (AuctionStorage.auction_of Scenario.auction_priced 0)
     = AuctionStorage.INITIALIZED
  /\ 0 < AuctionStorage.minPrice64x64 (AuctionStorage.auction_of Scenario.auction_priced 0)
       < AuctionStorage.maxPrice64x64 (AuctionStorage.auction_of Scenario.auction_priced 0).
Proof.
  assert (E : initializeEpoch Scenario.vaultK (Scenario.epochEnv 115200 2 1000 0)
                Scenario.quotes Scenario.auctionK
                Scenario.vault_initialized Scenario.auction_of_vault
              = Ok (Scenario.vault_in_epoch_1, Scenario.auction_priced,
                    [Queue_processDeposits]))
    by (vm_compute; reflexivity).
  assert (H0 : 0 <= epoch Scenario.vault_initialized) by (vm_compute; discriminate).
  destruct (initializeEpoch_prices_the_auction_of_the_ending_epoch _ _ _ _ _ _ _ _ _ H0 E)
    as (_ & Hep & _ & _ & _ & Hcases & _).
  change (epoch Scenario.vault_initialized) with 0 in Hep, Hcases.
  split; [exact Hep|].
  destruct Hcases as [Hc | Hok]; [vm_compute in Hc; discriminate Hc | exact Hok].
Defined.

End EpochFacts.

(** ** Withdrawing once *)

Module WithdrawOnceFacts.

Import AuctionStorage Auction AuctionSpec StorageFacts InvariantFacts.

(** The orders of the book that are not the buyer's. *)
Lemma previewWithdraw_loop_clears buyer lp a c post :
  forall pre refund fill sold w',
  NoDup (OrderBook.id <$> (pre ++ post)) ->
  Forall (fun d => 0 <= OrderBook.size d) post ->
  previewWithdraw_loop (List.length post) false buyer lp a
    (mkWalk (OrderBook.mkIndex (pre ++ post) c) (OrderBook.head_id post)
       refund fill sold) = Ok w' ->
  w_orderbook w'
  = OrderBook.mkIndex
      (pre ++ List.filter (fun d => negb (OrderBook.buyer d =? buyer)) post) c.
Proof.
  induction post as [|d post IH]; intros pre refund fill sold w' Hnd Hsizes.
  - simpl. intros [= <-]. reflexivity.
  - cbn [List.length previewWithdraw_loop]. intros E.
    apply bind_Ok in E as (w1 & Hturn & E).
    apply Forall_cons in Hsizes as (Hsize & Hsizes).
    destruct (OrderBookFacts.NoDup_ids_split _ _ _ Hnd) as (Hpre & _).
    eapply (WithdrawFacts.previewWithdraw_turn_settles _ _ _ _ _ _ d) in Hturn;
      [| cbn [w_orderbook w_next OrderBook.head_id];
         unfold OrderBook._getOrderById; cbn [OrderBook.orders];
         apply OrderBookFacts.find_order_here; [assumption | reflexivity]
       | exact Hsize ].
    cbn [w_orderbook w_next w_refund w_fill w_totalContractsSold OrderBook.head_id]
      in Hturn.
    destruct Hturn as (Hsold & Hnext & Hbook & _).
    unfold OrderBook._getNextOrder in Hnext. cbn [OrderBook.orders] in Hnext.
    rewrite OrderBookFacts.next_of_here in Hnext by (assumption || reflexivity).
    destruct w1 as [book1 next1 refund1 fill1 sold1].
    cbn [w_orderbook w_next w_refund w_fill w_totalContractsSold] in *.
    subst next1 sold1. cbn [List.filter].
    destruct (OrderBook.buyer d =? buyer); cbn [andb negb] in *.
    + rewrite WithdrawFacts.remove_here in Hbook by exact Hnd. subst book1.
      eapply (IH pre); [|exact Hsizes|exact E].
      eapply WithdrawFacts.NoDup_ids_without. exact Hnd.
    + subst book1. rewrite FinalizeFacts.cons_app_assoc in E.
      rewrite FinalizeFacts.cons_app_assoc.
      eapply (IH (pre ++ [d])); [|exact Hsizes|exact E].
      rewrite <- FinalizeFacts.cons_app_assoc. exact Hnd.
Qed.

Lemma total_paid_of_others buyer book :
  Forall (fun d => OrderBook.buyer d <> buyer) book -> total_paid buyer book = 0.
Proof.
  induction 1 as [|d book Hd _ IH]; simpl; [reflexivity|].
  rewrite IH. replace (OrderBook.buyer d =? buyer) with false
    by (symmetry; apply Z.eqb_neq; exact Hd). reflexivity.
Qed.

Lemma total_filled_of_others buyer lp total book :
  Forall (fun d => OrderBook.buyer d <> buyer) book ->
  forall sold, total_filled buyer lp total sold book = 0.
Proof.
  induction 1 as [|d book Hd _ IH]; intros sold; simpl; [reflexivity|].
  rewrite IH. replace (OrderBook.buyer d =? buyer) with false
    by (symmetry; apply Z.eqb_neq; exact Hd). reflexivity.
Qed.

Lemma total_cost_of_others buyer lp total book :
  Forall (fun d => OrderBook.buyer d <> buyer) book ->
  forall sold, total_cost buyer lp total sold book = 0.
Proof.
  induction 1 as [|d book Hd _ IH]; intros sold; simpl; [reflexivity|].
  rewrite IH. replace (OrderBook.buyer d =? buyer) with false
    by (symmetry; apply Z.eqb_neq; exact Hd). reflexivity.
Qed.

Lemma filter_others buyer book :
  Forall (fun d => OrderBook.buyer d <> buyer)
    (List.filter (fun d => negb (OrderBook.buyer d =? buyer)) book).
Proof.
  induction book as [|d book IH]; simpl; [constructor|].
  destruct (Z.eqb_spec (OrderBook.buyer d) buyer); simpl; [exact IH|].
  constructor; assumption.
Qed.

(** What a withdrawal leaves of the storage. *)
Lemma _withdraw_storage k e l epoch l' fx :
  layout_wf l ->
  _withdraw k e l epoch = Ok (l', fx) ->
  OrderBook.orders (orderbook_of l' epoch)
  = List.filter (fun d => negb (OrderBook.buyer d =? msg_sender e))
      (OrderBook.orders (orderbook_of l epoch))
  /\ epochs_of l' (msg_sender e)
     = snd (EnumerableSet.remove (epochs_of l (msg_sender e)) epoch)
  /\ auction_of l' epoch = auction_of l epoch.
Proof.
  intros (_ & Hbooks & _) E. destruct (Hbooks epoch) as (_ & Hnd & Hall).
  unfold _withdraw in E.
  apply bind_Ok in E as ([[refund fill] l1] & Hp & E).
  apply bind_Ok in E as ([expired amount] & _ & E).
  apply bind_Ok in E as ([refund' fill'] & _ & E). injection E as <- _.
  unfold _previewWithdraw in Hp.
  apply bind_Ok in Hp as (lp & _ & Hp). apply bind_Ok in Hp as (w & Hloop & Hp).
  injection Hp as _ _ <-.
  unfold OrderBook._length, OrderBook._head in Hloop. rewrite Nat2Z.id in Hloop.
  destruct (orderbook_of l epoch) as [book c] eqn:Hbook. cbn [OrderBook.orders] in *.
  apply (previewWithdraw_loop_clears _ _ _ c book []) in Hloop;
    [| exact Hnd | eapply Forall_impl; [exact Hall | intros d Hd; simpl in Hd; tauto] ].
  split; [|split].
  - unfold orderbook_of, set_epochs, set_orderbook. simpl.
    rewrite lookup_total_insert_eq, Hloop. reflexivity.
  - rewrite epochs_of_set_epochs. reflexivity.
  - reflexivity.
Qed.

(** X26.  A withdrawal takes every order of the caller out of the book of
    the epoch, leaves the orders of the others in their order, and takes
    the epoch out of the epochs of the caller.  A second withdrawal by the
    same caller therefore sends nothing. *)
Theorem withdrawal_pays_once
    (k : Immutables) (e : Env) (l l' : Layout) (epoch : Z) (fx : list Effect) :
  reachable k l -> typed e ->
  withdraw k e l epoch = Ok (l', fx) ->
  OrderBook.orders (orderbook_of l' epoch)
  = List.filter (fun d => negb (OrderBook.buyer d =? msg_sender e))
      (OrderBook.orders (orderbook_of l epoch))
  /\ (epoch ∉ getEpochsByBuyer l' (msg_sender e))
  /\ (forall e' l'' fx',
        msg_sender e' = msg_sender e ->
        withdraw k e' l' epoch = Ok (l'', fx') -> fx' = []).
Proof.
  intros Hr Hty E.
  pose proof (reachable_wf k l Hr) as Hwf.
  assert (Hr' : reachable k l').
  { eapply (reachable_exec k l e (Withdraw epoch)); [exact Hr | exact Hty | exact E]. }
  pose proof (reachable_wf k l' Hr') as Hwf'.
  assert (Hw : _withdraw k e l epoch = Ok (l', fx)).
  { unfold withdraw in E. apply bind_Ok in E as (u & _ & E).
    apply bind_Ok in E as (u1 & _ & E). exact E. }
  destruct (_withdraw_storage k e l epoch l' fx Hwf Hw) as (Hbook & Hset & _).
  split; [exact Hbook|]. split.
  { unfold getEpochsByBuyer. rewrite Hset.
    apply EnumerableSetFacts.remove_not_elem. apply Hwf. }
  intros e' l'' fx' Hsender E'.
  unfold withdraw in E'. apply bind_Ok in E' as (u & _ & E').
  apply bind_Ok in E' as (u1 & _ & E').
  unfold _withdraw in E'.
  apply bind_Ok in E' as ([[refund fill] l1] & Hp & E').
  assert (Hnothing : refund = 0 /\ fill = 0).
  { destruct Hwf' as (_ & Hbooks & _). destruct (Hbooks epoch) as (_ & Hnd & Hall).
    unfold _previewWithdraw in Hp.
    apply bind_Ok in Hp as (lp & _ & Hp). apply bind_Ok in Hp as (w & Hloop & Hp).
    injection Hp as <- <- _.
    unfold OrderBook._length, OrderBook._head in Hloop. rewrite Nat2Z.id in Hloop.
    pose proof (filter_others (msg_sender e) (OrderBook.orders (orderbook_of l epoch)))
      as Hothers.
    rewrite <- Hbook, <- Hsender in Hothers.
    destruct (orderbook_of l' epoch) as [book c]. cbn [OrderBook.orders] in *.
    apply (WithdrawFacts.previewWithdraw_loop_settles _ _ _ _ c book []) in Hloop;
      [| exact Hnd | eapply Forall_impl; [exact Hall | intros d Hd; simpl in Hd; tauto] ].
    destruct Hloop as (Hsum & Hfill & _).
    rewrite total_cost_of_others, total_paid_of_others in Hsum by exact Hothers.
    rewrite total_filled_of_others in Hfill by exact Hothers. lia. }
  destruct Hnothing as (-> & ->).
  apply bind_Ok in E' as ([expired amount] & Hex & E').
  apply LifecycleFacts._getExerciseAmount_nothing in Hex as ->.
  destruct expired; simpl in E'; injection E' as _ <-; reflexivity.
Qed.

(** Buyer 3 withdraws the refund from the processed auction of the
    scenario; the epoch leaves the epochs of the buyer, and a second
    withdrawal sends nothing. *)
Lemma withdrawal_pays_once_witness :
  withdraw Scenario.auctionK (Scenario.auctionEnv 100000 3) Scenario.processed 0
    = Ok (Scenario.refunded, [ERC20_safeTransfer 3 10000])
  /\ getEpochsByBuyer Scenario.refunded 3 = []
  /\ exists l'',
       withdraw Scenario.auctionK (Scenario.auctionEnv 100001 3) Scenario.refunded 0
       = Ok (l'', []).
Proof.
  assert (E : withdraw Scenario.auctionK (Scenario.auctionEnv 100000 3)
                Scenario.processed 0
              = Ok (Scenario.refunded, [ERC20_safeTransfer 3 10000]))
    by (vm_compute; reflexivity).
  assert (Hty : typed (Scenario.auctionEnv 100000 3))
    by (apply ScenarioFacts.auctionEnv_typed; lia).
  destruct (withdrawal_pays_once Scenario.auctionK (Scenario.auctionEnv 100000 3)
              Scenario.processed Scenario.refunded 0 _
              ScenarioFacts.processed_reachable Hty E) as (_ & _ & Honce).
  split; [exact E|]. split; [vm_compute; reflexivity|].
  destruct (withdraw Scenario.auctionK (Scenario.auctionEnv 100001 3) Scenario.refunded 0)
    as [[l'' fx']|msg] eqn:E'; [|vm_compute in E'; discriminate E'].
  exists l''. rewrite (Honce (Scenario.auctionEnv 100001 3) l'' fx' eq_refl E').
  reflexivity.
Defined.

End WithdrawOnceFacts.

(** ** The shares spent by a withdrawal from the vault *)

Module VaultWithdrawFacts.

Import VaultStorage Vault.

(** X27.  A withdrawal from the vault goes through only after epoch 0 and
    within the maximal amount of the owner.  It first has the queue redeem
    the claim of the owner, then spends the allowance of a caller who is not
    the owner, then burns the shares of the owner; in the storage it only
    adds the assets to the withdrawals of the epoch. *)
Theorem vault_withdrawal_spends_shares
    (k : Immutables) (e : Env) (l l' : Layout)
    (assetAmount receiver owner shareAmount : Z) (fx : list Effect) :
  _withdraw k e l assetAmount receiver owner = Ok (shareAmount, l', fx) ->
  shareAmount = ERC4626_previewWithdraw e assetAmount
  /\ assetAmount <= ERC4626_maxWithdraw e owner
  /\ 0 < epoch l
  /\ shareAmount <= shares_balanceOf e owner
  /\ (msg_sender e <> owner -> shareAmount <= shares_allowance e owner (msg_sender e))
  /\ l' = set_totalWithdrawals (totalWithdrawals l + assetAmount) l
  /\ exists fxOut,
       fx = Queue_redeemMax receiver owner
            :: (if msg_sender e =? owner then []
                else [shares_approve owner (msg_sender e)
                        (shares_allowance e owner (msg_sender e) - shareAmount)])
            ++ shares_burn owner shareAmount :: fxOut.
Proof.
  intros E. unfold _withdraw in E.
  apply bind_Ok in E as (u & Hmax & E). apply require_Ok, Z.leb_le in Hmax.
  apply bind_Ok in E as ([l1 fx1] & Hbody & E). injection E as <- <- <-.
  unfold _withdraw5, _withdrawReservedLiquidity in Hbody.
  apply bind_Ok in Hbody as (u1 & Hepoch & Hbody). apply require_Ok, Z.ltb_lt in Hepoch.
  apply bind_Ok in Hbody as (fxa & Hallow & Hbody).
  apply bind_Ok in Hbody as (u2 & Hbal & Hbody). apply require_Ok, Z.leb_le in Hbal.
  apply bind_Ok in Hbody as (total & Htotal & Hbody). apply uadd_Ok in Htotal as (-> & _).
  apply bind_Ok in Hbody as ([c s] & _ & Hbody).
  apply bind_Ok in Hbody as ([[c' s'] fxf] & _ & Hbody). injection Hbody as <- <-.
  split; [reflexivity|]. split; [exact Hmax|]. split; [exact Hepoch|].
  split; [exact Hbal|].
  destruct (Z.eqb_spec (msg_sender e) owner) as [Heq|Hne]; simpl in Hallow.
  - injection Hallow as <-. split; [intros H; contradiction|]. split; [reflexivity|].
    eexists. simpl. reflexivity.
  - apply bind_Ok in Hallow as (u3 & Hle & Hallow). apply require_Ok, Z.leb_le in Hle.
    injection Hallow as <-. split; [intros _; exact Hle|]. split; [reflexivity|].
    eexists. simpl. reflexivity.
Qed.

(** In epoch 1 account 3 withdraws 300 of the 1000 units the vault of the
    scenario holds: 300 shares are burnt and 300 units sent. *)
Lemma vault_withdrawal_spends_shares_witness :
  exists l',
    _withdraw Scenario.vaultK (Scenario.vaultEnv 200000 3 1000 0)
      (set_auctionProcessed true Scenario.vault_in_epoch_1) 300 3 3
    = Ok (300, l',
          [Queue_redeemMax 3 3; shares_burn 3 300; Vault.ERC20_safeTransfer 3 300])
    /\ totalWithdrawals l' = 300.
Proof.
  destruct (_withdraw Scenario.vaultK (Scenario.vaultEnv 200000 3 1000 0)
              (set_auctionProcessed true Scenario.vault_in_epoch_1) 300 3 3)
    as [[[shares l'] fx]|msg] eqn:E; [|vm_compute in E; discriminate E].
  destruct (vault_withdrawal_spends_shares _ _ _ _ _ _ _ _ _ E)
    as (Hs & _ & _ & _ & _ & Hl & _).
  exists l'. split.
  - rewrite Hl in *. rewrite <- E. vm_compute. reflexivity.
  - rewrite Hl. vm_compute. reflexivity.
Defined.

End VaultWithdrawFacts.
